(** * Aos communication manager: group downloader and instance launcher

    A shallow embedding of [unitstatushandler/groupdownloader.go] and
    [launcher/launcher.go].  Go values are embedded as follows:
    - [string] is [string]; a Go [error] is represented by its message;
    - [int] and [uint64] are [Z] with the wrap-around of the machine type
      written out where the code does arithmetic;
    - [map[string]T] is [gmap string T]; a [range] over a map visits every key
      once in an order the runtime chooses, so the order is an explicit
      argument of the model;
    - a [*nodeStatus] is the position of the node in [launcher.nodes];
    - collaborators behind Go interfaces are fields of an environment record. *)

From Stdlib Require Import ZArith Lia.
From stdpp Require Import base option list strings gmap pretty.

Local Open Scope string_scope.
Local Open Scope list_scope.

(** ** Go strings *)

(** [strings.Contains(s, substr)]. *)
Fixpoint strings_Contains (s substr : string) : bool :=
  if String.prefix substr s then true
  else match s with
       | EmptyString => false
       | String _ rest => strings_Contains rest substr
       end.

Module downloader.

(** The fields of [downloader.PackageInfo] that the tests of the group
    downloader set; [download] hands the value to [Download] unread. *)
Record PackageInfo := { URLs : list string }.

End downloader.

Module unitstatushandler.

(** [context.Canceled.Error()]. *)
Definition contextCanceled : string := "context canceled".

Definition isCancelError (errString : string) : bool :=
  strings_Contains errString contextCanceled.

Record downloadResult := { FileName : string; Error : string }.

(** The three values of [status] that [download] passes to [statusNotifier]. *)
Inductive DownloadStatus := DownloadingStatus | DownloadedStatus | ErrorStatus.

#[global] Instance DownloadStatus_eq_dec : EqDecision DownloadStatus.
Proof. solve_decision. Defined.

(** One call of [updateStatus(id, status, componentErr)]. *)
Definition notification : Type := string * DownloadStatus * string.

(** What [getDownloadError] reads from one entry. *)
Definition isDownloadError (item : downloadResult) : bool :=
  negb (String.eqb (Error item) "") && negb (isCancelError (Error item)).

(** [getDownloadError], ranging over the entries in the order [items]. *)
Fixpoint getDownloadError (items : list downloadResult) : string :=
  match items with
  | [] => ""
  | item :: rest => if isDownloadError item then Error item else getDownloadError rest
  end.

(** The state of one call of [download]: the [result] map, the calls made to
    [updateStatus] so far (oldest first), whether [downloadCtx] is done, the
    ids the start loop has still to visit, and the ids whose goroutine has
    not yet returned from [Wait]. *)
Record state := {
  result : gmap string downloadResult;
  notified : list notification;
  canceled : bool;
  queue : list string;
  waiting : list string;
}.

(** What the environment does during a call: the downloader answers the
    [Download] of the next id with an error or a file name, a started item
    returns from [Wait] with [nil] or an error, or the caller's context is
    cancelled. *)
Inductive event :=
| Start (id : string) (r : string + string)
| Finish (id : string) (r : option string)
| Cancel.

Definition updateStatus (id : string) (st : DownloadStatus) (componentErr : string)
    (s : state) : state :=
  {| result := result s; notified := notified s ++ [(id, st, componentErr)];
     canceled := canceled s; queue := queue s; waiting := waiting s |}.

Definition setError (id errorStr : string) (s : state) : state :=
  {| result := alter (fun r => {| FileName := FileName r; Error := errorStr |}) id (result s);
     notified := notified s; canceled := canceled s; queue := queue s;
     waiting := waiting s |}.

Definition setFileName (id fileName : string) (s : state) : state :=
  {| result := alter (fun r => {| FileName := fileName; Error := Error r |}) id (result s);
     notified := notified s; canceled := canceled s; queue := queue s;
     waiting := waiting s |}.

Definition cancelFunc (s : state) : state :=
  {| result := result s; notified := notified s; canceled := true;
     queue := queue s; waiting := waiting s |}.

Definition setQueue (q : list string) (s : state) : state :=
  {| result := result s; notified := notified s; canceled := canceled s;
     queue := q; waiting := waiting s |}.

Definition setWaiting (w : list string) (s : state) : state :=
  {| result := result s; notified := notified s; canceled := canceled s;
     queue := queue s; waiting := w |}.

(** The calls of [updateStatus] made for [id], oldest first. *)
Definition statuses (s : state) (id : string) : list (DownloadStatus * string) :=
  omap (fun n : notification =>
          if decide (n.1.1 = id) then Some (n.1.2, n.2) else None) (notified s).

Section GroupDownloader.

(** [aoserrors.Wrap(err).Error()], as a function of the message of [err]. *)
Variable wrapError : string -> string.

Variable continueOnError : bool.

(** The closure [handleError]. *)
Definition handleError (id err : string) (s : state) : state :=
  let errorStr := wrapError err in
  let s := if isCancelError errorStr then s
           else updateStatus id ErrorStatus errorStr (setError id errorStr s) in
  if continueOnError then s else cancelFunc s.

(** First loop: an empty entry and a [downloading] notification per id. *)
Definition initItem (s : state) (id : string) : state :=
  updateStatus id DownloadingStatus ""
    {| result := <[id := {| FileName := ""; Error := "" |}]> (result s);
       notified := notified s; canceled := canceled s; queue := queue s;
       waiting := waiting s |}.

(** One step of the call after the first loop. *)
Definition step (ev : event) (s : state) : option state :=
  match ev with
  | Start id r =>
      match queue s with
      | next :: rest =>
          if decide (id = next) then
            match r with
            | inl err =>
                Some (setQueue (if continueOnError then rest else [])
                        (handleError id err s))
            | inr fileName =>
                Some (setQueue rest
                        (setWaiting (waiting s ++ [id]) (setFileName id fileName s)))
            end
          else None
      | [] => None
      end
  | Finish id r =>
      if decide (id ∈ waiting s) then
        let s := setWaiting (filter (fun x => x ≠ id) (waiting s)) s in
        match r with
        | Some err => Some (handleError id err s)
        | None => Some (updateStatus id DownloadedStatus "" s)
        end
      else None
  | Cancel => Some (cancelFunc s)
  end.

Fixpoint exec (evs : list event) (s : state) : option state :=
  match evs with
  | [] => Some s
  | ev :: rest => match step ev s with Some s' => exec rest s' | None => None end
  end.

(** Last loop, entered when [downloadCtx.Err() != nil]. *)
Definition cancelItem (s : state) (id : string) : state :=
  match result s !! id with
  | Some item =>
      if String.eqb (Error item) "" then
        let errorStr := wrapError contextCanceled in
        updateStatus id ErrorStatus errorStr (setError id errorStr s)
      else s
  | None => s
  end.

(** The orders in which the three [range] loops visit the keys. *)
Record rangeOrders := { initOrder : list string; startOrder : list string;
                        cancelOrder : list string }.

(** [download]: [Some] final state when [evs] is a complete run, in which the
    start loop has ended and every goroutine has returned. *)
Definition download (o : rangeOrders) (evs : list event) : option state :=
  let s0 := foldl initItem
              {| result := ∅; notified := []; canceled := false;
                 queue := startOrder o; waiting := [] |} (initOrder o) in
  match exec evs s0 with
  | Some s =>
      match queue s, waiting s with
      | [], [] => Some (if canceled s then foldl cancelItem s (cancelOrder o) else s)
      | _, _ => None
      end
  | None => None
  end.

End GroupDownloader.

End unitstatushandler.

(** ** Types of the packages the launcher imports *)

(** A Go call that returns [(value, error)]. *)
Inductive result (A : Type) := Ok (a : A) | Err (msg : string).
Arguments Ok {A} a.
Arguments Err {A} msg.

(** Go's [int] is 64 bits wide: [x + 1] and [x - 1] wrap around. *)
Definition intWrap (z : Z) : Z := ((z + 2 ^ 63) mod 2 ^ 64 - 2 ^ 63)%Z.

(** [uint64] arithmetic is modulo [2 ^ 64]. *)
Definition uint64Wrap (z : Z) : Z := (z mod 2 ^ 64)%Z.

(** The conversion [uint32(x)]. *)
Definition uint32Wrap (z : Z) : Z := (z mod 2 ^ 32)%Z.

(** The order in which [sort.Slice] and [slices.SortFunc] leave a slice of at
    most twelve elements: insertion sort, each element moving left while it
    is [less] than its left neighbour.  (On longer slices Go switches to
    pattern-defeating quicksort, which may order equal elements otherwise.)
    [prefix] is the sorted prefix, last element first. *)
Fixpoint insertLeft {A : Type} (less : A -> A -> bool) (x : A) (prefix : list A) : list A :=
  match prefix with
  | [] => [x]
  | y :: rest => if less x y then y :: insertLeft less x rest else x :: y :: rest
  end.

Definition sortSlice {A : Type} (less : A -> A -> bool) (l : list A) : list A :=
  rev (foldl (fun prefix x => insertLeft less x prefix) [] l).

Module aostypes.

Record InstanceIdent := { ServiceID : string; SubjectID : string; Instance : N }.

(** Modelled from the spec: the declaration of [aostypes.NetworkParameters]
    is not among the sources; the spec lists the network parameters of an
    instance as ip, subnet, dnsServers, hosts, exposePorts, allowConnections. *)
Record NetworkParameters := {
  IP : string; Subnet : string; DNSServers : list string;
  Hosts : list string; ExposePorts : list string; AllowConnections : list string }.

Record InstanceInfo := {
  InstanceIdent_ : InstanceIdent;
  NetworkParameters_ : NetworkParameters;
  UID : Z;
  Priority : N;
  StoragePath : string;
  StatePath : string }.

(** The fields of [aostypes.ServiceInfo] and [aostypes.LayerInfo] that the
    launcher or its tests name. *)
Record ServiceInfo := {
  AosVersion : N; ID : string; ProviderID : string; URL : string; GID : N }.

Record LayerInfo := {
  LayerInfo_AosVersion : N; LayerInfo_ID : string; Digest : string;
  LayerInfo_URL : string }.

Record ServiceDevice := { Name : string; Permissions : string }.

Record ServiceQuotas := { StateLimit : option N; StorageLimit : option N }.

Record ServiceConfig := {
  Runner : string;
  Devices : list ServiceDevice;
  Resources : list string;
  Hostname : option string;
  AllowedConnections : gset string;
  Quotas : ServiceQuotas }.

Record DeviceInfo := { DeviceInfo_Name : string; SharedCount : Z }.

Record ResourceInfo := { ResourceInfo_Name : string }.

Record NodeUnitConfig := {
  NodeUnitConfig_NodeType : string;
  NodeUnitConfig_Priority : N;
  NodeUnitConfig_Labels : list string;
  NodeUnitConfig_Resources : list ResourceInfo;
  NodeUnitConfig_Devices : list DeviceInfo }.

#[global] Instance InstanceIdent_eq_dec : EqDecision InstanceIdent.
Proof. solve_decision. Defined.
#[global] Instance NetworkParameters_eq_dec : EqDecision NetworkParameters.
Proof. solve_decision. Defined.
#[global] Instance InstanceInfo_eq_dec : EqDecision InstanceInfo.
Proof. solve_decision. Defined.
#[global] Instance ServiceInfo_eq_dec : EqDecision ServiceInfo.
Proof. solve_decision. Defined.
#[global] Instance LayerInfo_eq_dec : EqDecision LayerInfo.
Proof. solve_decision. Defined.
#[global] Instance ServiceDevice_eq_dec : EqDecision ServiceDevice.
Proof. solve_decision. Defined.

Definition emptyNetworkParameters : NetworkParameters :=
  {| IP := ""; Subnet := ""; DNSServers := []; Hosts := []; ExposePorts := [];
     AllowConnections := [] |}.

End aostypes.

Module cloudprotocol.

Definition InstanceStateFailed : string := "failed".
Definition ErrorStatus : string := "error".

Record InstanceInfo := {
  ServiceID : string; SubjectID : string; Priority : N; NumInstances : N;
  Labels : list string }.

Record ErrorInfo := { Message : string }.

Record InstanceStatus := {
  InstanceIdent_ : aostypes.InstanceIdent;
  AosVersion : N;
  RunState : string;
  NodeID : string;
  StateChecksum : string;
  ErrorInfo_ : option ErrorInfo }.

Record ServiceStatus := {
  ServiceStatus_ID : string; ServiceStatus_AosVersion : N; Status : string;
  ServiceStatus_ErrorInfo : option ErrorInfo }.

Record NodeInfo := {
  NodeInfo_NodeID : string; NodeType : string; NumCPUs : Z; TotalRAM : Z }.

Record NodeMonitoringData := { RAM : Z; CPU : Z }.

Record SystemQuotaAlert := { SystemQuotaAlert_NodeID : string; Parameter_ : string }.

#[global] Instance ErrorInfo_eq_dec : EqDecision ErrorInfo.
Proof. solve_decision. Defined.
#[global] Instance InstanceStatus_eq_dec : EqDecision InstanceStatus.
Proof. solve_decision. Defined.

End cloudprotocol.

Module imagemanager.

Record ServiceInfo := {
  ServiceInfo_ : aostypes.ServiceInfo;
  RemoteURL : string;
  Cached : bool;
  Config : aostypes.ServiceConfig;
  Layers : list string;
  ExposedPorts : list string }.

Record LayerInfo := {
  LayerInfo_ : aostypes.LayerInfo; LayerInfo_RemoteURL : string }.

End imagemanager.

Module networkmanager.

Record NetworkParameters := {
  Hosts : list string; AllowConnections : list string; ExposePorts : list string }.

End networkmanager.

Module storagestate.

Record SetupParams := {
  InstanceIdent_ : aostypes.InstanceIdent;
  StorageQuota : N; StateQuota : N; UID : Z; GID : Z }.

End storagestate.

(** Modelled from the spec: the package [utils/uidgidpool] is not among the
    sources.  The spec says that UIDs are allocated from a pool; the launcher
    tests expect 5000, 5001, ... in the order of allocation.  The pool is the
    set of identifiers in use; [GetFreeID] hands out the lowest identifier of
    the range that is not in use. *)
Module uidgidpool.

Definition IdentifierPool : Type := gset Z.

Definition idsRangeBegin : Z := 5000.
Definition idsRangeSize : nat := 5000.

Definition NewUserIDPool : IdentifierPool := ∅.

Definition GetFreeID (pool : IdentifierPool) : IdentifierPool * result Z :=
  match List.find (fun id => bool_decide (id ∉ pool)) (seqZ idsRangeBegin (Z.of_nat idsRangeSize)) with
  | Some id => ({[id]} ∪ pool, Ok id)
  | None => (pool, Err "no free ID found")
  end.

Definition AddID (id : Z) (pool : IdentifierPool) : IdentifierPool * option string :=
  if bool_decide (id ∈ pool) then (pool, Some "ID already exists")
  else ({[id]} ∪ pool, None).

Definition RemoveID (id : Z) (pool : IdentifierPool) : IdentifierPool * option string :=
  if bool_decide (id ∈ pool) then (pool ∖ {[id]}, None)
  else (pool, Some "id is not in pool").

End uidgidpool.

(** ** launcher/launcher.go *)

Module launcher.

Definition ErrNotExist : string := "instance not exist".

Definition defaultRunner : string := "crun".

Definition defaultRunnerFeatures : list string := ["crun"; "runc"].

Record NodeRunInstanceStatus := {
  NodeRunInstanceStatus_NodeID : string;
  NodeRunInstanceStatus_NodeType : string;
  NodeRunInstanceStatus_Instances : list cloudprotocol.InstanceStatus }.

Record NodeInfo := {
  NodeInfo_ : cloudprotocol.NodeInfo;
  RemoteNode : bool;
  RunnerFeature : list string }.

Record InstanceInfo := { InstanceIdent_ : aostypes.InstanceIdent; UID : Z }.

Record nodeDevice := { name : string; sharedCount : Z; allocatedCount : Z }.

Record runRequestInfo := {
  services : list aostypes.ServiceInfo;
  layers : list aostypes.LayerInfo;
  instances : list aostypes.InstanceInfo }.

Record nodeStatus := {
  NodeInfo__ : NodeInfo;
  availableResources : list string;
  availableLabels : list string;
  availableDevices : list nodeDevice;
  priority : N;
  receivedRunInstances : list cloudprotocol.InstanceStatus;
  currentRunRequest : runRequestInfo;
  waitStatus : bool }.

(** [unitstatushandler.RunInstancesStatus]. *)
Record RunInstancesStatus := {
  UnitSubjects : list string;
  Instances : list cloudprotocol.InstanceStatus;
  ErrorServices : list cloudprotocol.ServiceStatus }.

Definition NodeID (node : nodeStatus) : string :=
  cloudprotocol.NodeInfo_NodeID (NodeInfo_ (NodeInfo__ node)).

(** A nil [*runRequestInfo] and an empty request are not told apart: the
    launcher reads [currentRunRequest] only after [performNodeBalancing] has
    set it on every node. *)
Definition emptyRunRequest : runRequestInfo :=
  {| services := []; layers := []; instances := [] |}.

Definition withDevices (devices : list nodeDevice) (node : nodeStatus) : nodeStatus :=
  {| NodeInfo__ := NodeInfo__ node; availableResources := availableResources node;
     availableLabels := availableLabels node; availableDevices := devices;
     priority := priority node; receivedRunInstances := receivedRunInstances node;
     currentRunRequest := currentRunRequest node; waitStatus := waitStatus node |}.

Definition withRunRequest (request : runRequestInfo) (node : nodeStatus) : nodeStatus :=
  {| NodeInfo__ := NodeInfo__ node; availableResources := availableResources node;
     availableLabels := availableLabels node; availableDevices := availableDevices node;
     priority := priority node; receivedRunInstances := receivedRunInstances node;
     currentRunRequest := request; waitStatus := waitStatus node |}.

Definition withWaitStatus (wait : bool) (node : nodeStatus) : nodeStatus :=
  {| NodeInfo__ := NodeInfo__ node; availableResources := availableResources node;
     availableLabels := availableLabels node; availableDevices := availableDevices node;
     priority := priority node; receivedRunInstances := receivedRunInstances node;
     currentRunRequest := currentRunRequest node; waitStatus := wait |}.

Definition withReceived (received : list cloudprotocol.InstanceStatus) (node : nodeStatus)
    : nodeStatus :=
  {| NodeInfo__ := NodeInfo__ node; availableResources := availableResources node;
     availableLabels := availableLabels node; availableDevices := availableDevices node;
     priority := priority node; receivedRunInstances := received;
     currentRunRequest := currentRunRequest node; waitStatus := waitStatus node |}.

Definition withInstances (l : list aostypes.InstanceInfo) (node : nodeStatus) : nodeStatus :=
  withRunRequest {| services := services (currentRunRequest node);
                    layers := layers (currentRunRequest node); instances := l |} node.

(** *** The instance table behind the [Storage] interface *)

(** Modelled from the spec: the implementation of [Storage] is not among the
    sources; the spec says that it persists per-instance [{ident, uid}].  The
    table is a list of records, one per ident, and never fails. *)
Definition Storage : Type := list InstanceInfo.

Definition GetInstanceUID (ident : aostypes.InstanceIdent) (table : Storage) : result Z :=
  match List.find (fun i => bool_decide (InstanceIdent_ i = ident)) table with
  | Some i => Ok (UID i)
  | None => Err ErrNotExist
  end.

Definition AddInstance (instanceInfo : InstanceInfo) (table : Storage) : Storage :=
  match GetInstanceUID (InstanceIdent_ instanceInfo) table with
  | Ok _ => table
  | Err _ => table ++ [instanceInfo]
  end.

Fixpoint RemoveInstance (ident : aostypes.InstanceIdent) (table : Storage) : Storage :=
  match table with
  | [] => []
  | i :: rest =>
      if bool_decide (InstanceIdent_ i = ident) then rest else i :: RemoveInstance ident rest
  end.

(** *** Collaborators *)

(** What the launcher observably does to its collaborators. *)
Inductive effect :=
| SendRunStatus (status : RunInstancesStatus)
| CallRunInstances (nodeID : string) (request : runRequestInfo) (forceRestart : bool)
| CallCleanup (ident : aostypes.InstanceIdent)
| CallRevertService (serviceID : string).

(** The collaborators of one launcher call.  [NetState] is the state of the
    network manager.  [rangeAllowedConnections] is the order in which a
    [range] visits the keys of an [AllowedConnections] map. *)
Record Env (NetState : Type) := {
  NodeIDs : list string;
  GetServiceInfo : string -> result imagemanager.ServiceInfo;
  GetLayerInfo : string -> result imagemanager.LayerInfo;
  GetNodeConfiguration : string -> result NodeInfo;
  GetNodeMonitoringData : string -> cloudprotocol.NodeMonitoringData;
  RunInstancesError : string -> option string;
  GetUnitConfiguration : string -> aostypes.NodeUnitConfig;
  Setup : storagestate.SetupParams -> string * string * option string;
  GetInstanceCheckSum : aostypes.InstanceIdent -> string;
  PrepareInstanceNetworkParameters :
    NetState -> aostypes.InstanceIdent -> string -> networkmanager.NetworkParameters ->
    NetState * aostypes.NetworkParameters * option string;
  RemoveInstanceNetworkParameters : NetState -> aostypes.InstanceIdent -> string -> NetState;
  NetworkGetInstances : NetState -> list aostypes.InstanceIdent;
  rangeAllowedConnections : gset string -> list string }.

Arguments NodeIDs {NetState} _.
Arguments GetServiceInfo {NetState} _ _.
Arguments GetLayerInfo {NetState} _ _.
Arguments GetNodeConfiguration {NetState} _ _.
Arguments GetNodeMonitoringData {NetState} _ _.
Arguments RunInstancesError {NetState} _ _.
Arguments GetUnitConfiguration {NetState} _ _.
Arguments Setup {NetState} _ _.
Arguments GetInstanceCheckSum {NetState} _ _.
Arguments PrepareInstanceNetworkParameters {NetState} _ _ _ _ _.
Arguments RemoveInstanceNetworkParameters {NetState} _ _ _ _.
Arguments NetworkGetInstances {NetState} _ _.
Arguments rangeAllowedConnections {NetState} _ _.

(** The fields of [Launcher] that the calls read or write, the state of the
    collaborators that keep one, and the effects so far (oldest first). *)
Record Launcher (NetState : Type) := {
  nodes : list nodeStatus;
  storage : Storage;
  uidPool : uidgidpool.IdentifierPool;
  network : NetState;
  currentDesiredInstances : list cloudprotocol.InstanceInfo;
  currentRunStatus : list cloudprotocol.InstanceStatus;
  currentErrorStatus : list cloudprotocol.InstanceStatus;
  pendingNewServices : list string;
  effects : list effect }.

Arguments nodes {NetState} _.
Arguments storage {NetState} _.
Arguments uidPool {NetState} _.
Arguments network {NetState} _.
Arguments currentDesiredInstances {NetState} _.
Arguments currentRunStatus {NetState} _.
Arguments currentErrorStatus {NetState} _.
Arguments pendingNewServices {NetState} _.
Arguments effects {NetState} _.

Section Launcher.

Context {NetState : Type}.

Abbreviation Launcher := (Launcher NetState).
Abbreviation Env := (Env NetState).

Definition setNodes (ns : list nodeStatus) (l : Launcher) : Launcher :=
  {| nodes := ns; storage := storage l; uidPool := uidPool l; network := network l;
     currentDesiredInstances := currentDesiredInstances l;
     currentRunStatus := currentRunStatus l; currentErrorStatus := currentErrorStatus l;
     pendingNewServices := pendingNewServices l; effects := effects l |}.

Definition setStorage (table : Storage) (l : Launcher) : Launcher :=
  {| nodes := nodes l; storage := table; uidPool := uidPool l; network := network l;
     currentDesiredInstances := currentDesiredInstances l;
     currentRunStatus := currentRunStatus l; currentErrorStatus := currentErrorStatus l;
     pendingNewServices := pendingNewServices l; effects := effects l |}.

Definition setUidPool (pool : uidgidpool.IdentifierPool) (l : Launcher) : Launcher :=
  {| nodes := nodes l; storage := storage l; uidPool := pool; network := network l;
     currentDesiredInstances := currentDesiredInstances l;
     currentRunStatus := currentRunStatus l; currentErrorStatus := currentErrorStatus l;
     pendingNewServices := pendingNewServices l; effects := effects l |}.

Definition setNetwork (net : NetState) (l : Launcher) : Launcher :=
  {| nodes := nodes l; storage := storage l; uidPool := uidPool l; network := net;
     currentDesiredInstances := currentDesiredInstances l;
     currentRunStatus := currentRunStatus l; currentErrorStatus := currentErrorStatus l;
     pendingNewServices := pendingNewServices l; effects := effects l |}.

Definition setDesired (desired : list cloudprotocol.InstanceInfo) (l : Launcher) : Launcher :=
  {| nodes := nodes l; storage := storage l; uidPool := uidPool l; network := network l;
     currentDesiredInstances := desired;
     currentRunStatus := currentRunStatus l; currentErrorStatus := currentErrorStatus l;
     pendingNewServices := pendingNewServices l; effects := effects l |}.

Definition setRunStatus (status : list cloudprotocol.InstanceStatus) (l : Launcher) : Launcher :=
  {| nodes := nodes l; storage := storage l; uidPool := uidPool l; network := network l;
     currentDesiredInstances := currentDesiredInstances l;
     currentRunStatus := status; currentErrorStatus := currentErrorStatus l;
     pendingNewServices := pendingNewServices l; effects := effects l |}.

Definition setErrorStatus (status : list cloudprotocol.InstanceStatus) (l : Launcher) : Launcher :=
  {| nodes := nodes l; storage := storage l; uidPool := uidPool l; network := network l;
     currentDesiredInstances := currentDesiredInstances l;
     currentRunStatus := currentRunStatus l; currentErrorStatus := status;
     pendingNewServices := pendingNewServices l; effects := effects l |}.

Definition setPendingNewServices (pending : list string) (l : Launcher) : Launcher :=
  {| nodes := nodes l; storage := storage l; uidPool := uidPool l; network := network l;
     currentDesiredInstances := currentDesiredInstances l;
     currentRunStatus := currentRunStatus l; currentErrorStatus := currentErrorStatus l;
     pendingNewServices := pending; effects := effects l |}.

Definition emit (e : effect) (l : Launcher) : Launcher :=
  {| nodes := nodes l; storage := storage l; uidPool := uidPool l; network := network l;
     currentDesiredInstances := currentDesiredInstances l;
     currentRunStatus := currentRunStatus l; currentErrorStatus := currentErrorStatus l;
     pendingNewServices := pendingNewServices l; effects := effects l ++ [e] |}.

(** [New]: no node is known yet; [fillUIDPool] marks the stored UIDs used. *)
Definition fillUIDPool (table : Storage) : uidgidpool.IdentifierPool :=
  foldl (fun pool instance => (uidgidpool.AddID (UID instance) pool).1)
        uidgidpool.NewUserIDPool table.

Definition New (table : Storage) (net : NetState)
    (desired : list cloudprotocol.InstanceInfo) : Launcher :=
  {| nodes := []; storage := table; uidPool := fillUIDPool table; network := net;
     currentDesiredInstances := desired; currentRunStatus := [];
     currentErrorStatus := []; pendingNewServices := []; effects := [] |}.

(** *** Nodes *)

(** [getNode]: the first node with this id. *)
Fixpoint getNode (ns : list nodeStatus) (nodeID : string) : option nat :=
  match ns with
  | [] => None
  | node :: rest =>
      if String.eqb (NodeID node) nodeID then Some 0
      else option_map S (getNode rest nodeID)
  end.

Definition initNodeUnitConfiguration (env : Env) (node : nodeStatus) (nodeType : string)
    : nodeStatus :=
  let nodeUnitConfig := GetUnitConfiguration env nodeType in
  {| NodeInfo__ := NodeInfo__ node;
     availableResources :=
       map aostypes.ResourceInfo_Name (aostypes.NodeUnitConfig_Resources nodeUnitConfig);
     availableLabels := aostypes.NodeUnitConfig_Labels nodeUnitConfig;
     availableDevices :=
       map (fun device =>
              {| name := aostypes.DeviceInfo_Name device;
                 sharedCount := aostypes.SharedCount device; allocatedCount := 0 |})
           (aostypes.NodeUnitConfig_Devices nodeUnitConfig);
     priority := aostypes.NodeUnitConfig_Priority nodeUnitConfig;
     receivedRunInstances := receivedRunInstances node;
     currentRunRequest := currentRunRequest node;
     waitStatus := waitStatus node |}.

Definition initNodeStatus (env : Env) (nodeID nodeType : string) : result nodeStatus :=
  match GetNodeConfiguration env nodeID with
  | Err err => Err ("can't get node configuration fot nodeID " +:+ nodeID +:+ ": " +:+ err)
  | Ok config =>
      Ok (initNodeUnitConfiguration env
            {| NodeInfo__ := config; availableResources := []; availableLabels := [];
               availableDevices := []; priority := 0; receivedRunInstances := [];
               currentRunRequest := emptyRunRequest; waitStatus := false |} nodeType)
  end.

Definition resetDeviceAllocation (ns : list nodeStatus) : list nodeStatus :=
  map (fun node =>
         withDevices
           (map (fun device => {| name := name device; sharedCount := sharedCount device;
                                  allocatedCount := 0 |}) (availableDevices node)) node) ns.

(** *** Filters over [[]*nodeStatus] *)

Definition getNodeByRunner (ns : list nodeStatus) (allNodes : list nat) (runner : string)
    : list nat :=
  let runner := if String.eqb runner "" then defaultRunner else runner in
  List.filter
    (fun i => match ns !! i with
              | Some node =>
                  (Nat.eqb (length (RunnerFeature (NodeInfo__ node))) 0
                   && bool_decide (runner ∈ defaultRunnerFeatures))
                  || bool_decide (runner ∈ RunnerFeature (NodeInfo__ node))
              | None => false
              end) allNodes.

Definition getNodesByLabels (ns : list nodeStatus) (nodes : list nat)
    (desiredLabels : list string) : list nat :=
  if Nat.eqb (length desiredLabels) 0 then nodes
  else List.filter
         (fun i => match ns !! i with
                   | Some node =>
                       negb (Nat.eqb (length (availableLabels node)) 0)
                       && forallb (fun label => bool_decide (label ∈ availableLabels node))
                                  desiredLabels
                   | None => false
                   end) nodes.

Definition getNodesByResources (ns : list nodeStatus) (nodes : list nat)
    (desiredResources : list string) : list nat :=
  if Nat.eqb (length desiredResources) 0 then nodes
  else List.filter
         (fun i => match ns !! i with
                   | Some node =>
                       negb (Nat.eqb (length (availableResources node)) 0)
                       && forallb (fun resource =>
                                     bool_decide (resource ∈ availableResources node))
                                  desiredResources
                   | None => false
                   end) nodes.

(** [fmt]'s [%v] of a [[]string]. *)
Definition fmtStrings (l : list string) : string := "[" +:+ String.concat " " l +:+ "]".

Definition getNodesByStaticResources (ns : list nodeStatus) (allNodes : list nat)
    (serviceInfo : imagemanager.ServiceInfo) (instanceInfo : cloudprotocol.InstanceInfo)
    : list nat * option string :=
  let config := imagemanager.Config serviceInfo in
  let nodes := getNodeByRunner ns allNodes (aostypes.Runner config) in
  if Nat.eqb (length nodes) 0 then
    (nodes, Some ("no node with runner [" +:+ aostypes.Runner config +:+ "]"))
  else
    let nodes := getNodesByLabels ns nodes (cloudprotocol.Labels instanceInfo) in
    if Nat.eqb (length nodes) 0 then
      (nodes, Some ("no node with labels " +:+ fmtStrings (cloudprotocol.Labels instanceInfo)))
    else
      let nodes := getNodesByResources ns nodes (aostypes.Resources config) in
      if Nat.eqb (length nodes) 0 then
        (nodes, Some ("no node with resources " +:+ fmtStrings (aostypes.Resources config)))
      else (nodes, None).

(** *** Devices *)

(** The inner loop of [nodeHasDesiredDevices]: [true] is [continue
    devicesLoop], [false] is falling out of the loop. *)
Fixpoint hasDesiredDevice (devices : list nodeDevice) (desiredName : string) : bool :=
  match devices with
  | [] => false
  | nodeDevice :: rest =>
      if negb (String.eqb desiredName (name nodeDevice)) then hasDesiredDevice rest desiredName
      else if Z.eqb (sharedCount nodeDevice) 0
              || negb (Z.eqb (allocatedCount nodeDevice) (sharedCount nodeDevice))
           then true
           else hasDesiredDevice rest desiredName
  end.

Definition nodeHasDesiredDevices (node : nodeStatus)
    (desiredDevices : list aostypes.ServiceDevice) : bool :=
  forallb (fun desiredDevice => hasDesiredDevice (availableDevices node)
                                                 (aostypes.Name desiredDevice))
          desiredDevices.

Definition getNodesByDevices (ns : list nodeStatus) (availableNodes : list nat)
    (desiredDevices : list aostypes.ServiceDevice) : list nat * option string :=
  if Nat.eqb (length desiredDevices) 0 then (availableNodes, None)
  else
    let nodes :=
      List.filter (fun i => match ns !! i with
                            | Some node => nodeHasDesiredDevices node desiredDevices
                            | None => false
                            end) availableNodes in
    if Nat.eqb (length nodes) 0 then (nodes, Some "no available device found")
    else (nodes, None).

(** The inner loop of [allocateDevices] for one service device: [None] is
    an error return, [Some] the devices after [continue serviceDeviceLoop]. *)
Fixpoint allocateDevice (devices : list nodeDevice) (serviceDevice : string)
    : option (list nodeDevice) :=
  match devices with
  | [] => None
  | device :: rest =>
      if negb (String.eqb (name device) serviceDevice) then
        option_map (cons device) (allocateDevice rest serviceDevice)
      else if negb (Z.eqb (sharedCount device) 0) then
        if Z.eqb (allocatedCount device) (sharedCount device) then None
        else Some ({| name := name device; sharedCount := sharedCount device;
                      allocatedCount := intWrap (allocatedCount device + 1) |} :: rest)
      else option_map (cons device) (allocateDevice rest serviceDevice)
  end.

(** [allocateDevices]: the devices of the node after the call (counts
    incremented before an error stay incremented) and the error. *)
Fixpoint allocateDevices (devices : list nodeDevice)
    (serviceDevices : list aostypes.ServiceDevice) : list nodeDevice * option string :=
  match serviceDevices with
  | [] => (devices, None)
  | serviceDevice :: rest =>
      match allocateDevice devices (aostypes.Name serviceDevice) with
      | Some devices' => allocateDevices devices' rest
      | None => (devices, Some ("can't allocate device: " +:+ aostypes.Name serviceDevice))
      end
  end.

Fixpoint releaseDevice (devices : list nodeDevice) (serviceDevice : string)
    : option (list nodeDevice) :=
  match devices with
  | [] => None
  | device :: rest =>
      if negb (String.eqb (name device) serviceDevice) then
        option_map (cons device) (releaseDevice rest serviceDevice)
      else if negb (Z.eqb (sharedCount device) 0) then
        if Z.eqb (allocatedCount device) 0 then None
        else Some ({| name := name device; sharedCount := sharedCount device;
                      allocatedCount := intWrap (allocatedCount device - 1) |} :: rest)
      else option_map (cons device) (releaseDevice rest serviceDevice)
  end.

Fixpoint releaseDevices (devices : list nodeDevice)
    (serviceDevices : list aostypes.ServiceDevice) : list nodeDevice * option string :=
  match serviceDevices with
  | [] => (devices, None)
  | serviceDevice :: rest =>
      match releaseDevice devices (aostypes.Name serviceDevice) with
      | Some devices' => releaseDevices devices' rest
      | None => (devices, Some ("can't release device: " +:+ aostypes.Name serviceDevice))
      end
  end.

(** *** Choosing a node *)

Definition freeRAM (env : Env) (node : nodeStatus) : Z :=
  uint64Wrap (cloudprotocol.TotalRAM (NodeInfo_ (NodeInfo__ node))
              - cloudprotocol.RAM (GetNodeMonitoringData env (NodeID node))).

Definition freeCPU (env : Env) (node : nodeStatus) : Z :=
  uint64Wrap (uint64Wrap (cloudprotocol.NumCPUs (NodeInfo_ (NodeInfo__ node)) * 100)
              - cloudprotocol.CPU (GetNodeMonitoringData env (NodeID node))).

(** [getNodeByMonitoringData]: the nodes by descending free CPU when the
    alert is about ["cpu"], by descending free RAM otherwise. *)
Definition getNodeByMonitoringData (env : Env) (ns : list nodeStatus) (nodes : list nat)
    (alertType : string) : list nat :=
  if Nat.eqb (length nodes) 1 then nodes
  else
    let free (f : Env -> nodeStatus -> Z) (i : nat) : Z :=
      match ns !! i with Some node => f env node | None => 0%Z end in
    if String.eqb alertType "cpu" then
      sortSlice (fun a b => Z.ltb (free freeCPU b) (free freeCPU a)) nodes
    else
      sortSlice (fun a b => Z.ltb (free freeRAM b) (free freeRAM a)) nodes.

Definition nodePriority (ns : list nodeStatus) (i : nat) : N :=
  match ns !! i with Some node => priority node | None => 0%N end.

(** The loop of [getMostPriorityNode]. *)
Fixpoint maxNodePriority (ns : list nodeStatus) (best : nat) (rest : list nat) : nat :=
  match rest with
  | [] => best
  | i :: rest' =>
      if N.ltb (nodePriority ns best) (nodePriority ns i) then maxNodePriority ns i rest'
      else maxNodePriority ns best rest'
  end.

(** [getMostPriorityNode]; [None] is the index panic on an empty slice. *)
Definition getMostPriorityNode (ns : list nodeStatus) (nodes : list nat) : option nat :=
  match nodes with
  | [] => None
  | first :: rest => Some (maxNodePriority ns first rest)
  end.

(** [getNodesForRebalancingByNodePriority]: the other nodes whose priority
    is not above that of the node with the issue, and [launcher.nodes] as
    the call leaves it (sorted by ascending priority, then node id). *)
Definition getNodesForRebalancingByNodePriority (ns : list nodeStatus) (nodeID : string)
    : list nodeStatus * list nodeStatus :=
  match getNode ns nodeID with
  | None => ([], ns)
  | Some i =>
      match ns !! i with
      | None => ([], ns)
      | Some nodeWithIssue =>
          (List.filter (fun node =>
                          negb (N.ltb (priority nodeWithIssue) (priority node))
                          && negb (String.eqb (NodeID node) (NodeID nodeWithIssue))) ns,
           sortSlice (fun a b =>
                        if N.eqb (priority a) (priority b)
                        then String.ltb (NodeID a) (NodeID b)
                        else N.ltb (priority a) (priority b)) ns)
      end
  end.

(** *** Run requests *)

Definition addRunRequest (service : imagemanager.ServiceInfo)
    (serviceLayers : list imagemanager.LayerInfo) (instance : aostypes.InstanceInfo)
    (node : nodeStatus) : nodeStatus :=
  let request := currentRunRequest node in
  let remote := RemoteNode (NodeInfo__ node) in
  let serviceInfo :=
    if remote then
      {| aostypes.AosVersion := aostypes.AosVersion (imagemanager.ServiceInfo_ service);
         aostypes.ID := aostypes.ID (imagemanager.ServiceInfo_ service);
         aostypes.ProviderID := aostypes.ProviderID (imagemanager.ServiceInfo_ service);
         aostypes.URL := imagemanager.RemoteURL service;
         aostypes.GID := aostypes.GID (imagemanager.ServiceInfo_ service) |}
    else imagemanager.ServiceInfo_ service in
  let services' :=
    if bool_decide (serviceInfo ∈ services request) then services request
    else services request ++ [serviceInfo] in
  let layers' :=
    foldl (fun acc layer =>
             let newLayer :=
               if remote then
                 {| aostypes.LayerInfo_AosVersion :=
                      aostypes.LayerInfo_AosVersion (imagemanager.LayerInfo_ layer);
                    aostypes.LayerInfo_ID := aostypes.LayerInfo_ID (imagemanager.LayerInfo_ layer);
                    aostypes.Digest := aostypes.Digest (imagemanager.LayerInfo_ layer);
                    aostypes.LayerInfo_URL := imagemanager.LayerInfo_RemoteURL layer |}
               else imagemanager.LayerInfo_ layer in
             if bool_decide (newLayer ∈ acc) then acc else acc ++ [newLayer])
          (layers request) serviceLayers in
  withRunRequest {| services := services'; layers := layers';
                    instances := instances request ++ [instance] |} node.

Definition createInstanceStatusFromInfo (serviceID subjectID : string)
    (instanceIndex serviceVersion : N) (runState errorMsg : string)
    : cloudprotocol.InstanceStatus :=
  {| cloudprotocol.InstanceIdent_ :=
       {| aostypes.ServiceID := serviceID; aostypes.SubjectID := subjectID;
          aostypes.Instance := instanceIndex |};
     cloudprotocol.AosVersion := serviceVersion;
     cloudprotocol.RunState := runState;
     cloudprotocol.NodeID := "";
     cloudprotocol.StateChecksum := "";
     cloudprotocol.ErrorInfo_ :=
       if String.eqb errorMsg "" then None
       else Some {| cloudprotocol.Message := errorMsg |} |}.

Fixpoint getLayersForService (env : Env) (digests : list string)
    : result (list imagemanager.LayerInfo) :=
  match digests with
  | [] => Ok []
  | digest :: rest =>
      match GetLayerInfo env digest with
      | Err err => Err err
      | Ok layer =>
          match getLayersForService env rest with
          | Err err => Err err
          | Ok layers => Ok (layer :: layers)
          end
      end
  end.

(** [getLabelsForInstance]; when no desired instance matches, the error is
    logged and the labels are nil. *)
Definition getLabelsForInstance (desired : list cloudprotocol.InstanceInfo)
    (ident : aostypes.InstanceIdent) : list string :=
  match List.find (fun instance =>
                     String.eqb (cloudprotocol.ServiceID instance) (aostypes.ServiceID ident)
                     && String.eqb (cloudprotocol.SubjectID instance) (aostypes.SubjectID ident))
                  desired with
  | Some instance => cloudprotocol.Labels instance
  | None => []
  end.

(** The instance indexes [0 .. numInstances - 1] of the counting loops. *)
Definition instanceIndexes (numInstances : N) : list N :=
  map N.of_nat (seq 0 (N.to_nat numInstances)).

(** The three nested loops of [removeInstances] and
    [removeInstanceNetworkParameters]: is [ident] one of the desired ones. *)
Definition isDesiredInstance (instances : list cloudprotocol.InstanceInfo)
    (ident : aostypes.InstanceIdent) : bool :=
  existsb (fun instance =>
             existsb (fun instanceIndex =>
                        bool_decide
                          (ident = {| aostypes.ServiceID := cloudprotocol.ServiceID instance;
                                      aostypes.SubjectID := cloudprotocol.SubjectID instance;
                                      aostypes.Instance := instanceIndex |}))
                     (instanceIndexes (cloudprotocol.NumInstances instance)))
          instances.

Definition removeInstances (instances : list cloudprotocol.InstanceInfo) (l : Launcher)
    : Launcher :=
  foldl (fun l storeInstance =>
           if isDesiredInstance instances (InstanceIdent_ storeInstance) then l
           else
             let l := setUidPool (uidgidpool.RemoveID (UID storeInstance) (uidPool l)).1 l in
             setStorage (RemoveInstance (InstanceIdent_ storeInstance) (storage l)) l)
        l (storage l).

Definition removeInstanceNetworkParameters (env : Env)
    (instances : list cloudprotocol.InstanceInfo) (l : Launcher) : Launcher :=
  foldl (fun l netInstance =>
           if isDesiredInstance instances netInstance then l
           else
             match GetServiceInfo env (aostypes.ServiceID netInstance) with
             | Err _ => l
             | Ok serviceInfo =>
                 setNetwork
                   (RemoveInstanceNetworkParameters env (network l) netInstance
                      (aostypes.ProviderID (imagemanager.ServiceInfo_ serviceInfo))) l
             end)
        l (NetworkGetInstances env (network l)).

(** *** Instance start information *)

Definition withUID (uid : Z) (i : aostypes.InstanceInfo) : aostypes.InstanceInfo :=
  {| aostypes.InstanceIdent_ := aostypes.InstanceIdent_ i;
     aostypes.NetworkParameters_ := aostypes.NetworkParameters_ i;
     aostypes.UID := uid; aostypes.Priority := aostypes.Priority i;
     aostypes.StoragePath := aostypes.StoragePath i;
     aostypes.StatePath := aostypes.StatePath i |}.

Definition withPaths (storagePath statePath : string) (i : aostypes.InstanceInfo)
    : aostypes.InstanceInfo :=
  {| aostypes.InstanceIdent_ := aostypes.InstanceIdent_ i;
     aostypes.NetworkParameters_ := aostypes.NetworkParameters_ i;
     aostypes.UID := aostypes.UID i; aostypes.Priority := aostypes.Priority i;
     aostypes.StoragePath := storagePath; aostypes.StatePath := statePath |}.

Definition withNetworkParameters (params : aostypes.NetworkParameters)
    (i : aostypes.InstanceInfo) : aostypes.InstanceInfo :=
  {| aostypes.InstanceIdent_ := aostypes.InstanceIdent_ i;
     aostypes.NetworkParameters_ := params;
     aostypes.UID := aostypes.UID i; aostypes.Priority := aostypes.Priority i;
     aostypes.StoragePath := aostypes.StoragePath i;
     aostypes.StatePath := aostypes.StatePath i |}.

(** The part of [prepareInstanceStartInfo] after the UID is known. *)
Definition setupInstance (env : Env) (service : imagemanager.ServiceInfo)
    (instanceInfo : aostypes.InstanceInfo) (uid : Z) (l : Launcher)
    : Launcher * aostypes.InstanceInfo * option string :=
  let instanceInfo := withUID (uint32Wrap uid) instanceInfo in
  let quotas := aostypes.Quotas (imagemanager.Config service) in
  let stateStorageParams :=
    {| storagestate.InstanceIdent_ := aostypes.InstanceIdent_ instanceInfo;
       storagestate.StorageQuota := default 0%N (aostypes.StorageLimit quotas);
       storagestate.StateQuota := default 0%N (aostypes.StateLimit quotas);
       storagestate.UID := uid;
       storagestate.GID := Z.of_N (aostypes.GID (imagemanager.ServiceInfo_ service)) |} in
  match Setup env stateStorageParams with
  | (storagePath, statePath, Some err) =>
      (setUidPool (uidgidpool.RemoveID uid (uidPool l)).1 l,
       withPaths storagePath statePath instanceInfo, Some err)
  | (storagePath, statePath, None) =>
      (l, withPaths storagePath statePath instanceInfo, None)
  end.

Definition prepareInstanceStartInfo (env : Env) (service : imagemanager.ServiceInfo)
    (instance : cloudprotocol.InstanceInfo) (index : N) (l : Launcher)
    : Launcher * aostypes.InstanceInfo * option string :=
  let ident := {| aostypes.ServiceID := cloudprotocol.ServiceID instance;
                  aostypes.SubjectID := cloudprotocol.SubjectID instance;
                  aostypes.Instance := index |} in
  let instanceInfo :=
    {| aostypes.InstanceIdent_ := ident;
       aostypes.NetworkParameters_ := aostypes.emptyNetworkParameters;
       aostypes.UID := 0; aostypes.Priority := cloudprotocol.Priority instance;
       aostypes.StoragePath := ""; aostypes.StatePath := "" |} in
  match GetInstanceUID ident (storage l) with
  | Ok uid => setupInstance env service instanceInfo uid l
  | Err err =>
      if negb (String.eqb err ErrNotExist) then (l, instanceInfo, Some err)
      else
        match uidgidpool.GetFreeID (uidPool l) with
        | (pool, Err err) => (setUidPool pool l, instanceInfo, Some err)
        | (pool, Ok uid) =>
            let l := setUidPool pool l in
            let l := setStorage
                       (AddInstance {| InstanceIdent_ := ident; UID := uid |} (storage l)) l in
            setupInstance env service instanceInfo uid l
        end
  end.

(** *** Network parameters *)

Definition prepareNetworkParameters (env : Env) (instance : aostypes.InstanceInfo)
    (serviceInfo : imagemanager.ServiceInfo) : networkmanager.NetworkParameters :=
  {| networkmanager.Hosts :=
       match aostypes.Hostname (imagemanager.Config serviceInfo) with
       | Some hostname => [hostname]
       | None => []
       end;
     networkmanager.AllowConnections :=
       rangeAllowedConnections env (aostypes.AllowedConnections (imagemanager.Config serviceInfo));
     networkmanager.ExposePorts := imagemanager.ExposedPorts serviceInfo |}.

(** The body of the inner loop of [prepareNetworkForInstances]: the network
    manager, the error statuses and the instance as the iteration leaves
    them. *)
Definition prepareNetworkForInstance (env : Env) (onlyExposedPorts : bool)
    (net : NetState) (errStatus : list cloudprotocol.InstanceStatus)
    (instance : aostypes.InstanceInfo)
    : NetState * list cloudprotocol.InstanceStatus * aostypes.InstanceInfo :=
  let ident := aostypes.InstanceIdent_ instance in
  match GetServiceInfo env (aostypes.ServiceID ident) with
  | Err err =>
      (net,
       errStatus ++ [createInstanceStatusFromInfo (aostypes.ServiceID ident)
                       (aostypes.SubjectID ident) 0 0 cloudprotocol.InstanceStateFailed err],
       instance)
  | Ok serviceInfo =>
      if onlyExposedPorts && Nat.eqb (length (imagemanager.ExposedPorts serviceInfo)) 0
      then (net, errStatus, instance)
      else
        match PrepareInstanceNetworkParameters env net ident
                (aostypes.ProviderID (imagemanager.ServiceInfo_ serviceInfo))
                (prepareNetworkParameters env instance serviceInfo) with
        | (net', params, err) =>
            (net',
             match err with
             | Some err =>
                 errStatus ++ [createInstanceStatusFromInfo (aostypes.ServiceID ident)
                                 (aostypes.SubjectID ident) (aostypes.Instance ident)
                                 (aostypes.AosVersion (imagemanager.ServiceInfo_ serviceInfo))
                                 cloudprotocol.InstanceStateFailed err]
             | None => errStatus
             end,
             withNetworkParameters params instance)
        end
  end.

Definition prepareNetworkForNode (env : Env) (onlyExposedPorts : bool)
    (net : NetState) (errStatus : list cloudprotocol.InstanceStatus) (node : nodeStatus)
    : NetState * list cloudprotocol.InstanceStatus * nodeStatus :=
  let '(net, errStatus, done) :=
    foldl (fun acc instance =>
             let '(net, errStatus, done) := acc in
             let '(net, errStatus, instance) :=
               prepareNetworkForInstance env onlyExposedPorts net errStatus instance in
             (net, errStatus, done ++ [instance]))
          (net, errStatus, []) (instances (currentRunRequest node)) in
  (net, errStatus, withInstances done node).

Definition prepareNetworkForInstances (env : Env) (onlyExposedPorts : bool) (l : Launcher)
    : Launcher * list cloudprotocol.InstanceStatus :=
  let '(net, errStatus, ns) :=
    foldl (fun acc node =>
             let '(net, errStatus, ns) := acc in
             let '(net, errStatus, node) :=
               prepareNetworkForNode env onlyExposedPorts net errStatus node in
             (net, errStatus, ns ++ [node]))
          (network l, [], []) (nodes l) in
  (setNodes ns (setNetwork net l), errStatus).

(** *** Placement *)

(** One failed status per instance index of a desired entry. *)
Definition failedInstances (instance : cloudprotocol.InstanceInfo) (serviceVersion : N)
    (err : string) : list cloudprotocol.InstanceStatus :=
  map (fun instanceIndex =>
         createInstanceStatusFromInfo (cloudprotocol.ServiceID instance)
           (cloudprotocol.SubjectID instance) instanceIndex serviceVersion
           cloudprotocol.InstanceStateFailed err)
      (instanceIndexes (cloudprotocol.NumInstances instance)).

(** The body of the innermost loop of [performNodeBalancing], for one
    instance index.  After an error of [prepareInstanceStartInfo] the code
    appends a status and goes on. *)
Definition balanceInstance (env : Env) (serviceInfo : imagemanager.ServiceInfo)
    (serviceLayers : list imagemanager.LayerInfo) (staticNodes : list nat)
    (instance : cloudprotocol.InstanceInfo)
    (st : Launcher * list cloudprotocol.InstanceStatus) (instanceIndex : N)
    : Launcher * list cloudprotocol.InstanceStatus :=
  let '(l, errStatus) := st in
  let devices := aostypes.Devices (imagemanager.Config serviceInfo) in
  let failed err :=
    createInstanceStatusFromInfo (cloudprotocol.ServiceID instance)
      (cloudprotocol.SubjectID instance) instanceIndex
      (aostypes.AosVersion (imagemanager.ServiceInfo_ serviceInfo))
      cloudprotocol.InstanceStateFailed err in
  match getNodesByDevices (nodes l) staticNodes devices with
  | (_, Some err) => (l, errStatus ++ [failed err])
  | (nodeForInstance, None) =>
      let '(l, instanceInfo, err) :=
        prepareInstanceStartInfo env serviceInfo instance instanceIndex l in
      let errStatus :=
        match err with Some err => errStatus ++ [failed err] | None => errStatus end in
      match getMostPriorityNode (nodes l) nodeForInstance with
      | None => (l, errStatus)
      | Some i =>
          match nodes l !! i with
          | None => (l, errStatus)
          | Some node =>
              match allocateDevices (availableDevices node) devices with
              | (devices', Some err) =>
                  (setNodes (<[i := withDevices devices' node]> (nodes l)) l,
                   errStatus ++ [failed err])
              | (devices', None) =>
                  (setNodes (<[i := addRunRequest serviceInfo serviceLayers instanceInfo
                                      (withDevices devices' node)]> (nodes l)) l,
                   errStatus)
              end
          end
      end
  end.

(** The body of the loop of [performNodeBalancing] over the desired
    entries. *)
Definition balanceService (env : Env)
    (st : Launcher * list cloudprotocol.InstanceStatus)
    (instance : cloudprotocol.InstanceInfo)
    : Launcher * list cloudprotocol.InstanceStatus :=
  let '(l, errStatus) := st in
  match GetServiceInfo env (cloudprotocol.ServiceID instance) with
  | Err err =>
      (l, errStatus ++ [createInstanceStatusFromInfo (cloudprotocol.ServiceID instance)
                          (cloudprotocol.SubjectID instance) 0 0
                          cloudprotocol.InstanceStateFailed err])
  | Ok serviceInfo =>
      if imagemanager.Cached serviceInfo then
        (l, errStatus ++ [createInstanceStatusFromInfo (cloudprotocol.ServiceID instance)
                            (cloudprotocol.SubjectID instance) 0 0
                            cloudprotocol.InstanceStateFailed "service deleted"])
      else
        let version := aostypes.AosVersion (imagemanager.ServiceInfo_ serviceInfo) in
        match getLayersForService env (imagemanager.Layers serviceInfo) with
        | Err err => (l, errStatus ++ failedInstances instance version err)
        | Ok serviceLayers =>
            match getNodesByStaticResources (nodes l) (seq 0 (length (nodes l)))
                    serviceInfo instance with
            | (_, Some err) => (l, errStatus ++ failedInstances instance version err)
            | (staticNodes, None) =>
                foldl (balanceInstance env serviceInfo serviceLayers staticNodes instance)
                      (l, errStatus)
                      (instanceIndexes (cloudprotocol.NumInstances instance))
            end
        end
  end.

(** The order [sort.Slice] is asked for in [performNodeBalancing]. *)
Definition instanceLess (a b : cloudprotocol.InstanceInfo) : bool :=
  if N.eqb (cloudprotocol.Priority a) (cloudprotocol.Priority b)
  then String.ltb (cloudprotocol.ServiceID a) (cloudprotocol.ServiceID b)
  else N.ltb (cloudprotocol.Priority b) (cloudprotocol.Priority a).

(** [performNodeBalancing].  At each of its call sites the slice it sorts
    in place is [launcher.currentDesiredInstances], so the sorted order is
    stored there. *)
Definition performNodeBalancing (env : Env) (desired : list cloudprotocol.InstanceInfo)
    (l : Launcher) : Launcher * list cloudprotocol.InstanceStatus :=
  let l := setNodes (map (withRunRequest emptyRunRequest) (nodes l)) l in
  let sorted := sortSlice instanceLess desired in
  let l := setDesired sorted l in
  let l := removeInstances sorted l in
  let l := removeInstanceNetworkParameters env sorted l in
  let '(l, errStatus) := foldl (balanceService env) (l, []) sorted in
  let '(l, errNetworkStatus) := prepareNetworkForInstances env true l in
  let errStatus := errStatus ++ errNetworkStatus in
  let '(l, errNetworkStatus) := prepareNetworkForInstances env false l in
  (l, errStatus ++ errNetworkStatus).

(** *** Sending requests and statuses *)

Definition sendRunInstances (env : Env) (forceRestart : bool) (l : Launcher)
    : Launcher * option string :=
  let '(l, err, ns) :=
    foldl (fun acc node =>
             let '(l, err, ns) := acc in
             let node := withWaitStatus true node in
             let l := emit (CallRunInstances (NodeID node) (currentRunRequest node)
                              forceRestart) l in
             let err := match RunInstancesError env (NodeID node), err with
                        | Some runErr, None => Some runErr
                        | _, _ => err
                        end in
             (l, err, ns ++ [node]))
          (l, None, []) (nodes l) in
  (setNodes ns l, err).

(** The entry that [sendCurrentStatus] makes up for an instance of a node
    that has not answered. *)
Definition timeoutStatus (node : nodeStatus) (errInstance : aostypes.InstanceInfo)
    : cloudprotocol.InstanceStatus :=
  {| cloudprotocol.InstanceIdent_ := aostypes.InstanceIdent_ errInstance;
     cloudprotocol.AosVersion := 0;
     cloudprotocol.RunState := cloudprotocol.InstanceStateFailed;
     cloudprotocol.NodeID := NodeID node;
     cloudprotocol.StateChecksum := "";
     cloudprotocol.ErrorInfo_ :=
       Some {| cloudprotocol.Message := "wait run status timeout" |} |}.

Definition withStateChecksum (checksum : string) (status : cloudprotocol.InstanceStatus)
    : cloudprotocol.InstanceStatus :=
  {| cloudprotocol.InstanceIdent_ := cloudprotocol.InstanceIdent_ status;
     cloudprotocol.AosVersion := cloudprotocol.AosVersion status;
     cloudprotocol.RunState := cloudprotocol.RunState status;
     cloudprotocol.NodeID := cloudprotocol.NodeID status;
     cloudprotocol.StateChecksum := checksum;
     cloudprotocol.ErrorInfo_ := cloudprotocol.ErrorInfo_ status |}.

(** First loop of [sendCurrentStatus]: the statuses collected so far and
    the nodes already visited. *)
Definition collectNodeStatus
    (acc : list cloudprotocol.InstanceStatus * list nodeStatus) (node : nodeStatus)
    : list cloudprotocol.InstanceStatus * list nodeStatus :=
  let '(statuses, ns) := acc in
  if waitStatus node then
    (foldl (fun statuses errInstance => statuses ++ [timeoutStatus node errInstance])
           statuses (instances (currentRunRequest node)),
     ns ++ [withWaitStatus false node])
  else (statuses ++ receivedRunInstances node, ns ++ [node]).

(** Second loop: the idents of the entries with an error, and the entries
    with the checksum of the others filled in. *)
Definition fillChecksum (env : Env)
    (acc : list aostypes.InstanceIdent * list cloudprotocol.InstanceStatus)
    (status : cloudprotocol.InstanceStatus)
    : list aostypes.InstanceIdent * list cloudprotocol.InstanceStatus :=
  let '(errorInstances, statuses) := acc in
  match cloudprotocol.ErrorInfo_ status with
  | Some _ => (errorInstances ++ [cloudprotocol.InstanceIdent_ status], statuses ++ [status])
  | None =>
      (errorInstances,
       statuses ++ [withStateChecksum
                      (GetInstanceCheckSum env (cloudprotocol.InstanceIdent_ status)) status])
  end.

(** The loop [newServicesLoop]. *)
Definition checkNewService (env : Env) (statuses : list cloudprotocol.InstanceStatus)
    (acc : Launcher * list cloudprotocol.ServiceStatus) (newService : string)
    : Launcher * list cloudprotocol.ServiceStatus :=
  let '(l, errorServices) := acc in
  if existsb (fun instance =>
                String.eqb (aostypes.ServiceID (cloudprotocol.InstanceIdent_ instance)) newService
                && bool_decide (cloudprotocol.ErrorInfo_ instance = None)) statuses
  then (l, errorServices)
  else
    let errorService :=
      match GetServiceInfo env newService with
      | Err err =>
          {| cloudprotocol.ServiceStatus_ID := newService;
             cloudprotocol.ServiceStatus_AosVersion := 0;
             cloudprotocol.Status := cloudprotocol.ErrorStatus;
             cloudprotocol.ServiceStatus_ErrorInfo := Some {| cloudprotocol.Message := err |} |}
      | Ok service =>
          {| cloudprotocol.ServiceStatus_ID := newService;
             cloudprotocol.ServiceStatus_AosVersion :=
               aostypes.AosVersion (imagemanager.ServiceInfo_ service);
             cloudprotocol.Status := cloudprotocol.ErrorStatus;
             cloudprotocol.ServiceStatus_ErrorInfo :=
               Some {| cloudprotocol.Message := "can't run any instances" |} |}
      end in
    (emit (CallRevertService newService) l, errorServices ++ [errorService]).

(** The idents that [processStoppedInstances] adds for one entry of
    [currentRunStatus]. *)
Definition stoppedInstance (newStatus : list cloudprotocol.InstanceStatus)
    (currentStatus : cloudprotocol.InstanceStatus) : list aostypes.InstanceIdent :=
  let ident := cloudprotocol.InstanceIdent_ currentStatus in
  match List.find (fun new => bool_decide (cloudprotocol.InstanceIdent_ new = ident))
                  newStatus with
  | Some new =>
      if bool_decide (cloudprotocol.ErrorInfo_ new ≠ None)
         && bool_decide (cloudprotocol.ErrorInfo_ currentStatus = None)
      then [ident] else []
  | None => if bool_decide (cloudprotocol.ErrorInfo_ currentStatus = None) then [ident] else []
  end.

Definition processStoppedInstances (newStatus : list cloudprotocol.InstanceStatus)
    (errorInstances : list aostypes.InstanceIdent) (l : Launcher) : Launcher :=
  let stoppedInstances :=
    foldl (fun stopped currentStatus => stopped ++ stoppedInstance newStatus currentStatus)
          errorInstances (currentRunStatus l) in
  foldl (fun l stopIdent => emit (CallCleanup stopIdent) l) l stoppedInstances.

Definition sendCurrentStatus (env : Env) (l : Launcher) : Launcher :=
  let '(statuses, ns) := foldl collectNodeStatus ([], []) (nodes l) in
  let l := setNodes ns l in
  let '(errorInstances, statuses) := foldl (fillChecksum env) ([], []) statuses in
  let '(l, errorServices) :=
    foldl (checkNewService env statuses) (l, []) (pendingNewServices l) in
  let l := setPendingNewServices [] l in
  let l := processStoppedInstances statuses errorInstances l in
  let statuses := statuses ++ currentErrorStatus l in
  let l := emit (SendRunStatus {| UnitSubjects := []; Instances := statuses;
                                  ErrorServices := errorServices |}) l in
  setErrorStatus [] (setRunStatus statuses l).

(** The order [processRunInstanceStatus] keeps [launcher.nodes] in. *)
Definition nodeLess (a b : nodeStatus) : bool :=
  if N.eqb (priority a) (priority b) then String.ltb (NodeID a) (NodeID b)
  else N.ltb (priority b) (priority a).

Definition processRunInstanceStatus (env : Env) (runStatus : NodeRunInstanceStatus)
    (l : Launcher) : Launcher :=
  let nodeID := NodeRunInstanceStatus_NodeID runStatus in
  let received node :=
    withWaitStatus false (withReceived (NodeRunInstanceStatus_Instances runStatus) node) in
  let registered : option Launcher :=
    match getNode (nodes l) nodeID with
    | Some i =>
        match nodes l !! i with
        | Some node => Some (setNodes (<[i := received node]> (nodes l)) l)
        | None => None
        end
    | None =>
        if negb (bool_decide (nodeID ∈ NodeIDs env)) then None
        else
          match initNodeStatus env nodeID (NodeRunInstanceStatus_NodeType runStatus) with
          | Err _ => None
          | Ok node => Some (setNodes (sortSlice nodeLess (nodes l ++ [received node])) l)
          end
    end in
  match registered with
  | None => l
  | Some l =>
      if negb (Nat.eqb (length (nodes l)) (length (NodeIDs env))) then l
      else if existsb waitStatus (nodes l) then l
      else sendCurrentStatus env l
  end.

(** *** Calls *)

Definition RunInstances (env : Env) (desired : list cloudprotocol.InstanceInfo)
    (newServices : list string) (l : Launcher) : Launcher * option string :=
  let l := setNodes (resetDeviceAllocation (nodes l)) l in
  let l := setDesired desired l in
  let l := setPendingNewServices newServices l in
  let '(l, errStatus) := performNodeBalancing env desired l in
  let l := setErrorStatus errStatus l in
  sendRunInstances env false l.

Definition RestartInstances (env : Env) (l : Launcher) : Launcher * option string :=
  let l := setNodes
             (map (fun node =>
                     initNodeUnitConfiguration env node
                       (cloudprotocol.NodeType (NodeInfo_ (NodeInfo__ node)))) (nodes l)) l in
  let '(l, errStatus) := performNodeBalancing env (currentDesiredInstances l) l in
  let l := setErrorStatus errStatus l in
  sendRunInstances env true l.

(** One iteration of the loop of [performRebalancing], for position [i] of
    the run request of the node with the issue (at position [source] of
    [launcher.nodes]): [inr] is [continue], [inl] is the state at [return]. *)
Definition rebalanceInstance (env : Env) (alert : cloudprotocol.SystemQuotaAlert)
    (source i : nat) (l : Launcher) : Launcher + Launcher :=
  match nodes l !! source with
  | None => inr l
  | Some nodeWithIssue =>
      match instances (currentRunRequest nodeWithIssue) !! i with
      | None => inr l
      | Some instance =>
          let ident := aostypes.InstanceIdent_ instance in
          let currentServiceID := aostypes.ServiceID ident in
          match GetServiceInfo env currentServiceID with
          | Err _ => inr l
          | Ok serviceInfo =>
              let labels := getLabelsForInstance (currentDesiredInstances l) ident in
              let devices := aostypes.Devices (imagemanager.Config serviceInfo) in
              let nodesToRebalance :=
                (getNodesByStaticResources (nodes l) (seq 0 (length (nodes l))) serviceInfo
                   {| cloudprotocol.ServiceID := currentServiceID;
                      cloudprotocol.SubjectID := aostypes.SubjectID ident;
                      cloudprotocol.Priority := 0; cloudprotocol.NumInstances := 0;
                      cloudprotocol.Labels := labels |}).1 in
              if Nat.eqb (length nodesToRebalance) 0 then inr l
              else
                let nodesToRebalance :=
                  (getNodesByDevices (nodes l) nodesToRebalance devices).1 in
                if Nat.eqb (length nodesToRebalance) 0 then inr l
                else
                  let nodesToRebalance :=
                    getNodeByMonitoringData env (nodes l) nodesToRebalance
                      (cloudprotocol.Parameter_ alert) in
                  match getLayersForService env (imagemanager.Layers serviceInfo) with
                  | Err _ => inr l
                  | Ok layersForService =>
                      match nodesToRebalance with
                      | [] => inr l
                      | target :: _ =>
                          let ns := alter (addRunRequest serviceInfo layersForService instance)
                                          target (nodes l) in
                          match ns !! source with
                          | None => inr l
                          | Some nodeWithIssue =>
                              match releaseDevices (availableDevices nodeWithIssue) devices with
                              | (devices', Some _) =>
                                  inr (setNodes (<[source := withDevices devices' nodeWithIssue]> ns) l)
                              | (devices', None) =>
                                  let nodeWithIssue := withDevices devices' nodeWithIssue in
                                  let kept :=
                                    take i (instances (currentRunRequest nodeWithIssue))
                                    ++ drop (S i) (instances (currentRunRequest nodeWithIssue)) in
                                  let l := setNodes (<[source := withInstances kept nodeWithIssue]> ns) l in
                                  inl (sendRunInstances env false l).1
                              end
                          end
                      end
                  end
          end
      end
  end.

(** The loop of [performRebalancing] from position [n - 1] down to 0; at
    the end of the loop the code logs that it can't rebalance. *)
Fixpoint rebalanceInstances (env : Env) (alert : cloudprotocol.SystemQuotaAlert)
    (source n : nat) (l : Launcher) : Launcher :=
  match n with
  | 0 => l
  | S i =>
      match rebalanceInstance env alert source i l with
      | inl l' => l'
      | inr l' => rebalanceInstances env alert source i l'
      end
  end.

Definition performRebalancing (env : Env) (alert : cloudprotocol.SystemQuotaAlert)
    (l : Launcher) : Launcher :=
  let '(candidates, sorted) :=
    getNodesForRebalancingByNodePriority (nodes l)
      (cloudprotocol.SystemQuotaAlert_NodeID alert) in
  if Nat.eqb (length candidates) 0 then setNodes sorted l
  else
    let l := setNodes (resetDeviceAllocation sorted) l in
    let '(l, errStatus) := performNodeBalancing env (currentDesiredInstances l) l in
    let l := setErrorStatus errStatus l in
    match getNode (nodes l) (cloudprotocol.SystemQuotaAlert_NodeID alert) with
    | None => l
    | Some source =>
        match nodes l !! source with
        | None => l
        | Some nodeWithIssue =>
            rebalanceInstances env alert source
              (length (instances (currentRunRequest nodeWithIssue))) l
        end
    end.

(** What the launcher is asked to do: the two calls of its interface, a
    message on one of the channels read by [processChannels], or the expiry
    of the connection timer. *)
Inductive request :=
| RunInstancesCall (desired : list cloudprotocol.InstanceInfo) (newServices : list string)
| RestartInstancesCall
| RunStatusMessage (runStatus : NodeRunInstanceStatus)
| AlertMessage (alert : cloudprotocol.SystemQuotaAlert)
| TimerExpired.

Definition handle (env : Env) (r : request) (l : Launcher) : Launcher :=
  match r with
  | RunInstancesCall desired newServices => (RunInstances env desired newServices l).1
  | RestartInstancesCall => (RestartInstances env l).1
  | RunStatusMessage runStatus => processRunInstanceStatus env runStatus l
  | AlertMessage alert => performRebalancing env alert l
  | TimerExpired => sendCurrentStatus env l
  end.

(** A history: each request with the collaborators as they are when it is
    served. *)
Definition serve (l : Launcher) (history : list (Env * request)) : Launcher :=
  foldl (fun l er => handle er.1 er.2 l) l history.

End Launcher.

End launcher.

(** * Scenarios *)

Module GroupDownloaderScenarios.
Import unitstatushandler.

(** An [aoserrors.Wrap] that appends the place of the call. *)
Definition wrapWithPlace (e : string) : string := e +:+ " [groupdownloader.go]".

Definition request3 : gmap string downloader.PackageInfo :=
  list_to_map [("0", {| downloader.URLs := [] |});
               ("1", {| downloader.URLs := ["1"] |});
               ("2", {| downloader.URLs := [] |})].

Definition orders3 : rangeOrders :=
  {| initOrder := ["0"; "1"; "2"]; startOrder := ["1"; "0"; "2"];
     cancelOrder := ["2"; "0"; "1"] |}.

(** All three items are started, "0" completes, then "1" fails and the
    downloader ends "2" with the error of the cancelled context. *)
Definition failingRun : list event :=
  [Start "1" (inr "file1"); Start "0" (inr "file0"); Start "2" (inr "file2");
   Finish "0" None; Finish "1" (Some "download error");
   Finish "2" (Some contextCanceled)].

Definition request1 : gmap string downloader.PackageInfo :=
  list_to_map [("0", {| downloader.URLs := [] |})].

Definition orders1 : rangeOrders :=
  {| initOrder := ["0"]; startOrder := ["0"]; cancelOrder := ["0"] |}.

(** The only item ends with an error whose text is that of a cancelled
    context, while the context of the group is not cancelled. *)
Definition foreignCancelRun : list event :=
  [Start "0" (inr "file0"); Finish "0" (Some contextCanceled)].

End GroupDownloaderScenarios.

Module LauncherScenarios.
Import launcher.

(** Modelled from the spec: the network manager is not among the sources.
    The spec lists the network parameters of an instance as ip, subnet,
    dnsServers, hosts, exposePorts and allowConnections; this one hands out
    consecutive addresses and returns the hosts, ports and connections it is
    given.  Its state is the last address handed out. *)
Definition prepareNetwork (last : N) (ident : aostypes.InstanceIdent) (networkID : string)
    (params : networkmanager.NetworkParameters)
    : N * aostypes.NetworkParameters * option string :=
  ((last + 1)%N,
   {| aostypes.IP := "172.17.0." +:+ pretty (last + 1)%N;
      aostypes.Subnet := "172.17.0.0/16";
      aostypes.DNSServers := ["10.10.0.1"];
      aostypes.Hosts := networkmanager.Hosts params;
      aostypes.ExposePorts := networkmanager.ExposePorts params;
      aostypes.AllowConnections := networkmanager.AllowConnections params |},
   None).

Definition lookupBy {A : Type} (key : A -> string) (l : list A) (k : string) (err : string)
    : result A :=
  match List.find (fun a => String.eqb (key a) k) l with
  | Some a => Ok a
  | None => Err err
  end.

Definition emptyUnitConfig (nodeType : string) : aostypes.NodeUnitConfig :=
  {| aostypes.NodeUnitConfig_NodeType := nodeType; aostypes.NodeUnitConfig_Priority := 0;
     aostypes.NodeUnitConfig_Labels := []; aostypes.NodeUnitConfig_Resources := [];
     aostypes.NodeUnitConfig_Devices := [] |}.

(** Collaborators in the manner of the test doubles of [launcher_test.go]. *)
Definition testEnv (nodeInfos : list NodeInfo) (unitConfigs : list aostypes.NodeUnitConfig)
    (imageServices : list imagemanager.ServiceInfo)
    (monitoring : string -> cloudprotocol.NodeMonitoringData)
    (setupError : aostypes.InstanceIdent -> option string)
    (rangeOrder : gset string -> list string) : Env N :=
  {| NodeIDs := map (fun n => cloudprotocol.NodeInfo_NodeID (NodeInfo_ n)) nodeInfos;
     GetServiceInfo := fun id =>
       lookupBy (fun s => aostypes.ID (imagemanager.ServiceInfo_ s)) imageServices id
                "service does't exist";
     GetLayerInfo := fun _ => Err "layer does't exist";
     GetNodeConfiguration := fun id =>
       lookupBy (fun n => cloudprotocol.NodeInfo_NodeID (NodeInfo_ n)) nodeInfos id
                "node config doesn't exist";
     GetNodeMonitoringData := monitoring;
     RunInstancesError := fun _ => None;
     GetUnitConfiguration := fun nodeType =>
       match List.find (fun c => String.eqb (aostypes.NodeUnitConfig_NodeType c) nodeType)
                       unitConfigs with
       | Some c => c
       | None => emptyUnitConfig nodeType
       end;
     Setup := fun params => ("", "", setupError (storagestate.InstanceIdent_ params));
     GetInstanceCheckSum := fun _ => "magicSum";
     PrepareInstanceNetworkParameters := prepareNetwork;
     RemoveInstanceNetworkParameters := fun net _ _ => net;
     NetworkGetInstances := fun _ => [];
     rangeAllowedConnections := rangeOrder |}.

Definition node (nodeID nodeType : string) (numCPUs : Z) (remote : bool) : NodeInfo :=
  {| NodeInfo_ := {| cloudprotocol.NodeInfo_NodeID := nodeID;
                     cloudprotocol.NodeType := nodeType;
                     cloudprotocol.NumCPUs := numCPUs; cloudprotocol.TotalRAM := 0 |};
     RemoteNode := remote; RunnerFeature := ["runc"; "crun"] |}.

Definition unitConfig (nodeType : string) (priority : N)
    (devices : list (string * Z)) : aostypes.NodeUnitConfig :=
  {| aostypes.NodeUnitConfig_NodeType := nodeType;
     aostypes.NodeUnitConfig_Priority := priority;
     aostypes.NodeUnitConfig_Labels := []; aostypes.NodeUnitConfig_Resources := [];
     aostypes.NodeUnitConfig_Devices :=
       map (fun d => {| aostypes.DeviceInfo_Name := d.1; aostypes.SharedCount := d.2 |})
           devices |}.

Definition service (id : string) (gid : N) (devices : list string)
    (allowed : gset string) : imagemanager.ServiceInfo :=
  {| imagemanager.ServiceInfo_ :=
       {| aostypes.AosVersion := 1; aostypes.ID := id; aostypes.ProviderID := "";
          aostypes.URL := id +:+ "LocalUrl"; aostypes.GID := gid |};
     imagemanager.RemoteURL := id +:+ "RemoteUrl";
     imagemanager.Cached := false;
     imagemanager.Config :=
       {| aostypes.Runner := "runc";
          aostypes.Devices :=
            map (fun d => {| aostypes.Name := d; aostypes.Permissions := "" |}) devices;
          aostypes.Resources := []; aostypes.Hostname := None;
          aostypes.AllowedConnections := allowed;
          aostypes.Quotas := {| aostypes.StateLimit := None; aostypes.StorageLimit := None |} |};
     imagemanager.Layers := [];
     imagemanager.ExposedPorts := [] |}.

Definition desired (serviceID : string) (priority numInstances : N)
    : cloudprotocol.InstanceInfo :=
  {| cloudprotocol.ServiceID := serviceID; cloudprotocol.SubjectID := "subj1";
     cloudprotocol.Priority := priority; cloudprotocol.NumInstances := numInstances;
     cloudprotocol.Labels := [] |}.

Definition connected (nodeID nodeType : string) : request :=
  RunStatusMessage {| NodeRunInstanceStatus_NodeID := nodeID;
                      NodeRunInstanceStatus_NodeType := nodeType;
                      NodeRunInstanceStatus_Instances := [] |}.

Definition noMonitoring (_ : string) : cloudprotocol.NodeMonitoringData :=
  {| cloudprotocol.RAM := 0; cloudprotocol.CPU := 0 |}.

Definition ident (serviceID : string) (index : N) : aostypes.InstanceIdent :=
  {| aostypes.ServiceID := serviceID; aostypes.SubjectID := "subj1";
     aostypes.Instance := index |}.

(** What a history leaves on each node: its id, the idents and UIDs of the
    instances of its run request, and its devices. *)
Definition placement (l : Launcher N)
    : list (string * list (aostypes.InstanceIdent * Z) * list nodeDevice) :=
  map (fun n => (NodeID n,
                 map (fun i => (aostypes.InstanceIdent_ i, aostypes.UID i))
                     (instances (currentRunRequest n)),
                 availableDevices n)) (nodes l).

Definition sortedKeys (s : gset string) : list string := elements s.

(** *** Rebalancing away from a node with a shared device *)

Definition deviceEnv : Env N :=
  testEnv [node "nodeA" "typeA" 1 false; node "nodeB" "typeB" 1 true]
          [unitConfig "typeA" 100 [("commonDevice", 1%Z)];
           unitConfig "typeB" 50 [("commonDevice", 2%Z)]]
          [service "serv" 5000 ["commonDevice"] ∅]
          noMonitoring (fun _ => None) sortedKeys.

Definition deviceConnected : list (Env N * request) :=
  [(deviceEnv, connected "nodeA" "typeA"); (deviceEnv, connected "nodeB" "typeB")].

Definition deviceHistory : list (Env N * request) :=
  deviceConnected ++ [(deviceEnv, RunInstancesCall [desired "serv" 50 1] [])].

Definition cpuAlert (nodeID : string) : request :=
  AlertMessage {| cloudprotocol.SystemQuotaAlert_NodeID := nodeID;
                  cloudprotocol.Parameter_ := "cpu" |}.

Definition alertHistory : list (Env N * request) :=
  deviceHistory ++ [(deviceEnv, cpuAlert "nodeA")].

(** *** A unit configuration with a negative shared count *)



(** *** Rebalancing on a node that has the most free CPU *)

Definition busyMonitoring (nodeID : string) : cloudprotocol.NodeMonitoringData :=
  if String.eqb nodeID "nodeA" then {| cloudprotocol.RAM := 0; cloudprotocol.CPU := 350 |}
  else {| cloudprotocol.RAM := 0; cloudprotocol.CPU := 80 |}.

Definition peerEnv : Env N :=
  testEnv [node "nodeA" "typeA" 4 false; node "nodeB" "typeA" 1 false]
          [unitConfig "typeA" 100 []]
          [service "serv" 5000 [] ∅]
          busyMonitoring (fun _ => None) sortedKeys.

Definition peerHistory : list (Env N * request) :=
  [(peerEnv, connected "nodeA" "typeA"); (peerEnv, connected "nodeB" "typeA");
   (peerEnv, RunInstancesCall [desired "serv" 50 1] [])].

(** *** A storage set-up that fails for one instance *)

Definition setupFailsFor (failing : aostypes.InstanceIdent)
    (i : aostypes.InstanceIdent) : option string :=
  if bool_decide (i = failing) then Some "can't setup storage" else None.

Definition setupEnv : Env N :=
  testEnv [node "nodeA" "typeA" 1 false] [unitConfig "typeA" 100 []]
          [service "serv" 5000 [] ∅]
          noMonitoring (setupFailsFor (ident "serv" 0)) sortedKeys.

Definition setupHistory : list (Env N * request) :=
  [(setupEnv, connected "nodeA" "typeA");
   (setupEnv, RunInstancesCall [desired "serv" 50 2] [])].

(** *** A device with shared count 0 on the node of highest priority *)

Definition zeroEnv : Env N :=
  testEnv [node "nodeA" "typeA" 1 false; node "nodeB" "typeB" 1 false]
          [unitConfig "typeA" 100 [("dev", 0%Z)]; unitConfig "typeB" 50 [("dev", 1%Z)]]
          [service "serv" 5000 ["dev"] ∅]
          noMonitoring (fun _ => None) sortedKeys.

Definition zeroHistory : list (Env N * request) :=
  [(zeroEnv, connected "nodeA" "typeA"); (zeroEnv, connected "nodeB" "typeB");
   (zeroEnv, RunInstancesCall [desired "serv" 50 1] [])].

(** *** A service with two allowed connections *)

Definition allowEnv (rangeOrder : gset string -> list string) : Env N :=
  testEnv [node "nodeA" "typeA" 1 false] [unitConfig "typeA" 100 []]
          [service "serv" 5000 [] {["serv2/8080"; "serv3/9000"]}]
          noMonitoring (fun _ => None) rangeOrder.

Definition reversedKeys (s : gset string) : list string := rev (elements s).

(** *** A service with one allowed connection *)

Definition singleEnv : Env N :=
  testEnv [node "nodeA" "typeA" 1 false] [unitConfig "typeA" 100 []]
          [service "serv" 5000 [] {["serv2/8080"]}]
          noMonitoring (fun _ => None) sortedKeys.

Definition allowHistory (rangeOrder : gset string -> list string)
    : list (Env N * request) :=
  [(allowEnv rangeOrder, connected "nodeA" "typeA");
   (allowEnv rangeOrder, RunInstancesCall [desired "serv" 50 1] [])].

(** The run requests that a history has sent, oldest first. *)
Definition sentRequests (l : Launcher N) : list (string * runRequestInfo) :=
  omap (fun e => match e with
                 | CallRunInstances nodeID request _ => Some (nodeID, request)
                 | _ => None
                 end) (effects l).

(** *** A reply that comes after the connection timer *)





End LauncherScenarios.

(** * Group downloader: the properties stated *)

Module GroupDownloaderProps.
Import unitstatushandler.

Definition failed (evs : list event) (id e : string) : Prop :=
  Start id (inl e) ∈ evs ∨ Finish id (Some e) ∈ evs.

Definition completed (evs : list event) (id : string) : Prop :=
  Finish id None ∈ evs.

Definition validOrder (keys : gset string) (order : list string) : Prop :=
  NoDup order ∧ list_to_set order = keys.

Definition validOrders (keys : gset string) (o : rangeOrders) : Prop :=
  validOrder keys (initOrder o) ∧ validOrder keys (startOrder o)
  ∧ validOrder keys (cancelOrder o).

Definition downloading : DownloadStatus * string := (DownloadingStatus, "").

Definition downloaded : DownloadStatus * string := (DownloadedStatus, "").

Section Recorded.

Variable wrapError : string -> string.
Variable continueOnError : bool.

(** What the entry and the notifications of [id] are, given what has
    happened to [id] so far. *)
Definition recorded (hist : list event) (s : state) (id : string) : Prop :=
  exists r, result s !! id = Some r /\
    (forall e, failed hist id e ->
       if isCancelError (wrapError e)
       then Error r = "" /\ statuses s id = [downloading]
       else Error r = wrapError e
            /\ statuses s id = [downloading; (ErrorStatus, wrapError e)]) /\
    (completed hist id -> Error r = "" /\ statuses s id = [downloading; downloaded]) /\
    ((forall e, ~ failed hist id e) -> ~ completed hist id ->
       Error r = "" /\ statuses s id = [downloading]).

Record inv (keys : gset string) (hist : list event) (s : state) : Prop := {
  inv_dom : dom (result s) = keys;
  inv_nodup : NoDup (queue s ++ waiting s);
  inv_pending : forall id, id ∈ queue s ++ waiting s ->
      id ∈ keys /\ (forall e, ~ failed hist id e) /\ ~ completed hist id;
  inv_events : forall id, (exists e, failed hist id e) \/ completed hist id -> id ∈ keys;
  inv_recorded : forall id, id ∈ keys -> recorded hist s id;
  inv_cancel : continueOnError = false -> (exists id e, failed hist id e) ->
      canceled s = true;
}.

End Recorded.

(** The notifications of one id are [downloading] and then one other
    status. *)
Definition oneTerminalStatus (l : list (DownloadStatus * string)) : Prop :=
  exists st e, l = [downloading; (st, e)] /\ (st = DownloadedStatus \/ st = ErrorStatus).

End GroupDownloaderProps.

(** * Launcher: the properties stated *)

Module LauncherProps.
Import launcher.

(** A count of a device is between 0 and the shared count, which is a
    non-negative [int]. *)
Definition deviceInv (d : nodeDevice) : Prop :=
  (0 <= allocatedCount d <= sharedCount d)%Z /\ (sharedCount d < 2 ^ 63)%Z.



(** How one count moves in an allocation. *)
Definition grows (d d' : nodeDevice) : Prop :=
  name d' = name d /\ sharedCount d' = sharedCount d
  /\ (allocatedCount d <= allocatedCount d' <= sharedCount d)%Z.


(** The name and the shared count of a device. *)
Definition deviceKey (d : nodeDevice) : string * Z := (name d, sharedCount d).

(** A device of this name can take one more allocation. *)
Definition available (devices : list nodeDevice) (deviceName : string) : Prop :=
  exists d, d ∈ devices /\ name d = deviceName /\ sharedCount d ≠ 0%Z
            /\ allocatedCount d ≠ sharedCount d.


(** What the first loop collects for one node. *)
Definition collected (node : nodeStatus) : list cloudprotocol.InstanceStatus :=
  if waitStatus node then map (timeoutStatus node) (instances (currentRunRequest node))
  else receivedRunInstances node.

(** A [range] visits every key of the map once. *)
Definition validRange (rangeOrder : gset string -> list string) : Prop :=
  forall s, rangeOrder s ≡ₚ elements s.

Section Launcher.

Context {NetState : Type}.
Implicit Types (env : Env NetState) (l : Launcher NetState).


(** A status reported by a node, as it is sent on: with the state checksum
    filled in when it carries no error. *)
Definition reported env (status : cloudprotocol.InstanceStatus)
    : cloudprotocol.InstanceStatus :=
  match cloudprotocol.ErrorInfo_ status with
  | Some _ => status
  | None =>
      withStateChecksum (GetInstanceCheckSum env (cloudprotocol.InstanceIdent_ status)) status
  end.

(** The entries of one node in a run status. *)
Definition nodeEntries env (node : nodeStatus) : list cloudprotocol.InstanceStatus :=
  if waitStatus node then
    map (fun instance =>
           {| cloudprotocol.InstanceIdent_ := aostypes.InstanceIdent_ instance;
              cloudprotocol.AosVersion := 0;
              cloudprotocol.RunState := "failed";
              cloudprotocol.NodeID := NodeID node;
              cloudprotocol.StateChecksum := "";
              cloudprotocol.ErrorInfo_ :=
                Some {| cloudprotocol.Message := "wait run status timeout" |} |})
        (instances (currentRunRequest node))
  else map (reported env) (receivedRunInstances node).








(** The same collaborators with another order of iteration over
    [AllowedConnections]. *)
Definition withRangeOrder (rangeOrder : gset string -> list string) env : Env NetState :=
  {| NodeIDs := NodeIDs env;
     GetServiceInfo := GetServiceInfo env;
     GetLayerInfo := GetLayerInfo env;
     GetNodeConfiguration := GetNodeConfiguration env;
     GetNodeMonitoringData := GetNodeMonitoringData env;
     RunInstancesError := RunInstancesError env;
     GetUnitConfiguration := GetUnitConfiguration env;
     Setup := Setup env;
     GetInstanceCheckSum := GetInstanceCheckSum env;
     PrepareInstanceNetworkParameters := PrepareInstanceNetworkParameters env;
     RemoveInstanceNetworkParameters := RemoveInstanceNetworkParameters env;
     NetworkGetInstances := NetworkGetInstances env;
     rangeAllowedConnections := rangeOrder |}.

(** No service has more than one allowed connection. *)
Definition singleConnection env : Prop :=
  forall id info, GetServiceInfo env id = Ok info ->
    size (aostypes.AllowedConnections (imagemanager.Config info)) <= 1.

End Launcher.

End LauncherProps.

(** * Group downloader: file names and complete runs *)

Module DownloadProps.
Import unitstatushandler GroupDownloaderProps.

(** [Download] has answered the id with a file name. *)
Definition started (evs : list event) (id fileName : string) : Prop :=
  Start id (inr fileName) ∈ evs.

(** The [FileName] of the entry of [id]. *)
Definition fileNameOf (s : state) (id : string) : option string :=
  FileName <$> result s !! id.

(** The file names in the entries are those that [Download] has given, and
    the ids the start loop has still to visit have none. *)
Record fileInv (hist : list event) (s : state) : Prop := {
  file_nodup : NoDup (queue s);
  file_dom : forall id, id ∈ queue s -> id ∈ dom (result s);
  file_queue : forall id f, id ∈ queue s -> ~ started hist id f;
  file_given : forall id f, started hist id f -> fileNameOf s id = Some f;
  file_empty : forall id, id ∈ dom (result s) -> (forall f, ~ started hist id f) ->
      fileNameOf s id = Some "";
}.

(** What [Download] and [Wait] answer for an id. *)
Definition answers : Type := string -> (string + string) * option string.

(** A run in which each goroutine returns before the next [Download]. *)
Fixpoint sequentialRun (continueOnError : bool) (answer : answers) (ids : list string)
    : list event :=
  match ids with
  | [] => []
  | id :: rest =>
      match (answer id).1 with
      | inl err =>
          Start id (inl err)
          :: (if continueOnError then sequentialRun continueOnError answer rest else [])
      | inr fileName =>
          Start id (inr fileName) :: Finish id (answer id).2
          :: sequentialRun continueOnError answer rest
      end
  end.

(** The entries of a result map in some order of iteration. *)
Definition entriesOf (items : list downloadResult) (s : state) : Prop :=
  items ≡ₚ (map_to_list (result s)).*2.

End DownloadProps.

(** * Launcher: what a placement pass keeps and what it orders *)

Module PlacementProps.
Import launcher LauncherProps.

(** Every element is related to the next one. *)
Fixpoint chain {A : Type} (R : A -> A -> Prop) (l : list A) : Prop :=
  match l with
  | a :: (b :: _) as rest => R a b /\ chain R rest
  | _ => True
  end.

(** No element of the slice is [less] than the one before it. *)
Definition ordered {A : Type} (less : A -> A -> bool) (l : list A) : Prop :=
  chain (fun a b => less b a = false) l.

(** A [less] that never holds both ways. *)
Definition asymmetric {A : Type} (less : A -> A -> bool) : Prop :=
  forall a b, less a b = true -> less b a = false.

(** Descending priority, and ascending service id among equal priorities. *)
Definition instanceOrder (a b : cloudprotocol.InstanceInfo) : Prop :=
  (cloudprotocol.Priority b < cloudprotocol.Priority a)%N
  \/ (cloudprotocol.Priority a = cloudprotocol.Priority b
      /\ String.ltb (cloudprotocol.ServiceID b) (cloudprotocol.ServiceID a) = false).

(** What of a node a placement pass does not write: everything but the
    allocated counts and the run request. *)
Definition nodeFrame (node : nodeStatus) :=
  (NodeInfo__ node, availableResources node, availableLabels node,
   map deviceKey (availableDevices node), priority node, receivedRunInstances node,
   waitStatus node).

(** The node can run a service that asks for [runner]. *)
Definition supportsRunner (node : nodeStatus) (runner : string) : Prop :=
  let runner := if String.eqb runner "" then defaultRunner else runner in
  (RunnerFeature (NodeInfo__ node) = [] /\ runner ∈ defaultRunnerFeatures)
  \/ runner ∈ RunnerFeature (NodeInfo__ node).


(** The node has each of the devices with a shared count of 0 or with an
    allocation left. *)
Definition hasDevices (node : nodeStatus) (devices : list aostypes.ServiceDevice) : Prop :=
  forall sd, sd ∈ devices ->
    exists d, d ∈ availableDevices node /\ name d = aostypes.Name sd
              /\ (sharedCount d = 0%Z \/ allocatedCount d ≠ sharedCount d).

(** Ascending priority, and ascending node id among equal priorities. *)
Definition rebalancingOrder (a b : nodeStatus) : Prop :=
  (priority a < priority b)%N
  \/ (priority a = priority b /\ String.ltb (NodeID b) (NodeID a) = false).

(** The ident of an instance of a desired entry. *)
Definition identOf (instance : cloudprotocol.InstanceInfo) (index : N)
    : aostypes.InstanceIdent :=
  {| aostypes.ServiceID := cloudprotocol.ServiceID instance;
     aostypes.SubjectID := cloudprotocol.SubjectID instance;
     aostypes.Instance := index |}.

(** The idents that a list of desired entries asks for. *)
Definition desiredIdents (desired : list cloudprotocol.InstanceInfo)
    : list aostypes.InstanceIdent :=
  flat_map (fun instance =>
              map (identOf instance) (instanceIndexes (cloudprotocol.NumInstances instance)))
           desired.

(** The idents in the run request of a node, and in those of all nodes. *)
Definition placedOn (node : nodeStatus) : list aostypes.InstanceIdent :=
  map aostypes.InstanceIdent_ (instances (currentRunRequest node)).

Definition placed (ns : list nodeStatus) : list aostypes.InstanceIdent :=
  flat_map placedOn ns.

(** A failed status for the service and the subject of a desired entry. *)
Definition failedFor (instance : cloudprotocol.InstanceInfo)
    (status : cloudprotocol.InstanceStatus) : Prop :=
  cloudprotocol.RunState status = cloudprotocol.InstanceStateFailed
  /\ aostypes.ServiceID (cloudprotocol.InstanceIdent_ status)
     = cloudprotocol.ServiceID instance
  /\ aostypes.SubjectID (cloudprotocol.InstanceIdent_ status)
     = cloudprotocol.SubjectID instance.

(** An instance of a desired entry is in a run request or has a failed
    status. *)
Definition covered (ns : list nodeStatus) (errStatus : list cloudprotocol.InstanceStatus)
    (instance : cloudprotocol.InstanceInfo) (index : N) : Prop :=
  identOf instance index ∈ placed ns \/ exists status, status ∈ errStatus /\ failedFor instance status.

(** The ident and the UID of an instance of a run request. *)
Definition instanceKey (info : aostypes.InstanceInfo) : aostypes.InstanceIdent * Z :=
  (aostypes.InstanceIdent_ info, aostypes.UID info).

Definition instanceKeys (ns : list nodeStatus) : list (list (aostypes.InstanceIdent * Z)) :=
  map (fun node => map instanceKey (instances (currentRunRequest node))) ns.

(** An instance whose ident is in the table has the UID of the table,
    converted to [uint32]. *)
Definition keepsUID (table : Storage) (key : aostypes.InstanceIdent * Z) : Prop :=
  forall uid, GetInstanceUID key.1 table = Ok uid -> key.2 = uint32Wrap uid.

Definition uidsFrom (table : Storage) (ns : list nodeStatus) : Prop :=
  Forall (Forall (keepsUID table)) (instanceKeys ns).

(** The stored instances that are not desired. *)
Definition staleInstances (desired : list cloudprotocol.InstanceInfo) (table : Storage)
    : list InstanceInfo :=
  List.filter (fun i => negb (isDesiredInstance desired (InstanceIdent_ i))) table.

(** A run request lists no service and no layer twice. *)
Definition listsOnce (node : nodeStatus) : Prop :=
  NoDup (services (currentRunRequest node)) /\ NoDup (layers (currentRunRequest node)).

(** The request sent to a node. *)
Definition runRequestOf (forceRestart : bool) (node : nodeStatus) : effect :=
  CallRunInstances (NodeID node) (currentRunRequest node) forceRestart.

Section Launcher.

Context {NetState : Type}.
Implicit Types (env : Env NetState) (l : Launcher NetState).

(** What of the launcher a placement pass does not write. *)
Definition callState l :=
  (pendingNewServices l, currentRunStatus l, currentErrorStatus l, effects l).

(** What the steps of a placement pass leave as it is. *)
Definition passFrame l l' : Prop :=
  callState l' = callState l
  /\ currentDesiredInstances l' = currentDesiredInstances l
  /\ map nodeFrame (nodes l') = map nodeFrame (nodes l).

(** The fields that sending run requests does not write. *)
Definition storedState l :=
  (storage l, uidPool l, network l, currentDesiredInstances l, currentRunStatus l,
   currentErrorStatus l, pendingNewServices l).

(** The free CPU (for a ["cpu"] alert) or the free RAM of the node at a
    position of [launcher.nodes]. *)
Definition freeOf env (ns : list nodeStatus) (alertType : string) (i : nat) : Z :=
  match ns !! i with
  | Some node => if String.eqb alertType "cpu" then freeCPU env node else freeRAM env node
  | None => 0%Z
  end.

(** Everything but the effects. *)
Definition silentState l :=
  (nodes l, storage l, uidPool l, network l, currentDesiredInstances l, currentRunStatus l,
   currentErrorStatus l, pendingNewServices l).

(** A new service has an instance without error among the statuses. *)
Definition runsService (statuses : list cloudprotocol.InstanceStatus)
    (newService : string) : bool :=
  existsb (fun instance =>
             String.eqb (aostypes.ServiceID (cloudprotocol.InstanceIdent_ instance)) newService
             && bool_decide (cloudprotocol.ErrorInfo_ instance = None)) statuses.

(** The new services none of whose instances runs. *)
Definition failedServices (statuses : list cloudprotocol.InstanceStatus)
    (pending : list string) : list string :=
  List.filter (fun newService => negb (runsService statuses newService)) pending.

(** The status that is sent for a new service that does not run. *)
Definition errorServiceOf env (newService : string) : cloudprotocol.ServiceStatus :=
  match GetServiceInfo env newService with
  | Err err =>
      {| cloudprotocol.ServiceStatus_ID := newService;
         cloudprotocol.ServiceStatus_AosVersion := 0;
         cloudprotocol.Status := cloudprotocol.ErrorStatus;
         cloudprotocol.ServiceStatus_ErrorInfo := Some {| cloudprotocol.Message := err |} |}
  | Ok service =>
      {| cloudprotocol.ServiceStatus_ID := newService;
         cloudprotocol.ServiceStatus_AosVersion :=
           aostypes.AosVersion (imagemanager.ServiceInfo_ service);
         cloudprotocol.Status := cloudprotocol.ErrorStatus;
         cloudprotocol.ServiceStatus_ErrorInfo :=
           Some {| cloudprotocol.Message := "can't run any instances" |} |}
  end.

(** The idents of the statuses that carry an error. *)
Definition errorIdents (statuses : list cloudprotocol.InstanceStatus)
    : list aostypes.InstanceIdent :=
  map cloudprotocol.InstanceIdent_
      (List.filter (fun status => bool_decide (cloudprotocol.ErrorInfo_ status ≠ None))
                   statuses).

(** No run request, in the nodes or among those sent, lists a service or a
    layer twice. *)
Definition listsOnceInv l : Prop :=
  Forall listsOnce (nodes l)
  /\ forall nodeID request forceRestart,
       CallRunInstances nodeID request forceRestart ∈ effects l ->
       NoDup (services request) /\ NoDup (layers request).

(** The node has the priority, the labels, the resources and the devices
    that the unit configuration gives for its node type. *)
Definition configured env (node : nodeStatus) : Prop :=
  let unitConfig :=
    GetUnitConfiguration env (cloudprotocol.NodeType (NodeInfo_ (NodeInfo__ node))) in
  priority node = aostypes.NodeUnitConfig_Priority unitConfig
  /\ availableLabels node = aostypes.NodeUnitConfig_Labels unitConfig
  /\ availableResources node
     = map aostypes.ResourceInfo_Name (aostypes.NodeUnitConfig_Resources unitConfig)
  /\ map deviceKey (availableDevices node)
     = map (fun device => (aostypes.DeviceInfo_Name device, aostypes.SharedCount device))
           (aostypes.NodeUnitConfig_Devices unitConfig).

(** The node manager answers for a node id with the information of the node
    that has this id. *)
Definition answersForNode env : Prop :=
  forall nodeID config,
    GetNodeConfiguration env nodeID = Ok config ->
    cloudprotocol.NodeInfo_NodeID (NodeInfo_ config) = nodeID.

(** The first error among the answers of the nodes. *)
Definition firstRunError env (ns : list nodeStatus) : option string :=
  head (omap (fun node => RunInstancesError env (NodeID node)) ns).

End Launcher.

End PlacementProps.

(** * Group downloader: proofs *)

Module GroupDownloaderSpec.
Import unitstatushandler GroupDownloaderProps.

Lemma statuses_updateStatus id st e s id' :
  statuses (updateStatus id st e s) id'
  = statuses s id' ++ (if decide (id = id') then [(st, e)] else []).
Proof.
  unfold statuses, updateStatus; simpl. rewrite omap_app. simpl.
  destruct (decide (id = id')); reflexivity.
Qed.

Lemma lookup_setError id e s id' :
  result (setError id e s) !! id'
  = if decide (id = id')
    then (fun r => {| FileName := FileName r; Error := e |}) <$> result s !! id'
    else result s !! id'.
Proof.
  unfold setError; simpl. destruct (decide (id = id')) as [->|Hne].
  - apply lookup_alter_eq.
  - by apply lookup_alter_ne.
Qed.

Lemma lookup_setFileName id f s id' :
  result (setFileName id f s) !! id'
  = if decide (id = id')
    then (fun r => {| FileName := f; Error := Error r |}) <$> result s !! id'
    else result s !! id'.
Proof.
  unfold setFileName; simpl. destruct (decide (id = id')) as [->|Hne].
  - apply lookup_alter_eq.
  - by apply lookup_alter_ne.
Qed.

Section Proofs.

Variable wrapError : string -> string.
Variable continueOnError : bool.
Hypothesis wrap_nonempty : forall e, wrapError e ≠ "".

Abbreviation handleError := (handleError wrapError continueOnError).
Abbreviation step := (step wrapError continueOnError).
Abbreviation exec := (exec wrapError continueOnError).
Abbreviation recorded := (recorded wrapError).
Abbreviation inv := (inv wrapError continueOnError).

Lemma failed_snoc_other hist ev id e :
  (forall e', ev ≠ Start id (inl e')) -> (forall e', ev ≠ Finish id (Some e')) ->
  failed (hist ++ [ev]) id e <-> failed hist id e.
Proof.
  intros H1 H2. unfold failed. rewrite !elem_of_app, !list_elem_of_singleton.
  split; [|tauto]. intros [[?|?]|[?|?]]; subst; try tauto.
  - by destruct (H1 e).
  - by destruct (H2 e).
Qed.

Lemma completed_snoc_other hist ev id :
  ev ≠ Finish id None ->
  completed (hist ++ [ev]) id <-> completed hist id.
Proof.
  intros H2. unfold completed. rewrite elem_of_app, list_elem_of_singleton.
  split; [|tauto]. intros [?|?]; subst; tauto.
Qed.

Ltac other_event := intros; congruence.

(** An event that is not about [id] and a state change that leaves the
    entry and the notifications of [id] alone keep [recorded]. *)
Lemma recorded_frame hist ev s s' id :
  (forall e', ev ≠ Start id (inl e')) -> (forall e', ev ≠ Finish id (Some e')) ->
  ev ≠ Finish id None ->
  result s' !! id = result s !! id -> statuses s' id = statuses s id ->
  recorded hist s id -> recorded (hist ++ [ev]) s' id.
Proof.
  intros H1 H2 H3 Hr Hs (r & Hl & Hf & Hc & Hu). exists r. rewrite Hr, Hs.
  split; [done|]. split; [|split].
  - intros e He. apply Hf. by apply (failed_snoc_other hist ev).
  - intros Hc'. apply Hc. by apply (completed_snoc_other hist ev).
  - intros Hnf Hnc. apply Hu.
    + intros e He. apply (Hnf e). by apply failed_snoc_other.
    + intros Hc'. apply Hnc. by apply completed_snoc_other.
Qed.

Lemma handleError_result_other id err s id' :
  id ≠ id' -> result (handleError id err s) !! id' = result s !! id'.
Proof.
  intros Hne. unfold unitstatushandler.handleError.
  destruct (isCancelError _), continueOnError; simpl; try done;
    by rewrite lookup_alter_ne.
Qed.

Lemma handleError_statuses_other id err s id' :
  id ≠ id' -> statuses (handleError id err s) id' = statuses s id'.
Proof.
  intros Hne. unfold unitstatushandler.handleError.
  assert (Hu : statuses (updateStatus id ErrorStatus (wrapError err)
                 (setError id (wrapError err) s)) id' = statuses s id').
  { rewrite statuses_updateStatus. destruct (decide (id = id')); [done|].
    by rewrite app_nil_r. }
  destruct (isCancelError _), continueOnError; simpl; try done.
Qed.

Lemma handleError_dom id err s :
  dom (result (handleError id err s)) = dom (result s).
Proof.
  unfold unitstatushandler.handleError.
  destruct (isCancelError _), continueOnError; simpl; try done;
    by rewrite dom_alter_L.
Qed.

Lemma handleError_canceled id err s :
  continueOnError = false -> canceled (handleError id err s) = true.
Proof. intros ->. unfold unitstatushandler.handleError. by destruct (isCancelError _). Qed.

Lemma handleError_canceled_mono id err s :
  canceled s = true -> canceled (handleError id err s) = true.
Proof.
  unfold unitstatushandler.handleError.
  destruct (isCancelError _), continueOnError; simpl; done.
Qed.

Lemma handleError_queue id err s : queue (handleError id err s) = queue s.
Proof.
  unfold unitstatushandler.handleError.
  destruct (isCancelError _), continueOnError; simpl; done.
Qed.

Lemma handleError_waiting id err s : waiting (handleError id err s) = waiting s.
Proof.
  unfold unitstatushandler.handleError.
  destruct (isCancelError _), continueOnError; simpl; done.
Qed.

(** The entry of an item that ends with an error, not touched before. *)
Lemma handleError_recorded hist ev id err s :
  (ev = Start id (inl err) \/ ev = Finish id (Some err)) ->
  (forall e, ~ failed hist id e) -> ~ completed hist id ->
  recorded hist s id -> recorded (hist ++ [ev]) (handleError id err s) id.
Proof.
  intros Hev Hnf Hnc (r & Hl & _ & _ & Hu). destruct (Hu Hnf Hnc) as [HE HS].
  assert (Hfail : forall e, failed (hist ++ [ev]) id e -> e = err).
  { intros e [He|He]; apply elem_of_app in He as [He|He];
      try (exfalso; apply (Hnf e); unfold failed; tauto);
      apply list_elem_of_singleton in He; destruct Hev; congruence. }
  assert (Hcomp : ~ completed (hist ++ [ev]) id).
  { intros He. apply elem_of_app in He as [He|He]; [done|].
    apply list_elem_of_singleton in He. destruct Hev; congruence. }
  assert (Hnow : failed (hist ++ [ev]) id err).
  { unfold failed. rewrite !elem_of_app, !list_elem_of_singleton.
    destruct Hev; subst; tauto. }
  unfold unitstatushandler.handleError.
  destruct (isCancelError (wrapError err)) eqn:Hc.
  - exists r. split.
    { by destruct continueOnError. }
    split; [|split].
    + intros e He. rewrite (Hfail e He), Hc. by destruct continueOnError.
    + done.
    + intros Hnf'. by destruct (Hnf' err).
  - exists {| FileName := FileName r; Error := wrapError err |}. split.
    { destruct continueOnError; simpl; by rewrite lookup_alter_eq, Hl. }
    split; [|split].
    + intros e He. rewrite (Hfail e He), Hc. simpl. split; [done|].
      assert (Hu' : statuses (updateStatus id ErrorStatus (wrapError err)
                  (setError id (wrapError err) s)) id
                = [downloading; (ErrorStatus, wrapError err)]).
      { rewrite statuses_updateStatus. destruct (decide (id = id)); [|done].
        unfold statuses in *; simpl. by rewrite HS. }
      by destruct continueOnError.
    + done.
    + intros Hnf'. by destruct (Hnf' err).
Qed.

Lemma step_inv keys hist ev s s' :
  inv keys hist s -> step ev s = Some s' -> inv keys (hist ++ [ev]) s'.
Proof.
  intros [Hdom Hnd Hpend Hev Hrec Hcan] Hstep.
  destruct ev as [id r|id r|]; simpl in Hstep.
  - (* Start *)
    destruct (queue s) as [|next rest] eqn:Hq; [done|].
    destruct (decide (id = next)) as [<-|]; [|done].
    assert (Hid : id ∈ (id :: rest) ++ waiting s) by set_solver.
    destruct (Hpend id Hid) as (Hk & Hnf & Hnc).
    simpl in Hnd. apply NoDup_cons in Hnd as [Hnotin Hnd].
    destruct r as [err|fileName]; injection Hstep as <-.
    + (* Download fails *)
      split; simpl.
      * by rewrite handleError_dom.
      * rewrite handleError_waiting. destruct continueOnError; [done|].
        simpl. by apply NoDup_app in Hnd as (_ & _ & ?).
      * rewrite handleError_waiting. intros id' Hin.
        assert (Hin' : id' ∈ rest ++ waiting s).
        { destruct continueOnError; [done|]. set_solver. }
        assert (id ≠ id') by (intros ->; done).
        destruct (Hpend id') as (? & Hnf' & Hnc'); [set_solver|].
        split; [done|]. split.
        -- intros e He. apply (Hnf' e). eapply failed_snoc_other; [| |exact He]; other_event.
        -- intros He. apply Hnc'. eapply completed_snoc_other; [|exact He]; other_event.
      * intros id' [[e He]|He].
        -- destruct (decide (id = id')) as [<-|Hne]; [done|].
           apply Hev. left. exists e.
           eapply failed_snoc_other; [| |exact He]; other_event.
        -- apply Hev. right. eapply completed_snoc_other; [|exact He]; other_event.
      * intros id' Hk'. destruct (decide (id = id')) as [<-|Hne].
        -- destruct (handleError_recorded hist (Start id (inl err)) id err s)
             as (r & Hl & Hr); auto.
           exists r. split; [|exact Hr]. exact Hl.
        -- eapply (recorded_frame hist _ s); try other_event; auto.
           ++ by apply handleError_result_other.
           ++ unfold statuses; simpl. by apply handleError_statuses_other.
      * intros Hc _. by apply handleError_canceled.
    + (* Download returns a handle *)
      split; simpl.
      * by rewrite dom_alter_L.
      * apply NoDup_app in Hnd as (Hnd1 & Hdisj & Hnd2).
        rewrite app_assoc. apply NoDup_app. split; [|split].
        -- apply NoDup_app; done.
        -- intros x Hx Hx'. apply list_elem_of_singleton in Hx' as ->.
           apply Hnotin. done.
        -- apply NoDup_singleton.
      * intros id' Hin.
        assert (Hin' : id' ∈ (id :: rest) ++ waiting s) by set_solver.
        destruct (Hpend id' Hin') as (? & Hnf' & Hnc').
        split; [done|]. split.
        -- intros e [He|He]; apply elem_of_app in He as [He|He];
             try (apply (Hnf' e); unfold failed; tauto);
             apply list_elem_of_singleton in He; congruence.
        -- intros He. apply elem_of_app in He as [He|He]; [done|].
           apply list_elem_of_singleton in He; congruence.
      * intros id' [[e He]|He].
        -- apply Hev. left. exists e.
           destruct He as [He|He]; apply elem_of_app in He as [He|He];
             try (unfold failed; tauto);
             apply list_elem_of_singleton in He; congruence.
        -- apply Hev. right. apply elem_of_app in He as [He|He]; [done|].
           apply list_elem_of_singleton in He; congruence.
      * intros id' Hk'. destruct (Hrec id' Hk') as (r & Hl & Hf & Hc & Hu).
        assert (HS : statuses (setQueue rest (setWaiting (waiting s ++ [id])
                       (setFileName id fileName s))) id' = statuses s id') by done.
        assert (Hfe : forall e, failed (hist ++ [Start id (inr fileName)]) id' e
                                <-> failed hist id' e).
        { intros e. unfold failed. rewrite !elem_of_app, !list_elem_of_singleton.
          split; [|tauto]. intros [[?|?]|[?|?]]; try tauto; congruence. }
        assert (Hce : completed (hist ++ [Start id (inr fileName)]) id'
                      <-> completed hist id').
        { unfold completed. rewrite !elem_of_app, !list_elem_of_singleton.
          split; [|tauto]. intros [?|?]; try tauto; congruence. }
        exists (if decide (id = id') then {| FileName := fileName; Error := Error r |} else r).
        split.
        { simpl. destruct (decide (id = id')) as [->|Hne].
          - by rewrite lookup_alter_eq, Hl.
          - by rewrite lookup_alter_ne. }
        rewrite HS.
        assert (HE : Error (if decide (id = id')
                            then {| FileName := fileName; Error := Error r |} else r)
                     = Error r) by (by destruct (decide (id = id'))).
        rewrite HE. split; [|split].
        -- intros e He. apply Hf. by apply Hfe.
        -- intros He. apply Hc. by apply Hce.
        -- intros Hnf' Hnc'. apply Hu.
           ++ intros e He. apply (Hnf' e). by apply Hfe.
           ++ intros He. apply Hnc'. by apply Hce.
      * intros Hc [id' [e He]]. apply Hcan; [done|]. exists id', e.
        destruct He as [He|He]; apply elem_of_app in He as [He|He];
          try (unfold failed; tauto);
          apply list_elem_of_singleton in He; congruence.
  - (* Finish *)
    destruct (decide (id ∈ waiting s)) as [Hw|]; [|done].
    assert (Hid : id ∈ queue s ++ waiting s) by set_solver.
    destruct (Hpend id Hid) as (Hk & Hnf & Hnc).
    assert (Hnd' : NoDup (queue s ++ filter (fun x => x ≠ id) (waiting s))).
    { apply NoDup_app in Hnd as (Hnd1 & Hdisj & Hnd2).
      apply NoDup_app. split; [done|]. split.
      - intros x Hx Hx'. apply list_elem_of_filter in Hx' as [_ Hx'].
        by apply (Hdisj x).
      - by apply NoDup_filter. }
    assert (Hpend' : forall id', id' ∈ queue s ++ filter (fun x => x ≠ id) (waiting s) ->
               id ≠ id' /\ id' ∈ queue s ++ waiting s).
    { intros id' Hin. apply elem_of_app in Hin as [Hin|Hin].
      - split; [|set_solver]. intros <-.
        apply NoDup_app in Hnd as (_ & Hdisj & _). by apply (Hdisj id).
      - apply list_elem_of_filter in Hin as [Hne Hin]. split; [congruence|set_solver]. }
    destruct r as [err|]; injection Hstep as <-.
    + (* Wait returns an error *)
      split; simpl.
      * rewrite handleError_dom. done.
      * rewrite handleError_queue, handleError_waiting. done.
      * rewrite handleError_queue, handleError_waiting. simpl. intros id' Hin.
        destruct (Hpend' id' Hin) as [Hne Hin'].
        destruct (Hpend id' Hin') as (? & Hnf' & Hnc').
        split; [done|]. split.
        -- intros e He. apply (Hnf' e). eapply failed_snoc_other; [| |exact He]; other_event.
        -- intros He. apply Hnc'. eapply completed_snoc_other; [|exact He]; other_event.
      * intros id' [[e He]|He].
        -- destruct (decide (id = id')) as [<-|Hne]; [done|].
           apply Hev. left. exists e.
           eapply failed_snoc_other; [| |exact He]; other_event.
        -- apply Hev. right. eapply completed_snoc_other; [|exact He]; other_event.
      * intros id' Hk'. destruct (decide (id = id')) as [<-|Hne].
        -- apply (handleError_recorded hist (Finish id (Some err)) id err
                    (setWaiting (filter (fun x => x ≠ id) (waiting s)) s)); auto.
           exact (Hrec id Hk).
        -- eapply (recorded_frame hist _ s); try other_event; auto.
           ++ by rewrite handleError_result_other.
           ++ by rewrite handleError_statuses_other.
      * intros Hc _. by apply handleError_canceled.
    + (* Wait returns nil *)
      split; simpl.
      * done.
      * done.
      * intros id' Hin. destruct (Hpend' id' Hin) as [Hne Hin'].
        destruct (Hpend id' Hin') as (? & Hnf' & Hnc').
        split; [done|]. split.
        -- intros e He. apply (Hnf' e). eapply failed_snoc_other; [| |exact He]; other_event.
        -- intros He. apply Hnc'. eapply completed_snoc_other; [|exact He]; other_event.
      * intros id' [[e He]|He].
        -- apply Hev. left. exists e.
           destruct He as [He|He]; apply elem_of_app in He as [He|He];
             try (unfold failed; tauto);
             apply list_elem_of_singleton in He; congruence.
        -- destruct (decide (id = id')) as [<-|Hne]; [done|].
           apply Hev. right. eapply completed_snoc_other; [|exact He]; other_event.
      * intros id' Hk'. destruct (decide (id = id')) as [<-|Hne].
        -- destruct (Hrec id Hk) as (r & Hl & _ & _ & Hu).
           destruct (Hu Hnf Hnc) as [HE HS].
           exists r. split; [done|]. split; [|split].
           ++ intros e [He|He]; apply elem_of_app in He as [He|He];
                try (exfalso; apply (Hnf e); unfold failed; tauto);
                apply list_elem_of_singleton in He; congruence.
           ++ intros _. split; [done|].
              rewrite statuses_updateStatus. destruct (decide (id = id)); [|done].
              unfold statuses in *; simpl. by rewrite HS.
           ++ intros _ Hnc'. destruct Hnc'. unfold completed.
              rewrite elem_of_app, list_elem_of_singleton. tauto.
        -- eapply (recorded_frame hist _ s); try other_event; auto.
           rewrite statuses_updateStatus. destruct (decide (id = id')); [done|].
           by rewrite app_nil_r.
      * intros Hc [id' [e He]]. apply Hcan; [done|]. exists id', e.
        destruct He as [He|He]; apply elem_of_app in He as [He|He];
          try (unfold failed; tauto);
          apply list_elem_of_singleton in He; congruence.
  - (* Cancel *)
    injection Hstep as <-. split; simpl; try done.
    + intros id Hin. destruct (Hpend id Hin) as (? & Hnf & Hnc). split; [done|]. split.
      * intros e He. apply (Hnf e). eapply failed_snoc_other; [| |exact He]; other_event.
      * intros He. apply Hnc. eapply completed_snoc_other; [|exact He]; other_event.
    + intros id [[e He]|He]; apply Hev.
      * left. exists e. eapply failed_snoc_other; [| |exact He]; other_event.
      * right. eapply completed_snoc_other; [|exact He]; other_event.
    + intros id Hk. eapply (recorded_frame hist _ s); try other_event; auto.
Qed.

Lemma exec_inv keys evs : forall hist s s',
  inv keys hist s -> exec evs s = Some s' -> inv keys (hist ++ evs) s'.
Proof.
  induction evs as [|ev evs IH]; intros hist s s' Hinv Hexec; simpl in Hexec.
  - injection Hexec as <-. by rewrite app_nil_r.
  - destruct (step ev s) as [s1|] eqn:Hstep; [|done].
    replace (hist ++ ev :: evs) with ((hist ++ [ev]) ++ evs) by (by rewrite <- app_assoc).
    eapply IH; [|exact Hexec]. by eapply step_inv.
Qed.

(** The first loop. *)
Lemma statuses_initItem s x id :
  statuses (initItem s x) id
  = statuses s id ++ (if decide (x = id) then [downloading] else []).
Proof. unfold initItem. by rewrite statuses_updateStatus. Qed.

Lemma initItem_spec order : forall s,
  NoDup order ->
  let s' := foldl initItem s order in
  canceled s' = canceled s /\ queue s' = queue s /\ waiting s' = waiting s
  /\ dom (result s') = list_to_set order ∪ dom (result s)
  /\ forall id,
       (id ∈ order ->
        result s' !! id = Some {| FileName := ""; Error := "" |}
        /\ statuses s' id = statuses s id ++ [downloading])
       /\ (id ∉ order -> statuses s' id = statuses s id).
Proof.
  induction order as [|x order IH] using rev_ind; intros s Hnd; simpl.
  - repeat split; try done. set_solver. all: by apply elem_of_nil in H.
  - rewrite foldl_app. cbn [foldl]. apply NoDup_app in Hnd as (Hnd & Hx & _).
    destruct (IH s Hnd) as (Hc & Hq & Hw & Hd & Hi).
    assert (Hxo : x ∉ order) by (intros Hin; apply (Hx x Hin); set_solver).
    split; [done|]. split; [done|]. split; [done|]. split.
    { unfold initItem at 1; simpl. rewrite dom_insert_L, Hd, list_to_set_app_L.
      simpl. set_solver. }
    intros id. rewrite statuses_initItem. split.
    + intros Hin. destruct (decide (x = id)) as [->|Hne].
      * split; [apply lookup_insert_eq|]. by rewrite (proj2 (Hi id) Hxo).
      * assert (Hin' : id ∈ order) by set_solver.
        destruct (proj1 (Hi id) Hin') as [Hl Hs]. split.
        -- unfold initItem at 1; simpl. by rewrite lookup_insert_ne.
        -- by rewrite Hs, app_nil_r.
    + intros Hnin. destruct (decide (x = id)) as [->|Hne]; [set_solver|].
      rewrite app_nil_r. apply Hi. set_solver.
Qed.

(** The last loop. *)
Lemma cancelItem_other s x id :
  x ≠ id ->
  result (cancelItem wrapError s x) !! id = result s !! id
  /\ statuses (cancelItem wrapError s x) id = statuses s id.
Proof.
  intros Hne. unfold cancelItem. destruct (result s !! x) as [rx|]; [|done].
  destruct (String.eqb (Error rx) ""); [|done].
  rewrite statuses_updateStatus. destruct (decide (x = id)); [done|].
  rewrite app_nil_r. split; [|done]. simpl. by rewrite lookup_alter_ne.
Qed.

Lemma cancelItem_same s x r :
  result s !! x = Some r ->
  if decide (Error r = "")
  then result (cancelItem wrapError s x) !! x
       = Some {| FileName := FileName r; Error := wrapError contextCanceled |}
       /\ statuses (cancelItem wrapError s x) x
          = statuses s x ++ [(ErrorStatus, wrapError contextCanceled)]
  else result (cancelItem wrapError s x) !! x = Some r
       /\ statuses (cancelItem wrapError s x) x = statuses s x.
Proof.
  intros Hl. unfold cancelItem. rewrite Hl.
  destruct (String.eqb (Error r) "") eqn:He.
  - apply String.eqb_eq in He. destruct (decide (Error r = "")); [|done].
    rewrite statuses_updateStatus. destruct (decide (x = x)); [|done].
    split; [|done]. simpl. by rewrite lookup_alter_eq, Hl.
  - apply String.eqb_neq in He. by destruct (decide (Error r = "")).
Qed.

Lemma cancelItem_frame s x :
  canceled (cancelItem wrapError s x) = canceled s
  /\ dom (result (cancelItem wrapError s x)) = dom (result s).
Proof.
  unfold cancelItem. destruct (result s !! x) as [rx|]; [|done].
  destruct (String.eqb (Error rx) ""); [|done]. simpl. by rewrite dom_alter_L.
Qed.

Lemma cancelItem_spec order : forall s,
  NoDup order ->
  let s' := foldl (cancelItem wrapError) s order in
  canceled s' = canceled s /\ dom (result s') = dom (result s)
  /\ forall id r, result s !! id = Some r ->
       if decide (id ∈ order /\ Error r = "")
       then result s' !! id
            = Some {| FileName := FileName r; Error := wrapError contextCanceled |}
            /\ statuses s' id = statuses s id ++ [(ErrorStatus, wrapError contextCanceled)]
       else result s' !! id = Some r /\ statuses s' id = statuses s id.
Proof.
  induction order as [|x order IH] using rev_ind; intros s Hnd; simpl.
  - done.
  - rewrite foldl_app. cbn [foldl]. apply NoDup_app in Hnd as (Hnd & Hx & _).
    destruct (IH s Hnd) as (Hc & Hd & Hi).
    assert (Hxo : x ∉ order) by (intros Hin; apply (Hx x Hin); set_solver).
    set (s1 := foldl (cancelItem wrapError) s order) in *.
    destruct (cancelItem_frame s1 x) as [Hc1 Hd1].
    split; [congruence|]. split; [congruence|].
    intros id r Hl. specialize (Hi id r Hl).
    destruct (decide (x = id)) as [->|Hne].
    + destruct (decide (id ∈ order /\ Error r = "")) as [[Hin _]|_]; [done|].
      destruct Hi as [Hl1 Hs1]. pose proof (cancelItem_same s1 id r Hl1) as Hsame.
      destruct (decide (Error r = "")) as [He|He].
      * destruct (decide (id ∈ order ++ [id] /\ Error r = "")) as [_|Hn]; [|set_solver].
        destruct Hsame as [-> ->]. by rewrite Hs1.
      * destruct (decide (id ∈ order ++ [id] /\ Error r = "")) as [[_ ?]|_]; [done|].
        destruct Hsame as [-> ->]. done.
    + destruct (cancelItem_other s1 x id Hne) as [-> ->].
      destruct (decide (id ∈ order /\ Error r = "")) as [[Hin He]|Hn].
      * destruct (decide (id ∈ order ++ [x] /\ Error r = "")) as [_|Hn']; [done|set_solver].
      * destruct (decide (id ∈ order ++ [x] /\ Error r = "")) as [[Hin He]|_]; [|done].
        destruct Hn. split; [|done]. apply elem_of_app in Hin as [Hin|Hin]; [done|].
        apply list_elem_of_singleton in Hin. congruence.
Qed.

Lemma failed_dec evs id : (exists e, failed evs id e) \/ (forall e, ~ failed evs id e).
Proof.
  induction evs as [|ev evs IH].
  - right. intros e [H|H]; by apply elem_of_nil in H.
  - destruct IH as [[e He]|Hn].
    { left. exists e. destruct He; [left|right]; by apply list_elem_of_further. }
    destruct ev as [id' [e|f]|id' [e|]|].
    + destruct (decide (id' = id)) as [->|Hne].
      * left. exists e. left. apply list_elem_of_here.
      * right. intros e' [H|H]; apply elem_of_cons in H as [H|H];
          try congruence; apply (Hn e'); unfold failed; tauto.
    + right. intros e' [H|H]; apply elem_of_cons in H as [H|H];
        try congruence; apply (Hn e'); unfold failed; tauto.
    + destruct (decide (id' = id)) as [->|Hne].
      * left. exists e. right. apply list_elem_of_here.
      * right. intros e' [H|H]; apply elem_of_cons in H as [H|H];
          try congruence; apply (Hn e'); unfold failed; tauto.
    + right. intros e' [H|H]; apply elem_of_cons in H as [H|H];
        try congruence; apply (Hn e'); unfold failed; tauto.
    + right. intros e' [H|H]; apply elem_of_cons in H as [H|H];
        try congruence; apply (Hn e'); unfold failed; tauto.
Qed.

Lemma completed_dec evs id : completed evs id \/ ~ completed evs id.
Proof.
  unfold completed. induction evs as [|ev evs IH].
  - right. intros H. by apply elem_of_nil in H.
  - destruct IH as [H|Hn]; [left; by apply list_elem_of_further|].
    destruct ev as [id' r|id' [e|]|];
      try (right; intros H; apply elem_of_cons in H as [H|H]; [congruence|done]).
    destruct (decide (id' = id)) as [->|Hne].
    + left. apply list_elem_of_here.
    + right. intros H; apply elem_of_cons in H as [H|H]; [congruence|done].
Qed.

(** The state before the last loop satisfies the invariant for the whole
    run. *)
Lemma download_inv keys o evs s :
  validOrders keys o -> download wrapError continueOnError o evs = Some s ->
  exists s1, inv keys evs s1
    /\ s = if canceled s1 then foldl (cancelItem wrapError) s1 (cancelOrder o) else s1.
Proof.
  intros ([Hnd1 Hk1] & [Hnd2 Hk2] & _) Hd. unfold download in Hd.
  set (s0 := foldl initItem _ _) in Hd.
  destruct (initItem_spec (initOrder o)
              {| result := ∅; notified := []; canceled := false;
                 queue := startOrder o; waiting := [] |} Hnd1)
    as (Hc & Hq & Hw & Hdom & Hi). fold s0 in Hc, Hq, Hw, Hdom, Hi. simpl in *.
  assert (Hinv0 : inv keys [] s0).
  { split.
    - rewrite Hdom, Hk1. set_solver.
    - rewrite Hq, Hw, app_nil_r. done.
    - intros id. rewrite Hq, Hw, app_nil_r. intros Hin. split.
      + rewrite <- Hk2. set_solver.
      + split; [intros e [H|H]|intros H]; by apply elem_of_nil in H.
    - intros id [[e [H|H]]|H]; by apply elem_of_nil in H.
    - intros id Hin. rewrite <- Hk1 in Hin. apply elem_of_list_to_set in Hin.
      destruct (proj1 (Hi id) Hin) as [Hl Hs]. eexists. split; [exact Hl|].
      split; [|split].
      + intros e [H|H]; by apply elem_of_nil in H.
      + intros H; by apply elem_of_nil in H.
      + intros _ _. split; [done|]. by rewrite Hs.
    - intros _ (id & e & [H|H]); by apply elem_of_nil in H. }
  destruct (exec evs s0) as [s1|] eqn:Hexec; [|done].
  exists s1. split; [exact (exec_inv keys evs [] s0 s1 Hinv0 Hexec)|].
  destruct (queue s1); [|done]. destruct (waiting s1); [|done]. by injection Hd.
Qed.

(** What a complete run leaves for each id of the request. *)
Lemma download_item keys o evs s id :
  validOrders keys o -> download wrapError continueOnError o evs = Some s ->
  id ∈ keys ->
  let cancelError := wrapError contextCanceled in
  let last := if canceled s then [(ErrorStatus, cancelError)] else [] in
  exists r, result s !! id = Some r /\
    (forall e, failed evs id e -> isCancelError (wrapError e) = false ->
       Error r = wrapError e
       /\ statuses s id = [downloading; (ErrorStatus, wrapError e)]) /\
    ((forall e, failed evs id e -> isCancelError (wrapError e) = true) ->
       Error r = (if canceled s then cancelError else "")
       /\ ((completed evs id /\ statuses s id = downloading :: downloaded :: last)
           \/ (~ completed evs id /\ statuses s id = downloading :: last))).
Proof.
  intros Hvalid Hd Hin. destruct (download_inv keys o evs s Hvalid Hd) as (s1 & Hinv & ->).
  destruct Hinv as [Hdom _ _ _ Hrec _]. destruct (Hrec id Hin) as (r1 & Hl1 & Hf & Hc & Hu).
  destruct Hvalid as (_ & _ & [Hnd3 Hk3]).
  assert (Hclean : (forall e, failed evs id e -> isCancelError (wrapError e) = true) ->
            Error r1 = ""
            /\ ((completed evs id /\ statuses s1 id = [downloading; downloaded])
                \/ (~ completed evs id /\ statuses s1 id = [downloading]))).
  { intros Hall. destruct (completed_dec evs id) as [Hcp|Hncp].
    - destruct (Hc Hcp). split; [done|]. by left.
    - destruct (failed_dec evs id) as [[e He]|Hnf].
      + specialize (Hf e He). rewrite (Hall e He) in Hf. destruct Hf. split; [done|]. by right.
      + destruct (Hu Hnf Hncp). split; [done|]. by right. }
  destruct (canceled s1) eqn:Hcan.
  - destruct (cancelItem_spec (cancelOrder o) s1 Hnd3) as (Hc' & Hd' & Hi').
    simpl in Hc', Hd', Hi'. rewrite Hc', Hcan. specialize (Hi' id r1 Hl1).
    assert (Hin3 : id ∈ cancelOrder o) by (rewrite <- Hk3 in Hin; set_solver).
    destruct (decide (id ∈ cancelOrder o /\ Error r1 = "")) as [[_ He1]|Hn].
    + destruct Hi' as [Hl' Hs']. eexists. split; [exact Hl'|]. simpl. split.
      * intros e He Hnc. specialize (Hf e He). rewrite Hnc in Hf. destruct Hf as [Hf _].
        rewrite He1 in Hf. by destruct (wrap_nonempty e).
      * intros Hall. split; [done|]. rewrite Hs'.
        destruct (Hclean Hall) as [_ [[? ->]|[? ->]]]; [left|right]; done.
    + destruct Hi' as [Hl' Hs']. exists r1. split; [exact Hl'|]. rewrite Hs'. split.
      * intros e He Hnc. specialize (Hf e He). by rewrite Hnc in Hf.
      * intros Hall. destruct (Hclean Hall) as [He1 _]. tauto.
  - rewrite Hcan. exists r1. split; [done|]. split.
    + intros e He Hnc. specialize (Hf e He). by rewrite Hnc in Hf.
    + intros Hall. destruct (Hclean Hall) as [He1 Hs]. split; [done|].
      destruct Hs as [[? ->]|[? ->]]; [left|right]; done.
Qed.

Lemma download_dom keys o evs s :
  validOrders keys o -> download wrapError continueOnError o evs = Some s ->
  dom (result s) = keys.
Proof.
  intros Hvalid Hd. destruct (download_inv keys o evs s Hvalid Hd) as (s1 & Hinv & ->).
  destruct Hvalid as (_ & _ & [Hnd3 Hk3]).
  destruct (canceled s1); [|apply Hinv].
  destruct (cancelItem_spec (cancelOrder o) s1 Hnd3) as (_ & Hd' & _).
  simpl in Hd'. rewrite Hd'. apply Hinv.
Qed.

Lemma download_canceled keys o evs s :
  validOrders keys o -> download wrapError continueOnError o evs = Some s ->
  continueOnError = false -> (exists id e, failed evs id e) -> canceled s = true.
Proof.
  intros Hvalid Hd Hc Hex. destruct (download_inv keys o evs s Hvalid Hd) as (s1 & Hinv & ->).
  destruct Hvalid as (_ & _ & [Hnd3 Hk3]).
  pose proof (inv_cancel _ _ _ _ _ Hinv Hc Hex) as Hcan. rewrite Hcan.
  destruct (cancelItem_spec (cancelOrder o) s1 Hnd3) as (Hc' & _).
  simpl in Hc'. by rewrite Hc'.
Qed.

Lemma failed_cancel_dec evs id :
  (exists e, failed evs id e /\ isCancelError (wrapError e) = false)
  \/ (forall e, failed evs id e -> isCancelError (wrapError e) = true).
Proof.
  induction evs as [|ev evs IH].
  - right. intros e [H|H]; by apply elem_of_nil in H.
  - destruct IH as [(e & He & Hc)|Hall].
    { left. exists e. split; [|done].
      destruct He; [left|right]; by apply list_elem_of_further. }
    assert (Hrest : forall e, failed (ev :: evs) id e ->
              ev = Start id (inl e) \/ ev = Finish id (Some e) \/ failed evs id e).
    { intros e [H|H]; apply elem_of_cons in H as [H|H]; unfold failed; auto. }
    assert (Hskip : (forall e, ev ≠ Start id (inl e)) -> (forall e, ev ≠ Finish id (Some e)) ->
              forall e, failed (ev :: evs) id e -> isCancelError (wrapError e) = true).
    { intros H1 H2 e He. destruct (Hrest e He) as [H|[H|H]]; [by destruct (H1 e)| |auto].
      by destruct (H2 e). }
    assert (Hhit : forall e, ev = Start id (inl e) \/ ev = Finish id (Some e) ->
              (exists e, failed (ev :: evs) id e /\ isCancelError (wrapError e) = false)
              \/ (forall e, failed (ev :: evs) id e -> isCancelError (wrapError e) = true)).
    { intros e Hev. destruct (isCancelError (wrapError e)) eqn:Hc.
      - right. intros e' He'. destruct (Hrest e' He') as [H|[H|H]]; [| |auto];
          destruct Hev; congruence.
      - left. exists e. split; [|done].
        destruct Hev as [->| ->]; [left|right]; apply list_elem_of_here. }
    destruct ev as [id' [e|f]|id' [e|]|]; try (right; apply Hskip; congruence).
    + destruct (decide (id' = id)) as [->|Hne]; [apply (Hhit e); auto|].
      right; apply Hskip; congruence.
    + destruct (decide (id' = id)) as [->|Hne]; [apply (Hhit e); auto|].
      right; apply Hskip; congruence.
Qed.

End Proofs.

(** C5: with [continueOnError = false], once an item has failed with an
    error that is not a cancellation, the group context is cancelled, each
    item that failed with such an error keeps its own error string, every
    other item carries the cancellation error, and [isCancelError]
    recognises that error. *)
Theorem download_cancels_group (wrapError : string -> string)
    (request : gmap string downloader.PackageInfo) (o : rangeOrders)
    (evs : list event) (s : state) :
  (forall e, wrapError e ≠ "") ->
  isCancelError (wrapError contextCanceled) = true ->
  validOrders (dom request) o ->
  download wrapError false o evs = Some s ->
  (exists id e, failed evs id e /\ isCancelError (wrapError e) = false) ->
  canceled s = true /\
  forall id, id ∈ dom request ->
    exists r, result s !! id = Some r /\
      (forall e, failed evs id e -> isCancelError (wrapError e) = false ->
         Error r = wrapError e) /\
      ((forall e, failed evs id e -> isCancelError (wrapError e) = true) ->
         Error r = wrapError contextCanceled /\ isCancelError (Error r) = true).
Proof.
  intros Hne Hcc Hvalid Hd (id0 & e0 & He0 & _).
  assert (Hcan : canceled s = true).
  { eapply download_canceled; eauto. }
  split; [done|]. intros id Hin.
  destruct (download_item wrapError false Hne (dom request) o evs s id Hvalid Hd Hin)
    as (r & Hl & Hf & Hc).
  exists r. split; [done|]. split.
  - intros e He Hnc. by destruct (Hf e He Hnc).
  - intros Hall. destruct (Hc Hall) as [HE _]. rewrite Hcan in HE. by rewrite HE.
Qed.

(** C9, amended: for every id of the request the callback gets
    [downloading] first, then [downloaded] exactly when [Wait] returned nil
    for the item, then at most one [error], which comes last.  The last
    status is fixed by the run: when the item has failed with an error other
    than a cancellation, it is that error, wrapped, and nothing was reported
    [downloaded]; otherwise it is the cancellation error of the last loop
    when the group context is cancelled, also for an item already reported
    [downloaded], and there is none when the group context is not
    cancelled. *)
Theorem download_status_sequence (wrapError : string -> string) (continueOnError : bool)
    (request : gmap string downloader.PackageInfo) (o : rangeOrders)
    (evs : list event) (s : state) (id : string) :
  (forall e, wrapError e ≠ "") ->
  validOrders (dom request) o ->
  download wrapError continueOnError o evs = Some s ->
  id ∈ dom request ->
  exists middle last,
    statuses s id = downloading :: middle ++ last
    /\ (middle = [downloaded] /\ completed evs id \/ middle = [] /\ ~ completed evs id)
    /\ (last = [] \/ exists e, last = [(ErrorStatus, e)])
    /\ (canceled s = true -> last ≠ [])
    /\ (forall e, failed evs id e -> isCancelError (wrapError e) = false ->
          middle = [] /\ last = [(ErrorStatus, wrapError e)])
    /\ ((forall e, failed evs id e -> isCancelError (wrapError e) = true) ->
          last = if canceled s then [(ErrorStatus, wrapError contextCanceled)] else []).
Proof.
  intros Hne Hvalid Hd Hin.
  destruct (download_item wrapError continueOnError Hne (dom request) o evs s id
              Hvalid Hd Hin) as (r & Hl & Hf & Hc).
  destruct (failed_cancel_dec wrapError evs id) as [(e & He & Hnc)|Hall].
  - destruct (Hf e He Hnc) as [_ Hs]. exists [], [(ErrorStatus, wrapError e)].
    split; [done|]. split; [|split; [eauto|split; [done|split]]].
    + right. split; [done|]. intros Hcp.
      destruct (download_inv wrapError continueOnError Hne (dom request) o evs s Hvalid Hd)
        as (s1 & Hinv & _).
      destruct (inv_recorded _ _ _ _ _ Hinv id Hin) as (r1 & _ & Hf1 & Hc1 & _).
      specialize (Hf1 e He). rewrite Hnc in Hf1. destruct Hf1 as [_ Hs1].
      destruct (Hc1 Hcp) as [_ Hs2]. unfold downloaded in Hs2. congruence.
    + intros e' He' Hnc'. split; [done|].
      destruct (Hf e' He' Hnc') as [_ Hs']. rewrite Hs in Hs'. by injection Hs' as ->.
    + intros Hall. rewrite (Hall e He) in Hnc. discriminate Hnc.
  - assert (Hown : forall e, failed evs id e -> isCancelError (wrapError e) = false ->
              forall middle last : list (DownloadStatus * string),
                middle = [] /\ last = [(ErrorStatus, wrapError e)]).
    { intros e He Hnc. rewrite (Hall e He) in Hnc. discriminate Hnc. }
    destruct (Hc Hall) as [_ [[Hcp Hs]|[Hncp Hs]]].
    + exists [downloaded], (if canceled s then [(ErrorStatus, wrapError contextCanceled)] else []).
      split; [by rewrite Hs|]. split; [by left|].
      split; [destruct (canceled s); eauto|]. split; [by destruct (canceled s)|].
      split; [|done]. intros e He Hnc. by apply Hown.
    + exists [], (if canceled s then [(ErrorStatus, wrapError contextCanceled)] else []).
      split; [by rewrite Hs|]. split; [by right|].
      split; [destruct (canceled s); eauto|]. split; [by destruct (canceled s)|].
      split; [|done]. intros e He Hnc. by apply Hown.
Qed.

(** C10, amended: the result has exactly the ids of the request, and the
    [Error] of an entry is empty if and only if the group context was not
    cancelled and the item did not fail with an error other than a
    cancellation ([handleError] does not record cancellation errors). *)
Theorem download_result_entries (wrapError : string -> string) (continueOnError : bool)
    (request : gmap string downloader.PackageInfo) (o : rangeOrders)
    (evs : list event) (s : state) :
  (forall e, wrapError e ≠ "") ->
  validOrders (dom request) o ->
  download wrapError continueOnError o evs = Some s ->
  dom (result s) = dom request /\
  forall id r, result s !! id = Some r ->
    (Error r = "" <->
     canceled s = false
     /\ forall e, failed evs id e -> isCancelError (wrapError e) = true).
Proof.
  intros Hne Hvalid Hd.
  pose proof (download_dom wrapError continueOnError Hne (dom request) o evs s Hvalid Hd)
    as Hdom.
  split; [done|]. intros id r Hl.
  assert (Hin : id ∈ dom request).
  { rewrite <- Hdom. apply elem_of_dom. eauto. }
  destruct (download_item wrapError continueOnError Hne (dom request) o evs s id
              Hvalid Hd Hin) as (r' & Hl' & Hf & Hc).
  rewrite Hl in Hl'. injection Hl' as <-. split.
  - intros HE. destruct (failed_cancel_dec wrapError evs id) as [(e & He & Hnc)|Hall].
    + destruct (Hf e He Hnc) as [HE' _]. rewrite HE in HE'. by destruct (Hne e).
    + split; [|done]. destruct (Hc Hall) as [HE' _].
      destruct (canceled s); [|done]. rewrite HE in HE'.
      by destruct (Hne contextCanceled).
  - intros [Hcan Hall]. destruct (Hc Hall) as [HE' _]. by rewrite Hcan in HE'.
Qed.

Import GroupDownloaderScenarios.

Lemma wrapWithPlace_nonempty e : wrapWithPlace e ≠ "".
Proof. by destruct e. Qed.

Lemma validOrders3 : validOrders (dom request3) orders3.
Proof. repeat split; compute_done. Qed.

Lemma validOrders1 : validOrders (dom request1) orders1.
Proof. repeat split; compute_done. Qed.

Lemma download_cancels_group_witness :
  match download wrapWithPlace false orders3 failingRun with
  | Some s =>
    canceled s = true /\
    forall id, id ∈ dom request3 ->
      exists r, result s !! id = Some r /\
        (forall e, failed failingRun id e -> isCancelError (wrapWithPlace e) = false ->
           Error r = wrapWithPlace e) /\
        ((forall e, failed failingRun id e -> isCancelError (wrapWithPlace e) = true) ->
           Error r = wrapWithPlace contextCanceled /\ isCancelError (Error r) = true)
  | None => False
  end.
Proof.
  destruct (download wrapWithPlace false orders3 failingRun) as [s|] eqn:Hrun.
  - apply (download_cancels_group wrapWithPlace request3 orders3 failingRun s).
    + exact wrapWithPlace_nonempty.
    + vm_compute. reflexivity.
    + exact validOrders3.
    + exact Hrun.
    + exists "1", "download error". split; [|vm_compute; reflexivity].
      right. unfold failingRun. set_solver.
  - vm_compute in Hrun. discriminate Hrun.
Defined.

(** C9 as stated fails: "0" is reported [downloaded] and, after "1" has
    failed, [error] by the last loop. *)
Lemma downloaded_item_gets_error :
  match download wrapWithPlace false orders3 failingRun with
  | Some s =>
      "0" ∈ dom request3
      /\ statuses s "0"
         = [downloading; downloaded; (ErrorStatus, wrapWithPlace contextCanceled)]
      /\ ~ oneTerminalStatus (statuses s "0")
  | None => False
  end.
Proof.
  destruct (download wrapWithPlace false orders3 failingRun) as [s|] eqn:Hrun;
    vm_compute in Hrun; [|discriminate Hrun].
  injection Hrun as <-. split; [compute_done|]. split; [vm_compute; reflexivity|].
  intros (st & e & H & _). vm_compute in H. discriminate H.
Qed.

Lemma download_status_sequence_witness :
  match download wrapWithPlace false orders3 failingRun with
  | Some s =>
    exists middle last,
      statuses s "0" = downloading :: middle ++ last
      /\ (middle = [downloaded] /\ completed failingRun "0"
          \/ middle = [] /\ ~ completed failingRun "0")
      /\ (last = [] \/ exists e, last = [(ErrorStatus, e)])
      /\ (canceled s = true -> last ≠ [])
      /\ (forall e, failed failingRun "0" e -> isCancelError (wrapWithPlace e) = false ->
            middle = [] /\ last = [(ErrorStatus, wrapWithPlace e)])
      /\ ((forall e, failed failingRun "0" e -> isCancelError (wrapWithPlace e) = true) ->
            last = if canceled s then [(ErrorStatus, wrapWithPlace contextCanceled)] else [])
  | None => False
  end.
Proof.
  destruct (download wrapWithPlace false orders3 failingRun) as [s|] eqn:Hrun.
  - apply (download_status_sequence wrapWithPlace false request3 orders3 failingRun s).
    + exact wrapWithPlace_nonempty.
    + exact validOrders3.
    + exact Hrun.
    + compute_done.
  - vm_compute in Hrun. discriminate Hrun.
Defined.

(** C10 as stated fails: the entry of "0" has an empty [Error] although the
    item did not complete. *)
Lemma empty_error_without_success :
  match download wrapWithPlace true orders1 foreignCancelRun with
  | Some s =>
      exists r, result s !! "0" = Some r
        /\ ~ (Error r = "" <-> completed foreignCancelRun "0" /\ canceled s = false)
  | None => False
  end.
Proof.
  destruct (download wrapWithPlace true orders1 foreignCancelRun) as [s|] eqn:Hrun;
    vm_compute in Hrun; [|discriminate Hrun].
  injection Hrun as <-. eexists. split; [vm_compute; reflexivity|].
  intros [H _]. destruct (H eq_refl) as [Hc _].
  unfold completed, foreignCancelRun in Hc. set_solver.
Qed.

Lemma download_result_entries_witness :
  match download wrapWithPlace true orders1 foreignCancelRun with
  | Some s =>
    dom (result s) = dom request1 /\
    forall id r, result s !! id = Some r ->
      (Error r = "" <->
       canceled s = false
       /\ forall e, failed foreignCancelRun id e -> isCancelError (wrapWithPlace e) = true)
  | None => False
  end.
Proof.
  destruct (download wrapWithPlace true orders1 foreignCancelRun) as [s|] eqn:Hrun.
  - apply (download_result_entries wrapWithPlace true request1 orders1 foreignCancelRun s).
    + exact wrapWithPlace_nonempty.
    + exact validOrders1.
    + exact Hrun.
  - vm_compute in Hrun. discriminate Hrun.
Defined.

End GroupDownloaderSpec.

(** * Launcher: proofs *)

Module LauncherSpec.
Import launcher LauncherProps.

(** ** Generalities *)

Lemma foldl_preserves {A B : Type} (P : A -> Prop) (f : A -> B -> A) (l : list B) :
  forall a, P a -> (forall a x, P a -> x ∈ l -> P (f a x)) -> P (foldl f a l).
Proof.
  induction l as [|x l IH]; intros a Ha Hf; simpl; [done|].
  apply IH.
  - apply Hf; [done|]. apply list_elem_of_here.
  - intros a' y Ha' Hy. apply Hf; [done|]. by apply list_elem_of_further.
Qed.

Lemma insertLeft_Permutation {A : Type} (less : A -> A -> bool) x (prefix : list A) :
  insertLeft less x prefix ≡ₚ x :: prefix.
Proof.
  induction prefix as [|y rest IH]; simpl; [done|].
  destruct (less x y); [|done]. rewrite IH. apply perm_swap.
Qed.

Lemma sortSlice_Permutation {A : Type} (less : A -> A -> bool) (l : list A) :
  sortSlice less l ≡ₚ l.
Proof.
  unfold sortSlice.
  assert (H : forall prefix, foldl (fun prefix x => insertLeft less x prefix) prefix l
                             ≡ₚ l ++ prefix).
  { induction l as [|x l IH]; intros prefix; simpl; [done|].
    rewrite IH, insertLeft_Permutation. by rewrite Permutation_middle. }
  etransitivity; [symmetry; apply Permutation_rev|]. rewrite H. by rewrite app_nil_r.
Qed.

Lemma intWrap_id z : (- 2 ^ 63 <= z < 2 ^ 63)%Z -> intWrap z = z.
Proof. intros H. unfold intWrap. rewrite Z.mod_small; lia. Qed.

(** ** Device accounting *)

Lemma grows_refl d : deviceInv d -> grows d d.
Proof. intros [? ?]. unfold grows. repeat split; try done; lia. Qed.


Lemma Forall2_grows_refl devices : Forall deviceInv devices -> Forall2 grows devices devices.
Proof. intros H. induction H; constructor; [by apply grows_refl|done]. Qed.


Lemma allocateDevice_grows devices serviceDevice devices' :
  Forall deviceInv devices ->
  allocateDevice devices serviceDevice = Some devices' ->
  Forall2 grows devices devices'.
Proof.
  revert devices'. induction devices as [|d rest IH]; intros devices' Hinv H; simpl in H.
  - done.
  - apply Forall_cons in Hinv as [Hd Hrest].
    assert (Hskip : forall ds, option_map (cons d) (allocateDevice rest serviceDevice) = Some ds ->
              Forall2 grows (d :: rest) ds).
    { intros ds Hds. destruct (allocateDevice rest serviceDevice) as [rest'|]; [|done].
      injection Hds as <-. constructor; [by apply grows_refl|by apply IH]. }
    destruct (negb (String.eqb (name d) serviceDevice)); [by apply Hskip|].
    destruct (negb (Z.eqb (sharedCount d) 0)); [|by apply Hskip].
    destruct (Z.eqb (allocatedCount d) (sharedCount d)) eqn:Hfull; [done|].
    injection H as <-. apply Z.eqb_neq in Hfull. destruct Hd as [? ?].
    constructor.
    + unfold grows; simpl. rewrite intWrap_id by lia. repeat split; try done; lia.
    + by apply Forall2_grows_refl.
Qed.

Lemma grows_inv d d' : deviceInv d -> grows d d' -> deviceInv d'.
Proof. intros [? ?] (? & ? & ?). unfold deviceInv. split; lia. Qed.


Lemma Forall2_grows_inv devices devices' :
  Forall deviceInv devices -> Forall2 grows devices devices' -> Forall deviceInv devices'.
Proof.
  intros Hinv H. induction H; [done|]. apply Forall_cons in Hinv as [? ?].
  constructor; [by eapply grows_inv|auto].
Qed.











(** ** The device invariant through the calls of the launcher *)

Section Invariant.

Context {NetState : Type}.
Implicit Types (env : Env NetState) (l : Launcher NetState).

Lemma removeInstances_nodes desired l : nodes (removeInstances desired l) = nodes l.
Proof.
  unfold removeInstances.
  apply (foldl_preserves (fun l' => nodes l' = nodes l)); [done|].
  intros l' x Hl' _. by destruct (isDesiredInstance desired (InstanceIdent_ x)).
Qed.

Lemma removeInstanceNetworkParameters_nodes env desired l :
  nodes (removeInstanceNetworkParameters env desired l) = nodes l.
Proof.
  unfold removeInstanceNetworkParameters.
  apply (foldl_preserves (fun l' => nodes l' = nodes l)); [done|].
  intros l' x Hl' _. destruct (isDesiredInstance desired x); [done|].
  by destruct (GetServiceInfo env (aostypes.ServiceID x)).
Qed.

Lemma setupInstance_nodes env service info uid l :
  nodes (setupInstance env service info uid l).1.1 = nodes l.
Proof.
  unfold setupInstance. by destruct (Setup env _) as [[? ?] [?|]].
Qed.

Lemma prepareInstanceStartInfo_nodes env service instance index l :
  nodes (prepareInstanceStartInfo env service instance index l).1.1 = nodes l.
Proof.
  unfold prepareInstanceStartInfo.
  destruct (GetInstanceUID _ (storage l)) as [uid|err].
  - apply setupInstance_nodes.
  - destruct (negb (String.eqb err ErrNotExist)); [done|].
    destruct (uidgidpool.GetFreeID (uidPool l)) as [pool [uid|err']]; [|done].
    by rewrite setupInstance_nodes.
Qed.

Lemma Forall_insert_inv (P : nodeStatus -> Prop) (ns : list nodeStatus) i node :
  Forall P ns -> P node -> Forall P (<[i := node]> ns).
Proof. intros H Hn. by apply Forall_insert. Qed.








Lemma checkNewService_nodes env statuses (acc : Launcher NetState * _) newService :
  nodes (checkNewService env statuses acc newService).1 = nodes acc.1.
Proof.
  destruct acc as [l es]. unfold checkNewService. by destruct (existsb _ _).
Qed.

Lemma processStoppedInstances_nodes newStatus errorInstances l :
  nodes (processStoppedInstances newStatus errorInstances l) = nodes l.
Proof.
  unfold processStoppedInstances.
  by apply (foldl_preserves (fun l' => nodes l' = nodes l)).
Qed.

Lemma sendCurrentStatus_nodes env l :
  nodes (sendCurrentStatus env l) = (foldl collectNodeStatus ([], []) (nodes l)).2.
Proof.
  unfold sendCurrentStatus. destruct (foldl collectNodeStatus _ _) as [statuses ns].
  destruct (foldl (fillChecksum env) _ _) as [errorInstances statuses'].
  set (l0 := setNodes ns l).
  assert (H : nodes (foldl (checkNewService env statuses') (l0, []) (pendingNewServices l0)).1
              = ns).
  { apply (foldl_preserves (fun acc => nodes acc.1 = ns)); [done|].
    intros acc x Hacc _. by rewrite checkNewService_nodes. }
  destruct (foldl (checkNewService env statuses') _ _) as [l1 es]. simpl in *.
  by rewrite processStoppedInstances_nodes.
Qed.





Lemma addRunRequest_devices service serviceLayers instance node :
  availableDevices (addRunRequest service serviceLayers instance node) = availableDevices node.
Proof. done. Qed.






End Invariant.



Import LauncherScenarios.





(** ** The run status sent to the unit status handler *)

Section RunStatus.

Context {NetState : Type}.
Implicit Types (env : Env NetState) (l : Launcher NetState).

Lemma foldl_snoc_map {A B : Type} (f : A -> B) (l : list A) : forall acc,
  foldl (fun acc x => acc ++ [f x]) acc l = acc ++ map f l.
Proof.
  induction l as [|x l IH]; intros acc; simpl; [by rewrite app_nil_r|].
  by rewrite IH, <- app_assoc.
Qed.

Lemma collectNodeStatus_spec (ns : list nodeStatus) : forall statuses visited,
  foldl collectNodeStatus (statuses, visited) ns
  = (statuses ++ flat_map collected ns,
     visited ++ map (fun node => if waitStatus node then withWaitStatus false node else node) ns).
Proof.
  induction ns as [|node ns IH]; intros statuses visited; cbn [foldl flat_map map].
  - by rewrite !app_nil_r.
  - unfold collectNodeStatus at 2. unfold collected at 1.
    destruct (waitStatus node) eqn:Hw.
    + rewrite foldl_snoc_map, IH, <- !app_assoc. done.
    + rewrite IH, <- !app_assoc. done.
Qed.

Lemma fillChecksum_spec env (statuses : list cloudprotocol.InstanceStatus) :
  forall errorInstances done,
  (foldl (fillChecksum env) (errorInstances, done) statuses).2
  = done ++ map (reported env) statuses.
Proof.
  induction statuses as [|status statuses IH]; intros errorInstances done;
    cbn [foldl map].
  - simpl. by rewrite app_nil_r.
  - unfold fillChecksum at 2. unfold reported at 1.
    destruct (cloudprotocol.ErrorInfo_ status); rewrite IH, <- app_assoc; done.
Qed.

Lemma reported_collected env node :
  map (reported env) (collected node) = nodeEntries env node.
Proof.
  unfold collected, nodeEntries. destruct (waitStatus node); [|done].
  rewrite map_map. done.
Qed.






End RunStatus.

(** ** Rebalancing and UIDs at concrete inputs *)

(** C3 at a failing input: "serv" needs commonDevice; nodeA (priority 100)
    has it with shared count 1, nodeB (priority 50) with shared count 2.
    The placement puts the instance on nodeA.  After a cpu alert on nodeA
    the instance is in the run request of nodeB, the count of nodeA is
    released, and the count of nodeB is still 0: [performRebalancing] never
    calls [allocateDevices]. *)
Theorem rebalancing_leaves_destination_unallocated :
  placement (serve (New [] 0%N []) deviceHistory)
  = [("nodeA", [(ident "serv" 0, 5000%Z)],
      [{| name := "commonDevice"; sharedCount := 1; allocatedCount := 1 |}]);
     ("nodeB", [], [{| name := "commonDevice"; sharedCount := 2; allocatedCount := 0 |}])]
  /\ placement (serve (New [] 0%N []) alertHistory)
     = [("nodeB", [(ident "serv" 0, 5000%Z)],
         [{| name := "commonDevice"; sharedCount := 2; allocatedCount := 0 |}]);
        ("nodeA", [], [{| name := "commonDevice"; sharedCount := 1; allocatedCount := 0 |}])].
Proof. split; vm_compute; reflexivity. Qed.

(** C4 at a failing input: nodeA and nodeB have the same priority; nodeA
    (4 CPUs, load 350) has more free CPU than nodeB (1 CPU, load 80).  After
    a cpu alert on nodeA the candidates are taken from all of
    [launcher.nodes], the first one by free CPU is nodeA itself, and the
    instance is still in the run request of nodeA, which is sent again. *)
Theorem rebalancing_onto_the_source_node :
  placement (serve (New [] 0%N []) peerHistory)
  = [("nodeA", [(ident "serv" 0, 5000%Z)], []); ("nodeB", [], [])]
  /\ placement (serve (New [] 0%N []) (peerHistory ++ [(peerEnv, cpuAlert "nodeA")]))
     = [("nodeA", [(ident "serv" 0, 5000%Z)], []); ("nodeB", [], [])]
  /\ map fst (sentRequests (serve (New [] 0%N []) peerHistory)) = ["nodeA"; "nodeB"]
  /\ map fst (sentRequests
                (serve (New [] 0%N []) (peerHistory ++ [(peerEnv, cpuAlert "nodeA")])))
     = ["nodeA"; "nodeB"; "nodeA"; "nodeB"].
Proof. repeat split; vm_compute; reflexivity. Qed.

(** C7 at a failing input: two instances of "serv" are desired and the
    set-up of the storage fails for the first.  [prepareInstanceStartInfo]
    has stored UID 5000 for it and gives the UID back to the pool; the
    placement goes on with the instance; the second instance gets UID 5000
    from the pool.  Both are in the run request and in the storage with
    UID 5000. *)
Theorem setup_failure_shares_uid :
  placement (serve (New [] 0%N []) setupHistory)
  = [("nodeA", [(ident "serv" 0, 5000%Z); (ident "serv" 1, 5000%Z)], [])]
  /\ storage (serve (New [] 0%N []) setupHistory)
     = [{| InstanceIdent_ := ident "serv" 0; UID := 5000 |};
        {| InstanceIdent_ := ident "serv" 1; UID := 5000 |}].
Proof. split; vm_compute; reflexivity. Qed.

(** ** Devices with shared count 0 *)

Lemma allocateDevice_counted devices serviceDevice devices' :
  allocateDevice devices serviceDevice = Some devices' ->
  map deviceKey devices' = map deviceKey devices
  /\ exists d, d ∈ devices /\ name d = serviceDevice /\ sharedCount d ≠ 0%Z.
Proof.
  revert devices'. induction devices as [|d rest IH]; intros devices' H; simpl in H; [done|].
  assert (Hskip : forall ds, option_map (cons d) (allocateDevice rest serviceDevice) = Some ds ->
            map deviceKey ds = map deviceKey (d :: rest)
            /\ exists d0, d0 ∈ d :: rest /\ name d0 = serviceDevice /\ sharedCount d0 ≠ 0%Z).
  { intros ds Hds. destruct (allocateDevice rest serviceDevice) as [rest'|]; [|done].
    injection Hds as <-. destruct (IH rest' eq_refl) as (Hk & d0 & ? & ? & ?).
    split; [simpl; by rewrite Hk|]. exists d0. split; [by apply list_elem_of_further|done]. }
  destruct (negb (String.eqb (name d) serviceDevice)) eqn:Hname; [by apply Hskip|].
  destruct (negb (Z.eqb (sharedCount d) 0)) eqn:Hshared; [|by apply Hskip].
  destruct (Z.eqb (allocatedCount d) (sharedCount d)); [done|]. injection H as <-.
  split; [done|]. exists d. split; [apply list_elem_of_here|].
  apply negb_false_iff, String.eqb_eq in Hname.
  apply negb_true_iff, Z.eqb_neq in Hshared. done.
Qed.

Lemma deviceKey_transfer devices devices' d :
  map deviceKey devices' = map deviceKey devices -> d ∈ devices' ->
  exists d0, d0 ∈ devices /\ name d0 = name d /\ sharedCount d0 = sharedCount d.
Proof.
  intros Hk Hd. assert (Hin : deviceKey d ∈ map deviceKey devices).
  { rewrite <- Hk. apply list_elem_of_fmap. eauto. }
  apply list_elem_of_fmap in Hin as (d0 & Heq & Hd0). exists d0.
  unfold deviceKey in Heq. injection Heq as ? ?. done.
Qed.

(** When [allocateDevices] returns no error, the node has every device of
    the service with a shared count other than 0. *)
Lemma allocateDevices_counted serviceDevices : forall devices devices',
  allocateDevices devices serviceDevices = (devices', None) ->
  forall sd, sd ∈ serviceDevices ->
    exists d, d ∈ devices /\ name d = aostypes.Name sd /\ sharedCount d ≠ 0%Z.
Proof.
  induction serviceDevices as [|sd0 rest IH]; intros devices devices' H sd Hsd; simpl in H.
  - by apply elem_of_nil in Hsd.
  - destruct (allocateDevice devices (aostypes.Name sd0)) as [devices1|] eqn:Ha; [|done].
    destruct (allocateDevice_counted _ _ _ Ha) as (Hk & d0 & Hd0).
    apply elem_of_cons in Hsd as [->|Hsd]; [by exists d0|].
    destruct (IH devices1 devices' H sd Hsd) as (d1 & Hd1 & Hn1 & Hs1).
    destruct (deviceKey_transfer _ _ _ Hk Hd1) as (d2 & ? & ? & ?).
    exists d2. repeat split; congruence.
Qed.

Lemma hasDesiredDevice_elem devices deviceName :
  hasDesiredDevice devices deviceName = true ->
  exists d, d ∈ devices /\ name d = deviceName
            /\ (sharedCount d = 0%Z \/ allocatedCount d ≠ sharedCount d).
Proof.
  induction devices as [|d rest IH]; simpl; [done|]. intros H.
  assert (Hskip : hasDesiredDevice rest deviceName = true ->
            exists d0, d0 ∈ d :: rest /\ name d0 = deviceName
                       /\ (sharedCount d0 = 0%Z \/ allocatedCount d0 ≠ sharedCount d0)).
  { intros Hr. destruct (IH Hr) as (d0 & ? & ?). exists d0.
    split; [by apply list_elem_of_further|done]. }
  destruct (negb (String.eqb deviceName (name d))) eqn:Hname; [by apply Hskip|].
  destruct (Z.eqb (sharedCount d) 0 || negb (Z.eqb (allocatedCount d) (sharedCount d)))
    eqn:Hfree; [|by apply Hskip].
  exists d. split; [apply list_elem_of_here|].
  apply negb_false_iff, String.eqb_eq in Hname. split; [done|].
  apply orb_true_iff in Hfree as [Hz|Hn]; [left; by apply Z.eqb_eq|right].
  by apply negb_true_iff, Z.eqb_neq in Hn.
Qed.

Lemma allocateDevice_succeeds devices deviceName :
  NoDup (map name devices) -> available devices deviceName ->
  exists devices',
    allocateDevice devices deviceName = Some devices'
    /\ map name devices' = map name devices
    /\ forall other, other ≠ deviceName -> available devices other -> available devices' other.
Proof.
  induction devices as [|d rest IH]; intros Hnd (d0 & Hin & Hname & Hshared & Hfree).
  - by apply elem_of_nil in Hin.
  - simpl in Hnd. apply NoDup_cons in Hnd as [Hnotin Hnd]. simpl.
    destruct (String.eqb (name d) deviceName) eqn:Hd; simpl.
    + apply String.eqb_eq in Hd.
      assert (d0 = d) as ->.
      { apply elem_of_cons in Hin as [?|Hin]; [done|]. destruct Hnotin.
        rewrite Hd, <- Hname. apply list_elem_of_fmap. eauto. }
      apply Z.eqb_neq in Hshared as Hs. apply Z.eqb_neq in Hfree as Hf. rewrite Hs, Hf. simpl.
      eexists. split; [done|]. split; [done|].
      intros other Hother (d1 & Hin1 & Hn1 & Hs1 & Hf1).
      apply elem_of_cons in Hin1 as [->|Hin1]; [congruence|].
      exists d1. split; [by apply list_elem_of_further|done].
    + apply String.eqb_neq in Hd.
      assert (Hin0 : d0 ∈ rest).
      { apply elem_of_cons in Hin as [->|?]; [congruence|done]. }
      destruct (IH Hnd) as (rest' & Ha & Hnames & Hother).
      { by exists d0. }
      rewrite Ha. simpl. eexists. split; [done|]. split; [simpl; by rewrite Hnames|].
      intros other Hne (d1 & Hin1 & Hn1 & Hs1 & Hf1).
      apply elem_of_cons in Hin1 as [->|Hin1].
      * exists d. split; [apply list_elem_of_here|done].
      * destruct (Hother other Hne) as (d2 & ? & ?); [by exists d1|].
        exists d2. split; [by apply list_elem_of_further|done].
Qed.

Lemma allocateDevices_succeeds serviceDevices : forall devices,
  NoDup (map name devices) -> NoDup (map aostypes.Name serviceDevices) ->
  (forall sd, sd ∈ serviceDevices -> available devices (aostypes.Name sd)) ->
  (allocateDevices devices serviceDevices).2 = None.
Proof.
  induction serviceDevices as [|sd rest IH]; intros devices Hnd Hsd Hav; simpl; [done|].
  simpl in Hsd. apply NoDup_cons in Hsd as [Hnotin Hsd].
  destruct (allocateDevice_succeeds devices (aostypes.Name sd) Hnd) as (devices' & -> & Hn & Ho).
  { apply Hav. apply list_elem_of_here. }
  apply IH; [by rewrite Hn|done|].
  intros sd' Hin. apply Ho.
  - intros Heq. apply Hnotin. rewrite <- Heq. apply list_elem_of_fmap. eauto.
  - apply Hav. by apply list_elem_of_further.
Qed.

Lemma maxNodePriority_elem ns rest : forall best,
  maxNodePriority ns best rest ∈ best :: rest.
Proof.
  induction rest as [|i rest IH]; intros best; simpl; [apply list_elem_of_here|].
  destruct (N.ltb _ _).
  - apply list_elem_of_further, IH.
  - specialize (IH best). apply elem_of_cons in IH as [->|?].
    + apply list_elem_of_here.
    + by do 2 apply list_elem_of_further.
Qed.

Lemma getMostPriorityNode_elem ns nodes i :
  getMostPriorityNode ns nodes = Some i -> i ∈ nodes.
Proof.
  destruct nodes as [|first rest]; simpl; [done|]. intros [= <-].
  apply maxNodePriority_elem.
Qed.

Section ZeroCount.

Context {NetState : Type}.
Implicit Types (env : Env NetState) (l : Launcher NetState).

Lemma setupInstance_ident env service info uid l :
  aostypes.InstanceIdent_ (setupInstance env service info uid l).1.2
  = aostypes.InstanceIdent_ info.
Proof. unfold setupInstance. by destruct (Setup env _) as [[? ?] [?|]]. Qed.

Lemma prepareInstanceStartInfo_ident env service instance index l :
  aostypes.InstanceIdent_ (prepareInstanceStartInfo env service instance index l).1.2
  = {| aostypes.ServiceID := cloudprotocol.ServiceID instance;
       aostypes.SubjectID := cloudprotocol.SubjectID instance;
       aostypes.Instance := index |}.
Proof.
  unfold prepareInstanceStartInfo.
  destruct (GetInstanceUID _ (storage l)) as [uid|err].
  - by rewrite setupInstance_ident.
  - destruct (negb (String.eqb err ErrNotExist)); [done|].
    destruct (uidgidpool.GetFreeID (uidPool l)) as [pool [uid|err']]; [|done].
    by rewrite setupInstance_ident.
Qed.

(** [balanceInstance] puts an instance on a node only if the node has every
    device of the service with a shared count other than 0.  The node that
    is tried is the one of highest priority among those that pass the device
    filter; when that node lists each device once and has the devices of the
    service (each named once) with a shared count other than 0, the instance
    is appended to its run request. *)
Theorem zero_count_device_placement env (serviceInfo : imagemanager.ServiceInfo)
    (serviceLayers : list imagemanager.LayerInfo) (staticNodes : list nat)
    (instance : cloudprotocol.InstanceInfo) l
    (errStatus : list cloudprotocol.InstanceStatus) (index : N) :
  let devices := aostypes.Devices (imagemanager.Config serviceInfo) in
  let l' := (balanceInstance env serviceInfo serviceLayers staticNodes instance
               (l, errStatus) index).1 in
  (forall i node node',
     nodes l !! i = Some node -> nodes l' !! i = Some node' ->
     instances (currentRunRequest node') ≠ instances (currentRunRequest node) ->
     forall sd, sd ∈ devices ->
       exists d, d ∈ availableDevices node /\ name d = aostypes.Name sd
                 /\ sharedCount d ≠ 0%Z)
  /\ (forall candidates i node,
        getNodesByDevices (nodes l) staticNodes devices = (candidates, None) ->
        getMostPriorityNode (nodes l) candidates = Some i ->
        nodes l !! i = Some node ->
        NoDup (map name (availableDevices node)) ->
        NoDup (map aostypes.Name devices) ->
        (forall sd d, sd ∈ devices -> d ∈ availableDevices node ->
                      name d = aostypes.Name sd -> sharedCount d ≠ 0%Z) ->
        exists info node',
          nodes l' !! i = Some node'
          /\ instances (currentRunRequest node')
             = instances (currentRunRequest node) ++ [info]
          /\ aostypes.InstanceIdent_ info
             = {| aostypes.ServiceID := cloudprotocol.ServiceID instance;
                  aostypes.SubjectID := cloudprotocol.SubjectID instance;
                  aostypes.Instance := index |}).
Proof.
  intros devices l'. subst l'. unfold balanceInstance. fold devices.
  pose proof (prepareInstanceStartInfo_nodes env serviceInfo instance index l) as Hn.
  pose proof (prepareInstanceStartInfo_ident env serviceInfo instance index l) as Hident.
  split.
  - intros i node node' Hnode Hnode' Hchanged.
    destruct (getNodesByDevices (nodes l) staticNodes devices) as [nodeForInstance [err|]].
    { simpl in Hnode'. congruence. }
    destruct (prepareInstanceStartInfo env serviceInfo instance index l) as [[l1 info] err].
    simpl in Hn. rewrite Hn in Hnode'.
    destruct (getMostPriorityNode (nodes l) nodeForInstance) as [i0|].
    2:{ simpl in Hnode'. destruct err; simpl in Hnode'; congruence. }
    destruct (nodes l !! i0) as [node0|] eqn:Hnode0.
    2:{ destruct err; simpl in Hnode'; congruence. }
    destruct (allocateDevices (availableDevices node0) devices) as [devices' [err'|]] eqn:Ha;
      simpl in Hnode'.
    + destruct (decide (i0 = i)) as [->|Hne].
      * rewrite list_lookup_insert_eq in Hnode' by (by eapply lookup_lt_Some).
        injection Hnode' as <-. simpl in Hchanged. congruence.
      * rewrite list_lookup_insert_ne in Hnode' by done. congruence.
    + destruct (decide (i0 = i)) as [->|Hne].
      * assert (node0 = node) as -> by congruence.
        by apply (allocateDevices_counted devices _ _ Ha).
      * rewrite list_lookup_insert_ne in Hnode' by done. congruence.
  - intros candidates i node Hcands Hmost Hnode Hnd Hsd Hshared. rewrite Hcands.
    destruct (prepareInstanceStartInfo env serviceInfo instance index l) as [[l1 info] err].
    simpl in Hn, Hident. rewrite Hn, Hmost, Hnode.
    assert (Hok : (allocateDevices (availableDevices node) devices).2 = None).
    { destruct devices as [|sd0 rest] eqn:Hdevices; [done|].
      apply allocateDevices_succeeds; [done|done|].
      intros sd Hin.
      pose proof (getMostPriorityNode_elem _ _ _ Hmost) as Hi.
      unfold getNodesByDevices in Hcands. simpl in Hcands.
      destruct (Nat.eqb (length _) 0) in Hcands; [done|]. injection Hcands as <-.
      apply list_elem_of_In, List.filter_In in Hi as [_ Hi]. rewrite Hnode in Hi.
      unfold nodeHasDesiredDevices in Hi.
      change (forallb (fun desiredDevice =>
                         hasDesiredDevice (availableDevices node)
                                          (aostypes.Name desiredDevice))
                      (sd0 :: rest) = true) in Hi.
      rewrite forallb_forall in Hi.
      specialize (Hi sd (proj1 (list_elem_of_In _ _) Hin)).
      destruct (hasDesiredDevice_elem _ _ Hi) as (d & Hd & Hname & Hfree).
      exists d. repeat split; try done.
      + by eapply Hshared.
      + destruct Hfree as [Hz|?]; [|done]. by destruct (Hshared sd d Hin Hd Hname). }
    destruct (allocateDevices (availableDevices node) devices) as [devices' [e|]];
      [done|].
    exists info. eexists. simpl.
    rewrite list_lookup_insert_eq by (by eapply lookup_lt_Some).
    split; [done|]. split; [|done]. destruct err; done.
Qed.

End ZeroCount.

(** ** The order of the allowed connections *)

Section RangeOrder.

Context {NetState : Type}.
Implicit Types (env : Env NetState) (l : Launcher NetState).

Lemma foldl_ext_all {A B : Type} (f g : A -> B -> A) (l : list B) :
  (forall a x, f a x = g a x) -> forall a, foldl f a l = foldl g a l.
Proof.
  intros H. induction l as [|x l IH]; intros a; simpl; [done|]. by rewrite H, IH.
Qed.

Lemma range_unique r1 r2 (s : gset string) :
  validRange r1 -> validRange r2 -> size s <= 1 -> r1 s = r2 s.
Proof.
  intros H1 H2 Hs. specialize (H1 s). specialize (H2 s).
  assert (Hlen : length (elements s) <= 1) by done.
  destruct (elements s) as [|x [|y rest]]; simpl in Hlen; [| |lia].
  - apply Permutation_nil_r in H1, H2. congruence.
  - apply Permutation_singleton_r in H1, H2. congruence.
Qed.

Lemma getLayersForService_range r1 r2 env digests :
  getLayersForService (withRangeOrder r1 env) digests
  = getLayersForService (withRangeOrder r2 env) digests.
Proof. induction digests as [|d rest IH]; simpl; [done|]. by rewrite IH. Qed.

Lemma balanceInstance_range r1 r2 env serviceInfo serviceLayers staticNodes instance st index :
  balanceInstance (withRangeOrder r1 env) serviceInfo serviceLayers staticNodes instance st index
  = balanceInstance (withRangeOrder r2 env) serviceInfo serviceLayers staticNodes instance st index.
Proof. reflexivity. Qed.

Lemma balanceService_range r1 r2 env st instance :
  balanceService (withRangeOrder r1 env) st instance
  = balanceService (withRangeOrder r2 env) st instance.
Proof.
  destruct st as [l errStatus]. unfold balanceService.
  change (GetServiceInfo (withRangeOrder r1 env)) with (GetServiceInfo env).
  change (GetServiceInfo (withRangeOrder r2 env)) with (GetServiceInfo env).
  destruct (GetServiceInfo env _) as [serviceInfo|]; [|done].
  destruct (imagemanager.Cached serviceInfo); [done|].
  rewrite (getLayersForService_range r1 r2).
  destruct (getLayersForService _ _) as [serviceLayers|]; [|done].
  destruct (getNodesByStaticResources _ _ _ _) as [staticNodes [err|]]; [done|].
  apply foldl_ext_all. intros. apply balanceInstance_range.
Qed.

Lemma prepareNetworkForInstance_range r1 r2 env onlyExposedPorts net errStatus instance :
  validRange r1 -> validRange r2 -> singleConnection env ->
  prepareNetworkForInstance (withRangeOrder r1 env) onlyExposedPorts net errStatus instance
  = prepareNetworkForInstance (withRangeOrder r2 env) onlyExposedPorts net errStatus instance.
Proof.
  intros H1 H2 Hs. unfold prepareNetworkForInstance.
  change (GetServiceInfo (withRangeOrder r1 env)) with (GetServiceInfo env).
  change (GetServiceInfo (withRangeOrder r2 env)) with (GetServiceInfo env).
  destruct (GetServiceInfo env _) as [serviceInfo|] eqn:Hinfo; [|done].
  destruct (onlyExposedPorts && _); [done|].
  unfold prepareNetworkParameters. cbn [rangeAllowedConnections withRangeOrder].
  rewrite (range_unique r1 r2 _ H1 H2 (Hs _ _ Hinfo)). done.
Qed.

Lemma prepareNetworkForInstances_range r1 r2 env onlyExposedPorts l :
  validRange r1 -> validRange r2 -> singleConnection env ->
  prepareNetworkForInstances (withRangeOrder r1 env) onlyExposedPorts l
  = prepareNetworkForInstances (withRangeOrder r2 env) onlyExposedPorts l.
Proof.
  intros H1 H2 Hs. unfold prepareNetworkForInstances.
  rewrite (foldl_ext_all _
             (fun acc node =>
                let '(net, errStatus, ns) := acc in
                let '(net, errStatus, node) :=
                  prepareNetworkForNode (withRangeOrder r2 env) onlyExposedPorts net
                    errStatus node in
                (net, errStatus, ns ++ [node]))); [done|].
  intros [[net errs] ns] node. unfold prepareNetworkForNode.
  rewrite (foldl_ext_all _
             (fun acc instance =>
                let '(net, errStatus, done) := acc in
                let '(net, errStatus, instance) :=
                  prepareNetworkForInstance (withRangeOrder r2 env) onlyExposedPorts net
                    errStatus instance in
                (net, errStatus, done ++ [instance]))); [done|].
  intros [[net' errs'] done] instance.
  by rewrite (prepareNetworkForInstance_range r1 r2).
Qed.

(** C6, amended: two placement passes from the same launcher state, desired
    instances and collaborators, which differ at most in the order in which
    the runtime ranges over the [AllowedConnections] maps, leave the same
    state (run requests with their network parameters) and return the same
    error statuses, provided no service has more than one allowed
    connection. *)
Theorem placement_independent_of_range_order (r1 r2 : gset string -> list string) env
    (desired : list cloudprotocol.InstanceInfo) l :
  validRange r1 -> validRange r2 -> singleConnection env ->
  performNodeBalancing (withRangeOrder r1 env) desired l
  = performNodeBalancing (withRangeOrder r2 env) desired l.
Proof.
  intros H1 H2 Hs. unfold performNodeBalancing.
  change (removeInstanceNetworkParameters (withRangeOrder r1 env))
    with (removeInstanceNetworkParameters (withRangeOrder r2 env)).
  rewrite (foldl_ext_all _ (balanceService (withRangeOrder r2 env)))
    by (intros; apply balanceService_range).
  destruct (foldl _ _ _) as [l1 errStatus].
  rewrite (prepareNetworkForInstances_range r1 r2 env true l1 H1 H2 Hs).
  destruct (prepareNetworkForInstances _ true l1) as [l2 errs2].
  by rewrite (prepareNetworkForInstances_range r1 r2 env false l2 H1 H2 Hs).
Qed.

End RangeOrder.

(** C2 at a failing input: "serv" needs "dev"; nodeB passes the static
    filters and has "dev" with shared count 1 and nothing allocated, so the
    instance should be placed on it.  But nodeA, of higher priority, has
    "dev" with shared count 0, and [nodeHasDesiredDevices] lets it through
    as well; the instance is tried on nodeA only, where [allocateDevices]
    refuses the device, and it is placed nowhere, although the allocation
    would have succeeded on nodeB. *)
Theorem zero_count_node_blocks_placement :
  let devices := [{| aostypes.Name := "dev"; aostypes.Permissions := "" |}] in
  let before := serve (New [] 0%N []) (take 2 zeroHistory) in
  let l := serve (New [] 0%N []) zeroHistory in
  placement before
  = [("nodeA", [], [{| name := "dev"; sharedCount := 0; allocatedCount := 0 |}]);
     ("nodeB", [], [{| name := "dev"; sharedCount := 1; allocatedCount := 0 |}])]
  /\ getNodesByStaticResources (nodes before) (seq 0 (length (nodes before)))
       (service "serv" 5000 ["dev"] ∅) (desired "serv" 50 1) = ([0; 1], None)
  /\ getNodesByDevices (nodes before) [0; 1] devices = ([0; 1], None)
  /\ getMostPriorityNode (nodes before) [0; 1] = Some 0
  /\ allocateDevices [{| name := "dev"; sharedCount := 0; allocatedCount := 0 |}] devices
     = ([{| name := "dev"; sharedCount := 0; allocatedCount := 0 |}],
        Some "can't allocate device: dev")
  /\ allocateDevices [{| name := "dev"; sharedCount := 1; allocatedCount := 0 |}] devices
     = ([{| name := "dev"; sharedCount := 1; allocatedCount := 1 |}], None)
  /\ placement l
     = [("nodeA", [], [{| name := "dev"; sharedCount := 0; allocatedCount := 0 |}]);
        ("nodeB", [], [{| name := "dev"; sharedCount := 1; allocatedCount := 0 |}])]
  /\ map (fun status => (cloudprotocol.InstanceIdent_ status, cloudprotocol.RunState status,
                         cloudprotocol.ErrorInfo_ status)) (currentErrorStatus l)
     = [(ident "serv" 0, "failed",
         Some {| cloudprotocol.Message := "can't allocate device: dev" |})].
Proof. repeat split; vm_compute; reflexivity. Qed.

Lemma zero_count_device_placement_witness :
  let l := serve (New [] 0%N []) deviceConnected in
  let l' := (balanceInstance deviceEnv (service "serv" 5000 ["commonDevice"] ∅) [] [0; 1]
               (desired "serv" 50 1) (l, []) 0%N).1 in
  match nodes l !! 0 with
  | Some node =>
      exists info node',
        nodes l' !! 0 = Some node'
        /\ instances (currentRunRequest node') = instances (currentRunRequest node) ++ [info]
        /\ aostypes.InstanceIdent_ info = ident "serv" 0
  | None => False
  end.
Proof.
  intros l l'. destruct (nodes l !! 0) as [node|] eqn:Hnode;
    vm_compute in Hnode; [|discriminate Hnode].
  injection Hnode as <-.
  apply (proj2 (zero_count_device_placement deviceEnv
                  (service "serv" 5000 ["commonDevice"] ∅) [] [0; 1]
                  (desired "serv" 50 1) l [] 0%N) [0; 1] 0).
  - vm_compute. reflexivity.
  - vm_compute. reflexivity.
  - vm_compute. reflexivity.
  - simpl. apply NoDup_singleton.
  - simpl. apply NoDup_singleton.
  - intros sd d Hsd Hd Hname. simpl in Hd. apply list_elem_of_singleton in Hd as ->.
    simpl. discriminate.
Defined.

Lemma validRange_sortedKeys : validRange sortedKeys.
Proof. intros s. done. Qed.

Lemma validRange_reversedKeys : validRange reversedKeys.
Proof. intros s. unfold reversedKeys. symmetry. apply Permutation_rev. Qed.

(** C6 as stated fails: the same node, desired instances, services and
    monitoring data, and two orders of ranging over the two allowed
    connections of "serv", give run requests that differ in the network
    parameters of the instance. *)
Lemma range_order_changes_run_request :
  validRange sortedKeys /\ validRange reversedKeys
  /\ allowEnv reversedKeys = withRangeOrder reversedKeys (allowEnv sortedKeys)
  /\ sentRequests (serve (New [] 0%N []) (allowHistory sortedKeys))
     ≠ sentRequests (serve (New [] 0%N []) (allowHistory reversedKeys)).
Proof.
  split; [exact validRange_sortedKeys|]. split; [exact validRange_reversedKeys|].
  split; [reflexivity|]. intros H. vm_compute in H. discriminate H.
Qed.

Lemma testEnv_singleConnection nodeInfos unitConfigs imageServices monitoring setupError
    rangeOrder :
  Forall (fun info => size (aostypes.AllowedConnections (imagemanager.Config info)) <= 1)
         imageServices ->
  singleConnection (testEnv nodeInfos unitConfigs imageServices monitoring setupError
                            rangeOrder).
Proof.
  intros H id info. unfold testEnv. cbn [GetServiceInfo]. unfold lookupBy.
  destruct (List.find _ imageServices) as [found|] eqn:Hfind; [|done].
  intros [= <-]. apply List.find_some in Hfind as [Hin _]. apply list_elem_of_In in Hin.
  by eapply Forall_forall in H.
Qed.

Lemma placement_independent_of_range_order_witness :
  performNodeBalancing (withRangeOrder sortedKeys singleEnv) [desired "serv" 50 1]
    (serve (New [] 0%N []) [(singleEnv, connected "nodeA" "typeA")])
  = performNodeBalancing (withRangeOrder reversedKeys singleEnv) [desired "serv" 50 1]
      (serve (New [] 0%N []) [(singleEnv, connected "nodeA" "typeA")]).
Proof.
  apply (placement_independent_of_range_order sortedKeys reversedKeys singleEnv).
  - exact validRange_sortedKeys.
  - exact validRange_reversedKeys.
  - apply testEnv_singleConnection. constructor; [|constructor]. vm_compute. lia.
Defined.

End LauncherSpec.

(** * Group downloader: further properties *)

Module DownloadFacts.
Import unitstatushandler GroupDownloaderProps DownloadProps GroupDownloaderSpec.

(** ** [strings.Contains] *)

Lemma prefix_app (a b : string) :
  String.prefix a b = true <-> exists post, b = a +:+ post.
Proof.
  revert b. induction a as [|c a IH]; intros b; simpl.
  - destruct b; split; eauto.
  - destruct b as [|d b].
    + split; [done|]. by intros [post H].
    + simpl. destruct (Ascii.ascii_dec c d) as [->|Hne].
      * rewrite IH. split; intros [post H]; exists post; [by rewrite H|by injection H].
      * split; [done|]. intros [post H]. injection H as H1 H2. by destruct Hne.
Qed.

(** [isCancelError] recognises exactly the messages that have the message
    of [context.Canceled] as a substring. *)
Theorem isCancelError_substring (errString : string) :
  isCancelError errString = true
  <-> exists pre post, errString = pre +:+ contextCanceled +:+ post.
Proof.
  unfold isCancelError. generalize contextCanceled. revert errString.
  intros s substr. split.
  - induction s as [|c s IH]; cbn [strings_Contains].
    + destruct (String.prefix substr "") eqn:Hp; [|done].
      intros _. apply prefix_app in Hp as [post Hp]. by exists "", post.
    + destruct (String.prefix substr (String c s)) eqn:Hp.
      * intros _. apply prefix_app in Hp as [post Hp]. by exists "", post.
      * intros H. destruct (IH H) as (pre & post & ->). by exists (String c pre), post.
  - intros (pre & post & ->). induction pre as [|c pre IH].
    + assert (Hp : String.prefix substr (substr +:+ post) = true)
        by (apply prefix_app; eauto).
      change ("" +:+ substr +:+ post) with (substr +:+ post).
      destruct (substr +:+ post); cbn [strings_Contains]; by rewrite Hp.
    + change (String c pre +:+ substr +:+ post) with (String c (pre +:+ substr +:+ post)).
      cbn [strings_Contains]. rewrite IH. by destruct (String.prefix _ _).
Qed.

(** ** [getDownloadError] *)

Lemma isDownloadError_true item :
  isDownloadError item = true <-> Error item ≠ "" /\ isCancelError (Error item) = false.
Proof.
  unfold isDownloadError. rewrite andb_true_iff, !negb_true_iff, String.eqb_neq. done.
Qed.

Lemma isDownloadError_false item :
  isDownloadError item = false <-> Error item = "" \/ isCancelError (Error item) = true.
Proof.
  unfold isDownloadError. rewrite andb_false_iff, !negb_false_iff, String.eqb_eq. done.
Qed.

Lemma getDownloadError_empty items :
  getDownloadError items = "" <-> Forall (fun item => isDownloadError item = false) items.
Proof.
  induction items as [|item items IH]; simpl.
  - split; [constructor|done].
  - destruct (isDownloadError item) eqn:Hitem.
    + destruct (proj1 (isDownloadError_true item) Hitem) as [Hne _]. split; [done|].
      intros H. apply Forall_cons in H as [H _]. congruence.
    + rewrite IH. split; [by constructor|]. intros H. by apply Forall_cons in H as [_ H].
Qed.

Lemma getDownloadError_item items :
  getDownloadError items ≠ "" ->
  exists item, item ∈ items /\ Error item = getDownloadError items
               /\ isDownloadError item = true.
Proof.
  induction items as [|item items IH]; simpl; [done|].
  destruct (isDownloadError item) eqn:Hitem.
  - intros _. exists item. split; [apply list_elem_of_here|done].
  - intros H. destruct (IH H) as (item' & Hin & He & Hd). exists item'.
    split; [by apply list_elem_of_further|done].
Qed.

Lemma getDownloadError_clean items :
  getDownloadError items = ""
  <-> forall item, item ∈ items -> Error item = "" \/ isCancelError (Error item) = true.
Proof.
  rewrite getDownloadError_empty, Forall_forall.
  split; intros H item Hin; apply isDownloadError_false; auto.
Qed.

(** [getDownloadError] returns the empty string exactly when every entry has
    an empty error or a cancellation error, whatever the order in which the
    map is ranged over; what it returns otherwise is the error of an entry,
    and never a cancellation error. *)
Theorem getDownloadError_spec (items : list downloadResult) :
  (getDownloadError items = ""
   <-> forall item, item ∈ items -> Error item = "" \/ isCancelError (Error item) = true)
  /\ (getDownloadError items ≠ ""
      -> isCancelError (getDownloadError items) = false
         /\ exists item, item ∈ items /\ Error item = getDownloadError items)
  /\ (forall items', items ≡ₚ items' ->
        (getDownloadError items = "" <-> getDownloadError items' = "")).
Proof.
  split; [|split].
  - apply getDownloadError_clean.
  - intros H. destruct (getDownloadError_item items H) as (item & Hin & He & Hd).
    apply isDownloadError_true in Hd as [_ Hd]. rewrite <- He. eauto.
  - intros items' Hperm. rewrite !getDownloadError_empty. by rewrite Hperm.
Qed.

(** ** [download] and [getDownloadError] together *)

Lemma entriesOf_lookup items s item :
  entriesOf items s -> item ∈ items <-> exists id, result s !! id = Some item.
Proof.
  intros Hitems. unfold entriesOf in Hitems. rewrite Hitems, list_elem_of_fmap. split.
  - intros ([id r] & -> & Hin). exists id. by apply elem_of_map_to_list in Hin.
  - intros [id Hid]. exists (id, item). split; [done|]. by apply elem_of_map_to_list.
Qed.

(** After a call of [download], [getDownloadError] on the result is empty
    exactly when no item has failed with an error other than a cancellation;
    otherwise it is the wrapped error of an item that has failed so, and not
    the cancellation error that the last loop gives the other items. *)
Theorem download_error_reported (wrapError : string -> string) (continueOnError : bool)
    (request : gmap string downloader.PackageInfo) (o : rangeOrders)
    (evs : list event) (s : state) (items : list downloadResult) :
  (forall e, wrapError e ≠ "") ->
  isCancelError (wrapError contextCanceled) = true ->
  validOrders (dom request) o ->
  download wrapError continueOnError o evs = Some s ->
  entriesOf items s ->
  (getDownloadError items = ""
   <-> forall id e, failed evs id e -> isCancelError (wrapError e) = true)
  /\ (getDownloadError items ≠ ""
      -> exists id e, failed evs id e /\ isCancelError (wrapError e) = false
                      /\ getDownloadError items = wrapError e).
Proof.
  intros Hne Hcancel Hvalid Hd Hitems.
  pose proof (download_dom wrapError continueOnError Hne (dom request) o evs s Hvalid Hd)
    as Hdom.
  assert (Hkeys : forall id e, failed evs id e -> id ∈ dom request).
  { intros id e He.
    destruct (download_inv wrapError continueOnError Hne (dom request) o evs s Hvalid Hd)
      as (s1 & Hinv & _).
    apply (inv_events _ _ _ _ _ Hinv). eauto. }
  assert (Hclean : forall id r, result s !! id = Some r ->
            (forall e, failed evs id e -> isCancelError (wrapError e) = true) ->
            Error r = "" \/ isCancelError (Error r) = true).
  { intros id r Hr Hall.
    assert (Hin : id ∈ dom request) by (rewrite <- Hdom; by apply elem_of_dom).
    destruct (download_item wrapError continueOnError Hne (dom request) o evs s id
                Hvalid Hd Hin) as (r' & Hr' & _ & Hc).
    rewrite Hr in Hr'. injection Hr' as <-. destruct (Hc Hall) as [-> _].
    destruct (canceled s); auto. }
  assert (Hfail : forall id e, failed evs id e -> isCancelError (wrapError e) = false ->
            exists r, r ∈ items /\ Error r = wrapError e).
  { intros id e He Hnc.
    destruct (download_item wrapError continueOnError Hne (dom request) o evs s id
                Hvalid Hd (Hkeys id e He)) as (r & Hr & Hf & _).
    destruct (Hf e He Hnc) as [HE _]. exists r. split; [|done].
    apply (entriesOf_lookup items s r Hitems). eauto. }
  split.
  - rewrite getDownloadError_clean. split.
    + intros Hall id e He. destruct (isCancelError (wrapError e)) eqn:Hnc; [done|].
      destruct (Hfail id e He Hnc) as (r & Hin & HE).
      destruct (Hall r Hin) as [H|H]; rewrite HE in H; [by destruct (Hne e)|congruence].
    + intros Hall item Hin.
      apply (entriesOf_lookup items s item Hitems) in Hin as [id Hid].
      apply (Hclean id item Hid). intros e He. by apply (Hall id).
  - intros Hsome.
    destruct (getDownloadError_item items Hsome) as (item & Hin & HE & Hnc).
    apply isDownloadError_true in Hnc as [_ Hnc]. rewrite HE in Hnc.
    apply (entriesOf_lookup items s item Hitems) in Hin as [id Hid].
    destruct (failed_cancel_dec wrapError evs id) as [(e & He & Hce)|Hall].
    + exists id, e. split; [done|]. split; [done|].
      destruct (download_item wrapError continueOnError Hne (dom request) o evs s id
                  Hvalid Hd (Hkeys id e He)) as (r & Hr & Hf & _).
      destruct (Hf e He Hce) as [HE' _]. congruence.
    + destruct (Hclean id item Hid Hall) as [H|H]; rewrite HE in H; congruence.
Qed.

(** ** File names *)

Lemma started_snoc hist ev id f :
  started (hist ++ [ev]) id f <-> started hist id f \/ ev = Start id (inr f).
Proof.
  unfold started. rewrite elem_of_app, list_elem_of_singleton. split; intros [H|H]; auto.
Qed.

Lemma fileNameOf_setError id e s id' : fileNameOf (setError id e s) id' = fileNameOf s id'.
Proof.
  unfold fileNameOf. rewrite lookup_setError.
  destruct (decide (id = id')); [|done]. by destruct (result s !! id').
Qed.

Lemma fileNameOf_setFileName id f s id' :
  fileNameOf (setFileName id f s) id'
  = if decide (id = id') then (fun _ => f) <$> fileNameOf s id' else fileNameOf s id'.
Proof.
  unfold fileNameOf. rewrite lookup_setFileName.
  destruct (decide (id = id')); [|done]. by destruct (result s !! id').
Qed.

Section FileNames.

Variable wrapError : string -> string.
Variable continueOnError : bool.

Lemma fileNameOf_handleError id err s id' :
  fileNameOf (handleError wrapError continueOnError id err s) id' = fileNameOf s id'.
Proof.
  unfold handleError.
  assert (H : fileNameOf (updateStatus id ErrorStatus (wrapError err)
                            (setError id (wrapError err) s)) id' = fileNameOf s id')
    by apply fileNameOf_setError.
  destruct (isCancelError _), continueOnError; done.
Qed.

Lemma handleError_result_dom id err s :
  dom (result (handleError wrapError continueOnError id err s)) = dom (result s).
Proof.
  unfold handleError.
  destruct (isCancelError _), continueOnError; simpl; try done; by rewrite dom_alter_L.
Qed.

Lemma handleError_keeps_queue id err s :
  queue (handleError wrapError continueOnError id err s) = queue s
  /\ waiting (handleError wrapError continueOnError id err s) = waiting s.
Proof. unfold handleError. by destruct (isCancelError _), continueOnError. Qed.

Lemma step_fileInv hist ev s s' :
  fileInv hist s -> step wrapError continueOnError ev s = Some s' ->
  fileInv (hist ++ [ev]) s'.
Proof.
  intros [Hnd Hdom Hq Hgiven Hempty] Hstep.
  assert (Hother : forall id, (forall f, ev ≠ Start id (inr f)) ->
            forall f, started (hist ++ [ev]) id f <-> started hist id f).
  { intros id Hev f. rewrite started_snoc. split; [|auto]. intros [H|H]; [done|].
    by destruct (Hev f). }
  assert (Hquiet : (forall id f, ev ≠ Start id (inr f)) ->
            queue s' ⊆ queue s -> NoDup (queue s') ->
            dom (result s') = dom (result s) ->
            (forall id, fileNameOf s' id = fileNameOf s id) ->
            fileInv (hist ++ [ev]) s').
  { intros Hev Hsub Hnd' Hd Hf. split.
    - done.
    - intros id Hin. rewrite Hd. apply Hdom. by apply Hsub.
    - intros id f Hin. rewrite Hother by (intros f'; apply Hev). apply Hq. by apply Hsub.
    - intros id f. rewrite Hother by (intros f'; apply Hev). rewrite Hf. apply Hgiven.
    - intros id. rewrite Hd, Hf. intros Hin Hns. apply Hempty; [done|].
      intros f Hs. apply (Hns f). apply Hother; [intros f'; apply Hev|done]. }
  destruct ev as [id r|id r|]; simpl in Hstep.
  - destruct (queue s) as [|next rest] eqn:Hqueue; [done|].
    destruct (decide (id = next)) as [<-|]; [|done].
    apply NoDup_cons in Hnd as [Hnotin Hnd].
    destruct r as [err|fileName]; injection Hstep as <-.
    + apply Hquiet.
      * intros id' f. discriminate.
      * simpl. destruct continueOnError; set_solver.
      * simpl. destruct continueOnError; [done|constructor].
      * simpl. apply handleError_result_dom.
      * intros id'. simpl. apply fileNameOf_handleError.
    + assert (Hin : id ∈ dom (result s)) by (apply Hdom; set_solver).
      assert (Hfresh : forall f, ~ started hist id f) by (intros f; apply Hq; set_solver).
      split; simpl.
      * done.
      * intros id' Hin'. rewrite dom_alter_L. apply Hdom. set_solver.
      * intros id' f Hin'. rewrite started_snoc. intros [H|H].
        -- apply (Hq id' f); [set_solver|done].
        -- injection H as <- _. done.
      * intros id' f. rewrite started_snoc. intros H.
        assert (Hf : fileNameOf (setFileName id fileName s) id' = Some f);
          [|exact Hf].
        rewrite fileNameOf_setFileName. destruct (decide (id = id')) as [<-|Hne].
        -- destruct H as [H|H]; [by destruct (Hfresh f)|]. injection H as <-.
           rewrite (Hempty id Hin Hfresh). done.
        -- destruct H as [H|H]; [by apply Hgiven|]. injection H as <- _. done.
      * intros id' Hin' Hns. rewrite dom_alter_L in Hin'.
        assert (Hf : fileNameOf (setFileName id fileName s) id' = Some "");
          [|exact Hf].
        rewrite fileNameOf_setFileName. destruct (decide (id = id')) as [<-|Hne].
        -- destruct (Hns fileName). apply started_snoc. by right.
        -- apply Hempty; [done|]. intros f Hs. apply (Hns f). apply started_snoc. by left.
  - destruct (decide (id ∈ waiting s)); [|done].
    destruct r as [err|]; injection Hstep as <-.
    + apply Hquiet.
      * intros id' f. discriminate.
      * by rewrite (proj1 (handleError_keeps_queue _ _ _)).
      * by rewrite (proj1 (handleError_keeps_queue _ _ _)).
      * by rewrite handleError_result_dom.
      * intros id'. by rewrite fileNameOf_handleError.
    + apply Hquiet; done.
  - injection Hstep as <-. apply Hquiet; done.
Qed.

Lemma exec_fileInv evs : forall hist s s',
  fileInv hist s -> exec wrapError continueOnError evs s = Some s' ->
  fileInv (hist ++ evs) s'.
Proof.
  induction evs as [|ev evs IH]; intros hist s s' Hinv Hexec; simpl in Hexec.
  - injection Hexec as <-. by rewrite app_nil_r.
  - destruct (step wrapError continueOnError ev s) as [s1|] eqn:Hstep; [|done].
    replace (hist ++ ev :: evs) with ((hist ++ [ev]) ++ evs) by (by rewrite <- app_assoc).
    eapply IH; [|exact Hexec]. by eapply step_fileInv.
Qed.

Lemma cancelItem_fileNameOf order id : forall s,
  fileNameOf (foldl (cancelItem wrapError) s order) id = fileNameOf s id.
Proof.
  induction order as [|x order IH]; intros s; simpl; [done|].
  rewrite IH. unfold cancelItem. destruct (result s !! x) as [item|]; [|done].
  destruct (String.eqb (Error item) ""); [|done]. apply fileNameOf_setError.
Qed.

Lemma initItem_queue order : forall s,
  queue (foldl initItem s order) = queue s /\ waiting (foldl initItem s order) = waiting s
  /\ canceled (foldl initItem s order) = canceled s.
Proof.
  induction order as [|x order IH]; intros s; simpl; [done|].
  destruct (IH (initItem s x)) as (-> & -> & ->). done.
Qed.

Lemma initItem_entries order : forall s id,
  id ∈ order -> result (foldl initItem s order) !! id = Some {| FileName := ""; Error := "" |}.
Proof.
  induction order as [|x order IH] using rev_ind; intros s id Hin.
  - by apply elem_of_nil in Hin.
  - rewrite foldl_app. simpl. destruct (decide (id = x)) as [->|Hne].
    + apply lookup_insert_eq.
    + rewrite lookup_insert_ne by done. apply IH. set_solver.
Qed.

Lemma initItem_result_dom order : forall s,
  dom (result (foldl initItem s order)) = list_to_set order ∪ dom (result s).
Proof.
  induction order as [|x order IH]; intros s; simpl; [set_solver|].
  rewrite IH. simpl. rewrite dom_insert_L. set_solver.
Qed.

(** The [FileName] of the entry of an id is the name that [Download] gave
    for the id, and empty when [Download] failed for the id or was not called
    for it. *)
Theorem download_file_names (request : gmap string downloader.PackageInfo)
    (o : rangeOrders) (evs : list event) (s : state) (id : string) :
  validOrders (dom request) o ->
  download wrapError continueOnError o evs = Some s ->
  id ∈ dom request ->
  (forall f, started evs id f -> fileNameOf s id = Some f)
  /\ ((forall f, ~ started evs id f) -> fileNameOf s id = Some "").
Proof.
  intros ([Hnd1 Hk1] & [Hnd2 Hk2] & _) Hd Hin. unfold download in Hd.
  set (s0 := foldl initItem _ _) in Hd.
  destruct (initItem_queue (initOrder o)
              {| result := ∅; notified := []; canceled := false;
                 queue := startOrder o; waiting := [] |}) as (Hq & Hw & _).
  fold s0 in Hq, Hw. simpl in Hq, Hw.
  assert (Hdom0 : dom (result s0) = dom request).
  { unfold s0. rewrite initItem_result_dom, Hk1. simpl. set_solver. }
  assert (Hinv0 : fileInv [] s0).
  { split.
    - by rewrite Hq.
    - intros id'. rewrite Hq, Hdom0, <- Hk2. set_solver.
    - intros id' f _ H. by apply elem_of_nil in H.
    - intros id' f H. by apply elem_of_nil in H.
    - intros id'. rewrite Hdom0, <- Hk1. intros Hin' _. unfold fileNameOf, s0.
      rewrite initItem_entries by set_solver. done. }
  destruct (exec wrapError continueOnError evs s0) as [s1|] eqn:Hexec; [|done].
  pose proof (exec_fileInv evs [] s0 s1 Hinv0 Hexec) as [_ _ _ Hgiven Hempty].
  simpl in Hgiven, Hempty.
  assert (Hdom1 : id ∈ dom (result s1)).
  { assert (Hexec_dom : forall evs s s', exec wrapError continueOnError evs s = Some s' ->
              dom (result s') = dom (result s)).
    { clear. induction evs as [|ev evs IH]; intros s s' H; simpl in H.
      - by injection H as <-.
      - destruct (step wrapError continueOnError ev s) as [s1|] eqn:Hstep; [|done].
        rewrite (IH _ _ H). clear IH H. destruct ev as [id r|id r|]; simpl in Hstep.
        + destruct (queue s) as [|next rest]; [done|].
          destruct (decide (id = next)); [|done].
          destruct r; injection Hstep as <-; simpl.
          * apply handleError_result_dom.
          * by rewrite dom_alter_L.
        + destruct (decide (id ∈ waiting s)); [|done].
          destruct r; injection Hstep as <-; simpl; [|done].
          by rewrite handleError_result_dom.
        + by injection Hstep as <-. }
    rewrite (Hexec_dom _ _ _ Hexec), Hdom0. done. }
  destruct (queue s1); [|done]. destruct (waiting s1); [|done]. injection Hd as <-.
  assert (Hsame : fileNameOf (if canceled s1
                              then foldl (cancelItem wrapError) s1 (cancelOrder o)
                              else s1) id = fileNameOf s1 id).
  { destruct (canceled s1); [apply cancelItem_fileNameOf|done]. }
  rewrite Hsame. split; [intros f; apply Hgiven|by apply Hempty].
Qed.

(** ** Complete runs *)

Lemma sequentialRun_exec (answer : answers) (ids : list string) : forall s,
  queue s = ids -> waiting s = [] ->
  exists s', exec wrapError continueOnError (sequentialRun continueOnError answer ids) s
             = Some s'
             /\ queue s' = [] /\ waiting s' = [].
Proof.
  induction ids as [|id rest IH]; intros s Hq Hw; simpl.
  - by exists s.
  - destruct (answer id).1 as [err|fileName] eqn:Ha.
    + cbn [exec step]. rewrite Hq. destruct (decide (id = id)); [|done].
      set (s1 := setQueue _ _).
      assert (Hw1 : waiting s1 = [])
        by (unfold s1; simpl; by rewrite (proj2 (handleError_keeps_queue _ _ _))).
      destruct continueOnError eqn:Hc.
      * apply IH; [done|exact Hw1].
      * exists s1. by rewrite Hw1.
    + cbn [exec step]. rewrite Hq. destruct (decide (id = id)); [|done].
      set (s1 := setQueue rest _).
      assert (Hw1 : waiting s1 = [id]) by (unfold s1; simpl; by rewrite Hw).
      rewrite Hw1. destruct (decide (id ∈ [id])) as [_|Hn]; [|set_solver].
      assert (Hfilter : filter (fun x => x ≠ id) [id] = []).
      { rewrite filter_cons. destruct (decide (id ≠ id)); done. }
      rewrite Hfilter. destruct (answer id).2 as [err|].
      * apply IH; [by rewrite (proj1 (handleError_keeps_queue _ _ _))
                  |by rewrite (proj2 (handleError_keeps_queue _ _ _))].
      * apply IH; done.
Qed.

(** Whatever [Download] and [Wait] answer, the run in which each item is
    waited for before the next one is started is a complete run: the start
    loop ends, no goroutine is left, and [download] returns a result. *)
Theorem download_returns (o : rangeOrders) (answer : answers) :
  exists s, download wrapError continueOnError o
              (sequentialRun continueOnError answer (startOrder o)) = Some s.
Proof.
  unfold download. set (s0 := foldl initItem _ _).
  destruct (initItem_queue (initOrder o)
              {| result := ∅; notified := []; canceled := false;
                 queue := startOrder o; waiting := [] |}) as (Hq & Hw & _).
  fold s0 in Hq, Hw. simpl in Hq, Hw.
  destruct (sequentialRun_exec answer (startOrder o) s0 Hq Hw) as (s' & -> & -> & ->).
  eauto.
Qed.

End FileNames.

(** ** Downloads that continue on error *)

Lemma handleError_continue wrapError id err s :
  canceled (handleError wrapError true id err s) = canceled s.
Proof. unfold handleError. by destruct (isCancelError _). Qed.

Lemma step_continue wrapError ev s s1 :
  step wrapError true ev s = Some s1 ->
  (forall id, id ∈ queue s -> id ∈ queue s1 \/ exists r, ev = Start id r)
  /\ (forall id, id ∈ waiting s -> id ∈ waiting s1 \/ exists r, ev = Finish id r)
  /\ (forall id f, ev = Start id (inr f) -> id ∈ waiting s1)
  /\ (canceled s1 = true <-> canceled s = true \/ ev = Cancel).
Proof.
  intros Hstep. destruct ev as [id r|id r|]; simpl in Hstep.
  - destruct (queue s) as [|next rest] eqn:Hq; [done|].
    destruct (decide (id = next)) as [<-|]; [|done].
    destruct r as [err|fileName]; injection Hstep as <-;
      unfold setQueue, setWaiting, setFileName; cbn [queue waiting canceled].
    + split; [|destruct (isCancelError (wrapError err)); simpl;
                 (split; [by left|split; [done|]])].
      * intros id' [->|Hin]%elem_of_cons; [right; eauto|by left].
      * split; [by left|]. by intros [?|?].
      * split; [by left|]. by intros [?|?].
    + split; [|split; [|split]].
      * intros id' [->|Hin]%elem_of_cons; [right; eauto|by left].
      * intros id' Hin. left. apply elem_of_app. by left.
      * intros id' f [= <- _]. apply elem_of_app. right. apply list_elem_of_here.
      * split; [by left|]. by intros [?|?].
  - destruct (decide (id ∈ waiting s)) as [Hin|]; [|done].
    assert (Hw : forall id', id' ∈ waiting s ->
              id' ∈ filter (fun x => x ≠ id) (waiting s) \/ exists r0, Finish id r = Finish id' r0).
    { intros id' Hin'. destruct (decide (id' = id)) as [->|Hne]; [right; eauto|].
      left. by apply list_elem_of_filter. }
    destruct r as [err|]; injection Hstep as <-.
    + destruct (isCancelError (wrapError err)); simpl.
      * split; [by left|]. split; [done|]. split; [done|].
        split; [by left|]. by intros [?|?].
      * split; [by left|]. split; [done|]. split; [done|].
        split; [by left|]. by intros [?|?].
    + simpl. split; [by left|]. split; [done|]. split; [done|].
      split; [by left|]. by intros [?|?].
  - injection Hstep as <-. simpl. split; [by left|]. split; [by left|]. split; [done|].
    split; [by right|done].
Qed.

Lemma exec_continue wrapError evs : forall s s',
  exec wrapError true evs s = Some s' ->
  (forall id, id ∈ queue s -> id ∈ queue s' \/ exists r, Start id r ∈ evs)
  /\ (forall id, id ∈ waiting s -> id ∈ waiting s' \/ exists r, Finish id r ∈ evs)
  /\ (forall id f, Start id (inr f) ∈ evs -> id ∈ waiting s' \/ exists r, Finish id r ∈ evs)
  /\ (canceled s' = true <-> canceled s = true \/ Cancel ∈ evs).
Proof.
  induction evs as [|ev evs IH]; intros s s' Hexec; simpl in Hexec.
  - injection Hexec as <-. split; [by left|]. split; [by left|].
    split; [by intros id f ?%elem_of_nil|].
    split; [by left|]. by intros [?|?%elem_of_nil].
  - destruct (step wrapError true ev s) as [s1|] eqn:Hstep; [|done].
    destruct (step_continue _ _ _ _ Hstep) as (Hq1 & Hw1 & Hs1 & Hc1).
    destruct (IH s1 s' Hexec) as (Hq & Hw & Hs & Hc).
    assert (Hwait : forall id, id ∈ waiting s1 ->
              id ∈ waiting s' \/ exists r, Finish id r ∈ ev :: evs).
    { intros id Hin. destruct (Hw id Hin) as [?|[r Hr]]; [by left|].
      right. exists r. by apply list_elem_of_further. }
    split; [|split; [|split]].
    + intros id Hin. destruct (Hq1 id Hin) as [Hin1|[r ->]].
      * destruct (Hq id Hin1) as [?|[r Hr]]; [by left|].
        right. exists r. by apply list_elem_of_further.
      * right. exists r. apply list_elem_of_here.
    + intros id Hin. destruct (Hw1 id Hin) as [Hin1|[r ->]]; [by apply Hwait|].
      right. exists r. apply list_elem_of_here.
    + intros id f [<-|Hin]%elem_of_cons.
      * apply Hwait. by eapply Hs1.
      * destruct (Hs id f Hin) as [?|[r Hr]]; [by left|].
        right. exists r. by apply list_elem_of_further.
    + rewrite Hc, Hc1, elem_of_cons. split.
      * intros [[H|H]|H]; [by left|right; rewrite H; by left|right; by right].
      * intros [H|[H|H]]; [left; by left|left; right; by rewrite H|by right].
Qed.

Lemma cancelItem_canceled wrapError order : forall s,
  canceled (foldl (cancelItem wrapError) s order) = canceled s.
Proof.
  induction order as [|x order IH]; intros s; simpl; [done|].
  rewrite IH. unfold cancelItem. destruct (result s !! x) as [item|]; [|done].
  by destruct (String.eqb (Error item) "").
Qed.

(** With [continueOnError], [Download] is called for every item of the
    request whatever the other items answer, every item for which it gave a
    result has returned from [Wait] when [download] returns, and the context
    of the group is cancelled only when that of the caller is. *)
Theorem continue_on_error_runs_every_item (wrapError : string -> string)
    (request : gmap string downloader.PackageInfo) (o : rangeOrders)
    (evs : list event) (s : state) :
  validOrders (dom request) o ->
  download wrapError true o evs = Some s ->
  (forall id, id ∈ dom request -> exists r, Start id r ∈ evs)
  /\ (forall id f, started evs id f -> exists r, Finish id r ∈ evs)
  /\ (canceled s = true <-> Cancel ∈ evs).
Proof.
  intros (_ & [_ Hk2] & _) Hd. unfold download in Hd.
  set (s0 := foldl initItem _ _) in Hd.
  destruct (initItem_queue (initOrder o)
              {| result := ∅; notified := []; canceled := false;
                 queue := startOrder o; waiting := [] |}) as (Hq0 & Hw0 & Hc0).
  fold s0 in Hq0, Hw0, Hc0. simpl in Hq0, Hw0, Hc0.
  destruct (exec wrapError true evs s0) as [s1|] eqn:Hexec; [|done].
  destruct (exec_continue _ _ _ _ Hexec) as (Hq & Hw & Hs & Hc).
  destruct (queue s1) eqn:Hq1; [|done]. destruct (waiting s1) eqn:Hw1; [|done].
  injection Hd as <-.
  split; [|split].
  - intros id Hin. rewrite <- Hk2 in Hin. apply elem_of_list_to_set in Hin.
    rewrite Hq0 in Hq. destruct (Hq id Hin) as [Hnil|?]; [by apply elem_of_nil in Hnil|done].
  - intros id f Hst. destruct (Hs id f Hst) as [Hnil|?]; [by apply elem_of_nil in Hnil|done].
  - assert (Hfinal : canceled (if canceled s1 then foldl (cancelItem wrapError) s1 (cancelOrder o)
                               else s1) = canceled s1).
    { destruct (canceled s1) eqn:Hcan; [|done]. by rewrite cancelItem_canceled. }
    rewrite Hfinal, Hc, Hc0. split; [by intros [?|?]|by right].
Qed.

Import GroupDownloaderScenarios.

Lemma download_file_names_witness :
  match download wrapWithPlace false orders3 failingRun with
  | Some s =>
      (forall f, started failingRun "1" f -> fileNameOf s "1" = Some f)
      /\ ((forall f, ~ started failingRun "1" f) -> fileNameOf s "1" = Some "")
  | None => False
  end.
Proof.
  destruct (download wrapWithPlace false orders3 failingRun) as [s|] eqn:Hrun.
  - apply (download_file_names wrapWithPlace false request3 orders3 failingRun s "1").
    + exact validOrders3.
    + exact Hrun.
    + compute_done.
  - vm_compute in Hrun. discriminate Hrun.
Defined.

Lemma download_error_reported_witness :
  match download wrapWithPlace false orders3 failingRun with
  | Some s =>
      (getDownloadError (map_to_list (result s)).*2 = ""
       <-> forall id e, failed failingRun id e -> isCancelError (wrapWithPlace e) = true)
      /\ (getDownloadError (map_to_list (result s)).*2 ≠ ""
          -> exists id e, failed failingRun id e /\ isCancelError (wrapWithPlace e) = false
               /\ getDownloadError (map_to_list (result s)).*2 = wrapWithPlace e)
  | None => False
  end.
Proof.
  destruct (download wrapWithPlace false orders3 failingRun) as [s|] eqn:Hrun.
  - apply (download_error_reported wrapWithPlace false request3 orders3 failingRun s).
    + exact wrapWithPlace_nonempty.
    + vm_compute. reflexivity.
    + exact validOrders3.
    + exact Hrun.
    + unfold entriesOf. reflexivity.
  - vm_compute in Hrun. discriminate Hrun.
Defined.

Lemma continue_on_error_runs_every_item_witness :
  let evs := [Start "1" (inl "no space"); Start "0" (inr "file0"); Start "2" (inr "file2");
              Finish "2" (Some "download error"); Finish "0" None] in
  match download wrapWithPlace true orders3 evs with
  | Some s =>
      (forall id, id ∈ dom request3 -> exists r, Start id r ∈ evs)
      /\ (forall id f, started evs id f -> exists r, Finish id r ∈ evs)
      /\ (canceled s = true <-> Cancel ∈ evs)
  | None => False
  end.
Proof.
  intros evs.
  destruct (download wrapWithPlace true orders3 evs) as [s|] eqn:Hrun.
  - apply (continue_on_error_runs_every_item wrapWithPlace request3 orders3 evs s).
    + exact validOrders3.
    + exact Hrun.
  - vm_compute in Hrun. discriminate Hrun.
Defined.

End DownloadFacts.

(** * Launcher: further properties *)

Module LauncherFacts.
Import launcher LauncherProps PlacementProps LauncherSpec.

(** ** Sorting *)

Lemma chain_snoc {A : Type} (R : A -> A -> Prop) (l : list A) (x : A) :
  chain R (l ++ [x]) <-> chain R l /\ (forall y, last l = Some y -> R y x).
Proof.
  induction l as [|a [|b l] IH].
  - simpl. split; [|done]. intros _. split; [done|]. by intros y.
  - simpl. split.
    + intros [H _]. split; [done|]. by intros y [= <-].
    + intros [_ H]. split; [|done]. by apply H.
  - change (chain R ((a :: b :: l) ++ [x])) with (R a b /\ chain R ((b :: l) ++ [x])).
    change (chain R (a :: b :: l)) with (R a b /\ chain R (b :: l)).
    change (last (a :: b :: l)) with (last (b :: l)). rewrite IH. tauto.
Qed.

Lemma chain_rev {A : Type} (R : A -> A -> Prop) (l : list A) :
  chain R (rev l) <-> chain (fun a b => R b a) l.
Proof.
  induction l as [|a l IH]; [done|].
  simpl rev. rewrite chain_snoc, IH. destruct l as [|b l].
  - simpl. split; [done|]. intros _. split; [done|]. by intros y.
  - change (chain (fun a0 b0 => R b0 a0) (a :: b :: l))
      with (R b a /\ chain (fun a0 b0 => R b0 a0) (b :: l)).
    assert (Hlast : last (rev (b :: l)) = Some b).
    { simpl. by rewrite last_snoc. }
    rewrite Hlast. split.
    + intros [H1 H2]. split; [by apply H2|done].
    + intros [H1 H2]. split; [done|]. by intros y [= <-].
Qed.

Lemma insertLeft_chain {A : Type} (less : A -> A -> bool) (x : A) (prefix : list A) :
  asymmetric less ->
  chain (fun a b => less a b = false) prefix ->
  chain (fun a b => less a b = false) (insertLeft less x prefix).
Proof.
  intros Hasym. induction prefix as [|y rest IH]; [done|]. intros Hchain.
  cbn [insertLeft]. destruct (less x y) eqn:Hxy.
  - assert (Hrest : chain (fun a b => less a b = false) rest)
      by (destruct rest; [done|apply Hchain]).
    specialize (IH Hrest). destruct rest as [|z rest'].
    + simpl. split; [by apply Hasym|done].
    + cbn [insertLeft] in *. destruct (less x z) eqn:Hxz.
      * split; [apply Hchain|exact IH].
      * split; [by apply Hasym|exact IH].
  - by split.
Qed.

(** [sortSlice] leaves the slice ordered when [less] is asymmetric. *)
Lemma sortSlice_ordered {A : Type} (less : A -> A -> bool) (l : list A) :
  asymmetric less -> ordered less (sortSlice less l).
Proof.
  intros Hasym. unfold ordered, sortSlice. apply chain_rev.
  apply (foldl_preserves (chain (fun a b => less a b = false))); [done|].
  intros prefix x H _. by apply insertLeft_chain.
Qed.

Lemma chain_impl {A : Type} (R R' : A -> A -> Prop) (l : list A) :
  (forall a b, R a b -> R' a b) -> chain R l -> chain R' l.
Proof.
  intros HR. induction l as [|a [|b l] IH]; [done..|].
  intros [H1 H2]. split; [by apply HR|by apply IH].
Qed.

Lemma String_ltb_asymmetric : asymmetric String.ltb.
Proof.
  intros a b. unfold String.ltb. rewrite (String.compare_antisym a b).
  by destruct (String.compare b a).
Qed.

Lemma instanceLess_asymmetric : asymmetric instanceLess.
Proof.
  intros a b. unfold instanceLess.
  destruct (N.eqb_spec (cloudprotocol.Priority a) (cloudprotocol.Priority b)) as [Heq|Hne].
  - rewrite Heq, N.eqb_refl. apply String_ltb_asymmetric.
  - destruct (N.eqb_spec (cloudprotocol.Priority b) (cloudprotocol.Priority a)); [congruence|].
    rewrite !N.ltb_lt, N.ltb_ge. lia.
Qed.

Lemma instanceLess_order a b : instanceLess b a = false -> instanceOrder a b.
Proof.
  unfold instanceLess, instanceOrder.
  destruct (N.eqb_spec (cloudprotocol.Priority b) (cloudprotocol.Priority a)) as [Heq|Hne].
  - intros H. by right.
  - rewrite N.ltb_ge. intros H. left. lia.
Qed.

(** ** The filters over the nodes *)

Lemma elem_of_List_filter {A : Type} (f : A -> bool) (l : list A) (x : A) :
  x ∈ List.filter f l <-> x ∈ l /\ f x = true.
Proof. rewrite !list_elem_of_In. apply filter_In. Qed.

Lemma sublist_List_filter {A : Type} (f : A -> bool) (l : list A) :
  sublist (List.filter f l) l.
Proof.
  induction l as [|x l IH]; simpl; [constructor|].
  destruct (f x); by constructor.
Qed.

Lemma length_eqb_0 {A : Type} (l : list A) : Nat.eqb (length l) 0 = true <-> l = [].
Proof. by destruct l. Qed.

Lemma length_eqb_0_false {A : Type} (l : list A) : Nat.eqb (length l) 0 = false <-> l ≠ [].
Proof. by destruct l. Qed.



Lemma getNodeByRunner_spec (ns : list nodeStatus) allNodes runner i :
  i ∈ getNodeByRunner ns allNodes runner
  <-> i ∈ allNodes /\ exists node, ns !! i = Some node /\ supportsRunner node runner.
Proof.
  unfold getNodeByRunner. rewrite elem_of_List_filter. unfold supportsRunner.
  destruct (ns !! i) as [node|].
  - rewrite orb_true_iff, andb_true_iff, !bool_decide_eq_true, length_eqb_0.
    split.
    + intros [Hin H]. split; [done|]. by exists node.
    + intros [Hin (node' & [= <-] & H)]. done.
  - split; [by intros [_ ?]|]. by intros [_ (node & ? & _)].
Qed.



Lemma getNodesByLabels_sublist (ns : list nodeStatus) nodes desiredLabels :
  sublist (getNodesByLabels ns nodes desiredLabels) nodes.
Proof.
  unfold getNodesByLabels. destruct (Nat.eqb _ 0); [done|apply sublist_List_filter].
Qed.

Lemma getNodesByResources_sublist (ns : list nodeStatus) nodes desiredResources :
  sublist (getNodesByResources ns nodes desiredResources) nodes.
Proof.
  unfold getNodesByResources. destruct (Nat.eqb _ 0); [done|apply sublist_List_filter].
Qed.

Lemma getNodesByStaticResources_valid (ns : list nodeStatus) (allNodes : list nat)
    (serviceInfo : imagemanager.ServiceInfo) (instanceInfo : cloudprotocol.InstanceInfo) :
  (getNodesByStaticResources ns allNodes serviceInfo instanceInfo).2 = None ->
  (getNodesByStaticResources ns allNodes serviceInfo instanceInfo).1 ≠ []
  /\ forall i, i ∈ (getNodesByStaticResources ns allNodes serviceInfo instanceInfo).1 ->
       is_Some (ns !! i).
Proof.
  unfold getNodesByStaticResources.
  destruct (Nat.eqb (length (getNodeByRunner _ _ _)) 0); [done|].
  destruct (Nat.eqb (length (getNodesByLabels _ _ _)) 0); [done|].
  destruct (Nat.eqb (length (getNodesByResources _ _ _)) 0) eqn:Hlen; [done|].
  intros _. simpl. split; [by apply length_eqb_0_false|].
  intros i Hi.
  eapply elem_of_sublist in Hi; [|apply getNodesByResources_sublist].
  eapply elem_of_sublist in Hi; [|apply getNodesByLabels_sublist].
  apply getNodeByRunner_spec in Hi as (_ & node & Hnode & _). eauto.
Qed.


(** ** Devices *)

Lemma hasDesiredDevice_spec devices deviceName :
  hasDesiredDevice devices deviceName = true
  <-> exists d, d ∈ devices /\ name d = deviceName
                /\ (sharedCount d = 0%Z \/ allocatedCount d ≠ sharedCount d).
Proof.
  split; [apply hasDesiredDevice_elem|].
  intros (d & Hin & Hname & Hcount). induction devices as [|d0 devices IH].
  - by apply elem_of_nil in Hin.
  - simpl. destruct (String.eqb_spec deviceName (name d0)) as [Heq|Hne]; simpl.
    + destruct (Z.eqb_spec (sharedCount d0) 0) as [|Hs]; [done|]. simpl.
      destruct (Z.eqb_spec (allocatedCount d0) (sharedCount d0)) as [Ha|]; [|done]. simpl.
      apply elem_of_cons in Hin as [->|Hin]; [|by apply IH].
      destruct Hcount; congruence.
    + apply elem_of_cons in Hin as [->|Hin]; [congruence|by apply IH].
Qed.

Lemma nodeHasDesiredDevices_spec node devices :
  nodeHasDesiredDevices node devices = true <-> hasDevices node devices.
Proof.
  unfold nodeHasDesiredDevices, hasDevices. rewrite forallb_forall. split.
  - intros H sd Hsd. apply hasDesiredDevice_spec, H. by apply list_elem_of_In.
  - intros H sd Hsd. apply hasDesiredDevice_spec, H. by apply list_elem_of_In.
Qed.

Lemma getNodesByDevices_kept (ns : list nodeStatus) (availableNodes : list nat)
    (desiredDevices : list aostypes.ServiceDevice) :
  (getNodesByDevices ns availableNodes desiredDevices).2 = None ->
  sublist (getNodesByDevices ns availableNodes desiredDevices).1 availableNodes
  /\ (availableNodes ≠ [] -> (getNodesByDevices ns availableNodes desiredDevices).1 ≠ []).
Proof.
  unfold getNodesByDevices. destruct (Nat.eqb (length desiredDevices) 0); [done|].
  destruct (Nat.eqb (length (List.filter _ availableNodes)) 0) eqn:Hlen; [done|].
  intros _. simpl. split; [apply sublist_List_filter|].
  intros _. by apply length_eqb_0_false.
Qed.

(** [getNodesByDevices] returns all the nodes it is given when the service
    asks for no device; otherwise it returns, in order, those on which every
    device asked for has a shared count of 0 or an allocation left, and the
    error "no available device found" exactly when there is none. *)
Theorem device_filter_spec (ns : list nodeStatus) (availableNodes : list nat)
    (desiredDevices : list aostypes.ServiceDevice) :
  let r := getNodesByDevices ns availableNodes desiredDevices in
  (desiredDevices = [] -> r = (availableNodes, None))
  /\ (desiredDevices ≠ [] ->
      (forall i, i ∈ r.1 <-> i ∈ availableNodes
                              /\ exists node, ns !! i = Some node
                                              /\ hasDevices node desiredDevices)
      /\ (r.2 = None <-> r.1 ≠ [])
      /\ (r.2 = None \/ r.2 = Some "no available device found"))
  /\ sublist r.1 availableNodes.
Proof.
  intros r. unfold r, getNodesByDevices.
  destruct (Nat.eqb (length desiredDevices) 0) eqn:Hlen.
  - apply length_eqb_0 in Hlen. split; [done|]. split; [done|]. done.
  - apply length_eqb_0_false in Hlen. split; [done|].
    set (nodes := List.filter _ availableNodes).
    assert (Hnodes : forall i, i ∈ nodes <-> i ∈ availableNodes
                      /\ exists node, ns !! i = Some node /\ hasDevices node desiredDevices).
    { intros i. unfold nodes. rewrite elem_of_List_filter. destruct (ns !! i) as [node|].
      - rewrite nodeHasDesiredDevices_spec. split.
        + intros [Hin H]. split; [done|]. by exists node.
        + intros [Hin (node' & [= <-] & H)]. done.
      - split; [by intros [_ ?]|]. by intros [_ (node & ? & _)]. }
    assert (Hsub : sublist nodes availableNodes) by apply sublist_List_filter.
    destruct (Nat.eqb (length nodes) 0) eqn:Hn; simpl.
    + apply length_eqb_0 in Hn. split; [|done]. intros _. split; [done|].
      split; [by rewrite Hn|by right].
    + apply length_eqb_0_false in Hn. split; [|done]. intros _. split; [done|].
      split; [done|by left].
Qed.

(** ** Choosing among the nodes *)

Lemma maxNodePriority_spec ns rest : forall best,
  let m := maxNodePriority ns best rest in
  (m = best /\ forall j, j ∈ rest -> (nodePriority ns j <= nodePriority ns best)%N)
  \/ (exists before after,
        rest = before ++ m :: after
        /\ (nodePriority ns best < nodePriority ns m)%N
        /\ (forall j, j ∈ before -> (nodePriority ns j < nodePriority ns m)%N)
        /\ (forall j, j ∈ after -> (nodePriority ns j <= nodePriority ns m)%N)).
Proof.
  induction rest as [|i rest IH]; intros best; simpl.
  - left. split; [done|]. intros j Hj. by apply elem_of_nil in Hj.
  - destruct (N.ltb_spec (nodePriority ns best) (nodePriority ns i)) as [Hlt|Hge].
    + right. destruct (IH i) as [[Hm Hall]|(before & after & Hr & Hlt' & Hb & Ha)].
      * exists [], rest. simpl in *. rewrite Hm. repeat split; try done.
        intros j Hj. by apply elem_of_nil in Hj.
      * exists (i :: before), after. simpl in *. rewrite <- Hr. repeat split; try done.
        -- lia.
        -- intros j Hj. apply elem_of_cons in Hj as [->|Hj]; [done|by apply Hb].
    + destruct (IH best) as [[Hm Hall]|(before & after & Hr & Hlt' & Hb & Ha)].
      * left. simpl in *. split; [done|].
        intros j Hj. apply elem_of_cons in Hj as [->|Hj]; [done|by apply Hall].
      * right. exists (i :: before), after. simpl in *. rewrite <- Hr.
        repeat split; try done.
        intros j Hj. apply elem_of_cons in Hj as [->|Hj]; [lia|by apply Hb].
Qed.

(** [getMostPriorityNode] returns the first of the nodes of highest priority
    among those it is given: no node before it in the slice has a priority as
    high, and none after it has a higher one.  It has no result (the code
    indexes an empty slice) exactly when it is given no node. *)
Theorem most_priority_node_is_first_maximum (ns : list nodeStatus) (nodes : list nat) :
  (getMostPriorityNode ns nodes = None <-> nodes = [])
  /\ (forall i, getMostPriorityNode ns nodes = Some i ->
        exists before after,
          nodes = before ++ i :: after
          /\ (forall j, j ∈ before -> (nodePriority ns j < nodePriority ns i)%N)
          /\ (forall j, j ∈ after -> (nodePriority ns j <= nodePriority ns i)%N)).
Proof.
  destruct nodes as [|first rest]; simpl; [done|]. split; [done|].
  intros i [= <-].
  destruct (maxNodePriority_spec ns rest first)
    as [[Hm Hall]|(before & after & Hr & Hlt & Hb & Ha)]; simpl in *.
  - exists [], rest. rewrite Hm. repeat split; try done.
    intros j Hj. by apply elem_of_nil in Hj.
  - exists (first :: before), after. simpl. rewrite <- Hr. repeat split; try done.
    intros j Hj. apply elem_of_cons in Hj as [->|Hj]; [done|by apply Hb].
Qed.

Lemma getNode_Some (ns : list nodeStatus) nodeID i :
  getNode ns nodeID = Some i -> exists node, ns !! i = Some node /\ NodeID node = nodeID.
Proof.
  revert i. induction ns as [|node ns IH]; intros i; simpl; [done|].
  destruct (String.eqb_spec (NodeID node) nodeID) as [Heq|Hne].
  - intros [= <-]. by exists node.
  - destruct (getNode ns nodeID) as [j|]; [|done]. intros [= <-]. by apply IH.
Qed.

Lemma getNode_None (ns : list nodeStatus) nodeID :
  getNode ns nodeID = None <-> forall node, node ∈ ns -> NodeID node ≠ nodeID.
Proof.
  induction ns as [|node ns IH]; simpl.
  - split; [|done]. intros _ node H. by apply elem_of_nil in H.
  - destruct (String.eqb_spec (NodeID node) nodeID) as [Heq|Hne].
    + split; [done|]. intros H. destruct (H node); [apply list_elem_of_here|done].
    + destruct (getNode ns nodeID) as [j|].
      * split; [done|]. intros H.
        assert (Hx : Some j = None); [|discriminate Hx].
        apply IH. intros node' Hin. apply H. by apply list_elem_of_further.
      * split; [|done]. intros _ node' Hin.
        apply elem_of_cons in Hin as [->|Hin]; [done|]. by apply IH.
Qed.


Lemma rebalancing_sorted_Permutation (ns : list nodeStatus) (nodeID : string) :
  (getNodesForRebalancingByNodePriority ns nodeID).2 ≡ₚ ns.
Proof.
  unfold getNodesForRebalancingByNodePriority.
  destruct (getNode ns nodeID) as [i|]; [|done].
  destruct (ns !! i); simpl; [apply sortSlice_Permutation|done].
Qed.

(** [getNodesForRebalancingByNodePriority]: when no node has the id of the
    alert there is no candidate and [launcher.nodes] stays as it is;
    otherwise the candidates are, in order, the nodes with another id whose
    priority is not above that of the first node with the id of the alert,
    and [launcher.nodes] is left reordered by ascending priority, and by
    ascending node id among equal priorities, also when there is no
    candidate. *)
Theorem rebalancing_candidates_spec (ns : list nodeStatus) (nodeID : string) :
  let r := getNodesForRebalancingByNodePriority ns nodeID in
  r.2 ≡ₚ ns
  /\ ((forall node, node ∈ ns -> NodeID node ≠ nodeID) -> r = ([], ns))
  /\ (forall i, getNode ns nodeID = Some i ->
        exists issue,
          ns !! i = Some issue /\ NodeID issue = nodeID
          /\ (forall node, node ∈ r.1 <-> node ∈ ns /\ (priority node <= priority issue)%N
                                           /\ NodeID node ≠ nodeID)
          /\ sublist r.1 ns
          /\ chain rebalancingOrder r.2).
Proof.
  intros r. unfold r, getNodesForRebalancingByNodePriority.
  destruct (getNode ns nodeID) as [i|] eqn:Hget.
  - destruct (getNode_Some ns nodeID i Hget) as (issue & Hissue & Hid). rewrite Hissue. simpl.
    split; [apply sortSlice_Permutation|]. split.
    + intros Hnone. destruct (Hnone issue); [|done]. by eapply list_elem_of_lookup_2.
    + intros i' [= <-]. exists issue. split; [done|]. split; [done|]. split; [|split].
      * intros node. rewrite elem_of_List_filter, andb_true_iff, !negb_true_iff.
        rewrite N.ltb_ge, String.eqb_neq, Hid. tauto.
      * apply sublist_List_filter.
      * eapply chain_impl; [|apply sortSlice_ordered].
        -- intros a b. simpl. unfold rebalancingOrder.
           destruct (N.eqb_spec (priority b) (priority a)) as [Heq|Hne].
           ++ intros H. by right.
           ++ rewrite N.ltb_ge. intros H. left. lia.
        -- intros a b.
           destruct (N.eqb_spec (priority a) (priority b)) as [Heq|Hne].
           ++ rewrite Heq, N.eqb_refl. apply String_ltb_asymmetric.
           ++ destruct (N.eqb_spec (priority b) (priority a)); [congruence|].
              rewrite !N.ltb_lt, N.ltb_ge. lia.
  - simpl. split; [done|]. split; [done|]. done.
Qed.

Section Choosing.

Context {NetState : Type}.
Implicit Types (env : Env NetState) (l : Launcher NetState).

(** [getNodeByMonitoringData] reorders the nodes it is given and drops or
    adds none; the result is by descending free CPU for a ["cpu"] alert and
    by descending free RAM for any other. *)
Theorem monitoring_data_orders_nodes env (ns : list nodeStatus) (nodes : list nat)
    (alertType : string) :
  getNodeByMonitoringData env ns nodes alertType ≡ₚ nodes
  /\ chain (fun a b => (freeOf env ns alertType b <= freeOf env ns alertType a)%Z)
           (getNodeByMonitoringData env ns nodes alertType).
Proof.
  unfold getNodeByMonitoringData.
  destruct (Nat.eqb (length nodes) 1) eqn:Hlen.
  - split; [done|]. destruct nodes as [|x [|y nodes]]; done.
  - unfold freeOf. destruct (String.eqb alertType "cpu").
    + split; [apply sortSlice_Permutation|].
      eapply chain_impl; [|apply sortSlice_ordered].
      * intros a b H. simpl in H. by apply Z.ltb_ge in H.
      * intros a b. rewrite Z.ltb_lt, Z.ltb_ge. lia.
    + split; [apply sortSlice_Permutation|].
      eapply chain_impl; [|apply sortSlice_ordered].
      * intros a b H. simpl in H. by apply Z.ltb_ge in H.
      * intros a b. rewrite Z.ltb_lt, Z.ltb_ge. lia.
Qed.

(** [getLayersForService] succeeds exactly when [GetLayerInfo] succeeds for
    every digest, with the layers in the order of the digests; otherwise its
    error is that of the first digest for which [GetLayerInfo] fails. *)
Theorem layers_for_service_spec env (digests : list string) :
  (forall serviceLayers,
     getLayersForService env digests = Ok serviceLayers
     <-> Forall2 (fun digest layer => GetLayerInfo env digest = Ok layer)
                 digests serviceLayers)
  /\ (forall err,
        getLayersForService env digests = Err err
        <-> exists before digest after,
              digests = before ++ digest :: after
              /\ GetLayerInfo env digest = Err err
              /\ Forall (fun d => exists layer, GetLayerInfo env d = Ok layer) before).
Proof.
  induction digests as [|digest rest [IHok IHerr]]; simpl.
  - split.
    + intros serviceLayers. split.
      * intros [= <-]. constructor.
      * intros H. by apply Forall2_nil_inv_l in H as ->.
    + intros err. split; [done|]. intros (before & d & after & H & _). by destruct before.
  - destruct (GetLayerInfo env digest) as [layer|e] eqn:Hd.
    + destruct (getLayersForService env rest) as [restLayers|e] eqn:Hrest.
      * split.
        -- intros serviceLayers. split.
           ++ intros [= <-]. constructor; [done|]. by apply IHok.
           ++ intros H. apply Forall2_cons_inv_l in H as (layer' & layers' & H1 & H2 & ->).
              apply IHok in H2. congruence.
        -- intros err. split; [done|].
           intros (before & d & after & Hl & Hfail & Hbefore).
           destruct before as [|b before]; simpl in Hl; injection Hl as -> ->.
           ++ congruence.
           ++ apply Forall_cons in Hbefore as [_ Hbefore].
              assert (Hx : @Ok (list imagemanager.LayerInfo) restLayers = Err err)
                by (apply IHerr; exists before, d, after; done).
              discriminate Hx.
      * split.
        -- intros serviceLayers. split; [done|].
           intros H. apply Forall2_cons_inv_l in H as (layer' & layers' & H1 & H2 & ->).
           apply IHok in H2. done.
        -- intros err. split.
           ++ intros [= <-]. destruct (proj1 (IHerr e) eq_refl)
                as (before & d & after & -> & Hfail & Hbefore).
              exists (digest :: before), d, after. repeat split; try done.
              constructor; eauto.
           ++ intros (before & d & after & Hl & Hfail & Hbefore).
              destruct before as [|b before]; simpl in Hl; injection Hl as -> ->.
              ** congruence.
              ** apply Forall_cons in Hbefore as [_ Hbefore].
                 assert (Hx : @Err (list imagemanager.LayerInfo) e = Err err)
                   by (apply IHerr; exists before, d, after; done).
                 congruence.
    + split.
      * intros serviceLayers. split; [done|].
        intros H. apply Forall2_cons_inv_l in H as (layer' & layers' & H1 & H2 & ->).
        congruence.
      * intros err. split.
        -- intros [= <-]. exists [], digest, rest. repeat split; try done.
        -- intros (before & d & after & Hl & Hfail & Hbefore).
           destruct before as [|b before]; simpl in Hl; injection Hl as -> ->.
           ++ congruence.
           ++ apply Forall_cons in Hbefore as [[layer Hb] _]. congruence.
Qed.


End Choosing.

(** ** Releasing what was allocated *)

Lemma release_after_allocate devices serviceDevice devices' :
  Forall deviceInv devices ->
  allocateDevice devices serviceDevice = Some devices' ->
  releaseDevice devices' serviceDevice = Some devices.
Proof.
  revert devices'. induction devices as [|d rest IH]; intros devices' Hinv H; simpl in H; [done|].
  apply Forall_cons in Hinv as [Hd Hrest].
  assert (Hskip : negb (String.eqb (name d) serviceDevice) = true
                  \/ negb (Z.eqb (sharedCount d) 0) = false ->
            forall ds, option_map (cons d) (allocateDevice rest serviceDevice) = Some ds ->
            releaseDevice ds serviceDevice = Some (d :: rest)).
  { intros Hcase ds Hds. destruct (allocateDevice rest serviceDevice) as [rest'|]; [|done].
    injection Hds as <-. simpl. rewrite (IH rest' Hrest eq_refl).
    destruct Hcase as [->| ->]; [done|]. by destruct (negb (String.eqb _ _)). }
  destruct (negb (String.eqb (name d) serviceDevice)) eqn:Hname; [apply Hskip; auto|].
  destruct (negb (Z.eqb (sharedCount d) 0)) eqn:Hshared; [|apply Hskip; auto].
  destruct (Z.eqb (allocatedCount d) (sharedCount d)) eqn:Hfull; [done|].
  injection H as <-. apply Z.eqb_neq in Hfull. destruct Hd as [? ?].
  simpl. rewrite Hname, Hshared. rewrite (intWrap_id (allocatedCount d + 1)) by lia.
  destruct (Z.eqb_spec (allocatedCount d + 1) 0) as [|_]; [lia|].
  replace (allocatedCount d + 1 - 1)%Z with (allocatedCount d) by lia.
  rewrite intWrap_id by lia. by destruct d.
Qed.

Lemma allocateDevice_swap devices first second : forall devices1 devices2,
  allocateDevice devices first = Some devices1 ->
  allocateDevice devices1 second = Some devices2 ->
  exists devices1',
    allocateDevice devices second = Some devices1'
    /\ allocateDevice devices1' first = Some devices2.
Proof.
  destruct (String.eqb_spec first second) as [->|Hne]; [by eauto|].
  induction devices as [|d rest IH]; intros devices1 devices2 H1 H2; simpl in H1; [done|].
  destruct (String.eqb (name d) first) eqn:Hf; simpl in H1.
  - assert (Hsecond : String.eqb (name d) second = false).
    { apply String.eqb_eq in Hf. apply String.eqb_neq. congruence. }
    destruct (Z.eqb (sharedCount d) 0) eqn:Hshared; simpl in H1.
    + destruct (allocateDevice rest first) as [rest1|] eqn:Hr1; [|done].
      injection H1 as <-. simpl in H2. rewrite Hsecond in H2. simpl in H2.
      destruct (allocateDevice rest1 second) as [rest2|] eqn:Hr2; [|done].
      injection H2 as <-.
      destruct (IH rest1 rest2 eq_refl Hr2) as (rest1' & Ha & Hb).
      exists (d :: rest1'). simpl. rewrite Hsecond, Ha, Hf, Hshared. simpl.
      by rewrite Hb.
    + destruct (Z.eqb (allocatedCount d) (sharedCount d)) eqn:Hfull; [done|].
      injection H1 as <-. simpl in H2. rewrite Hsecond in H2. simpl in H2.
      destruct (allocateDevice rest second) as [rest2|] eqn:Hr2; [|done].
      injection H2 as <-.
      exists (d :: rest2). simpl. rewrite Hsecond, Hr2, Hf, Hshared, Hfull. done.
  - destruct (allocateDevice rest first) as [rest1|] eqn:Hr1; [|done].
    injection H1 as <-. simpl in H2.
    destruct (String.eqb (name d) second) eqn:Hsecond; simpl in H2.
    + destruct (Z.eqb (sharedCount d) 0) eqn:Hshared; simpl in H2.
      * destruct (allocateDevice rest1 second) as [rest2|] eqn:Hr2; [|done].
        injection H2 as <-.
        destruct (IH rest1 rest2 eq_refl Hr2) as (rest1' & Ha & Hb).
        exists (d :: rest1'). simpl. rewrite Hsecond, Hshared, Ha, Hf. simpl.
        by rewrite Hb.
      * destruct (Z.eqb (allocatedCount d) (sharedCount d)) eqn:Hfull; [done|].
        injection H2 as <-. eexists. simpl. rewrite Hsecond, Hshared, Hfull. simpl.
        split; [done|]. simpl. rewrite Hf. simpl. by rewrite Hr1.
    + destruct (allocateDevice rest1 second) as [rest2|] eqn:Hr2; [|done].
      injection H2 as <-.
      destruct (IH rest1 rest2 eq_refl Hr2) as (rest1' & Ha & Hb).
      exists (d :: rest1'). simpl. rewrite Hsecond, Ha, Hf. simpl. by rewrite Hb.
Qed.

Lemma allocateDevice_inv devices serviceDevice devices' :
  Forall deviceInv devices ->
  allocateDevice devices serviceDevice = Some devices' ->
  Forall deviceInv devices'.
Proof.
  intros Hinv H. eapply Forall2_grows_inv; [exact Hinv|]. by eapply allocateDevice_grows.
Qed.

Lemma release_first_allocated serviceDevices : forall devices first devices1 final,
  Forall deviceInv devices ->
  allocateDevice devices first = Some devices1 ->
  allocateDevices devices1 serviceDevices = (final, None) ->
  exists final',
    releaseDevice final first = Some final'
    /\ allocateDevices devices serviceDevices = (final', None).
Proof.
  induction serviceDevices as [|sd rest IH]; intros devices first devices1 final Hinv H1 H2;
    simpl in H2.
  - injection H2 as <-. exists devices. split; [by apply release_after_allocate|done].
  - destruct (allocateDevice devices1 (aostypes.Name sd)) as [devices2|] eqn:Hsd; [|done].
    destruct (allocateDevice_swap _ _ _ _ _ H1 Hsd) as (devices1' & Ha & Hb).
    destruct (IH devices1' first devices2 final) as (final' & Hr & Hrest); try done.
    { by eapply allocateDevice_inv. }
    exists final'. split; [done|]. simpl. by rewrite Ha.
Qed.

(** [releaseDevices] undoes [allocateDevices]: when the counts of a node are
    between 0 and the shared counts and an allocation for the devices of a
    service succeeds, releasing the same devices succeeds and gives every
    count of the node its value from before the allocation. *)
Theorem release_undoes_allocate (serviceDevices : list aostypes.ServiceDevice) :
  forall devices devices' : list nodeDevice,
  Forall deviceInv devices ->
  allocateDevices devices serviceDevices = (devices', None) ->
  releaseDevices devices' serviceDevices = (devices, None).
Proof.
  induction serviceDevices as [|sd rest IH]; intros devices devices' Hinv H; simpl in H.
  - by injection H as <-.
  - destruct (allocateDevice devices (aostypes.Name sd)) as [devices1|] eqn:Hsd; [|done].
    destruct (release_first_allocated rest devices _ devices1 devices' Hinv Hsd H)
      as (final' & Hr & Hrest).
    simpl. rewrite Hr. by apply IH.
Qed.

(** ** What a placement pass keeps *)

Lemma allocateDevice_keys devices serviceDevice devices' :
  allocateDevice devices serviceDevice = Some devices' ->
  map deviceKey devices' = map deviceKey devices.
Proof. intros H. by destruct (allocateDevice_counted _ _ _ H). Qed.

Lemma allocateDevices_keys serviceDevices : forall devices,
  map deviceKey (allocateDevices devices serviceDevices).1 = map deviceKey devices.
Proof.
  induction serviceDevices as [|sd rest IH]; intros devices; simpl; [done|].
  destruct (allocateDevice devices (aostypes.Name sd)) as [devices'|] eqn:Ha; [|done].
  rewrite IH. by apply (allocateDevice_keys _ (aostypes.Name sd)).
Qed.

Lemma map_insert_same {A B : Type} (f : A -> B) (l : list A) (i : nat) (x y : A) :
  l !! i = Some x -> f y = f x -> map f (<[i := y]> l) = map f l.
Proof.
  intros Hx Hf. change (f <$> <[i:=y]> l = f <$> l).
  rewrite list_fmap_insert, Hf. apply list_insert_id. by rewrite list_lookup_fmap, Hx.
Qed.

Section Frame.

Context {NetState : Type}.
Implicit Types (env : Env NetState) (l : Launcher NetState).

Lemma passFrame_refl l : passFrame l l.
Proof. done. Qed.

Lemma passFrame_trans l1 l2 l3 : passFrame l1 l2 -> passFrame l2 l3 -> passFrame l1 l3.
Proof. intros (H1 & H2 & H3) (H4 & H5 & H6). repeat split; congruence. Qed.

Lemma removeInstances_frame desired l : passFrame l (removeInstances desired l).
Proof.
  unfold removeInstances. apply (foldl_preserves (passFrame l)); [done|].
  intros l' x Hl' _. destruct (isDesiredInstance desired (InstanceIdent_ x)); [done|].
  eapply passFrame_trans; [exact Hl'|done].
Qed.

Lemma removeInstanceNetworkParameters_frame env desired l :
  passFrame l (removeInstanceNetworkParameters env desired l).
Proof.
  unfold removeInstanceNetworkParameters. apply (foldl_preserves (passFrame l)); [done|].
  intros l' x Hl' _. destruct (isDesiredInstance desired x); [done|].
  destruct (GetServiceInfo env (aostypes.ServiceID x)); [|done].
  eapply passFrame_trans; [exact Hl'|done].
Qed.

Lemma setupInstance_frame env service info uid l :
  passFrame l (setupInstance env service info uid l).1.1.
Proof. unfold setupInstance. by destruct (Setup env _) as [[? ?] [?|]]. Qed.

Lemma prepareInstanceStartInfo_frame env service instance index l :
  passFrame l (prepareInstanceStartInfo env service instance index l).1.1.
Proof.
  unfold prepareInstanceStartInfo.
  destruct (GetInstanceUID _ (storage l)) as [uid|err].
  - apply setupInstance_frame.
  - destruct (negb (String.eqb err ErrNotExist)); [done|].
    destruct (uidgidpool.GetFreeID (uidPool l)) as [pool [uid|err']]; [|done].
    eapply passFrame_trans; [|apply setupInstance_frame]. done.
Qed.

Lemma balanceInstance_frame env serviceInfo serviceLayers staticNodes instance l errStatus
    index :
  passFrame l
    (balanceInstance env serviceInfo serviceLayers staticNodes instance (l, errStatus) index).1.
Proof.
  unfold balanceInstance.
  destruct (getNodesByDevices (nodes l) staticNodes _) as [nodeForInstance [err|]]; [done|].
  pose proof (prepareInstanceStartInfo_frame env serviceInfo instance index l) as Hf.
  destruct (prepareInstanceStartInfo env serviceInfo instance index l) as [[l1 info] err].
  simpl in Hf.
  destruct (getMostPriorityNode (nodes l1) nodeForInstance) as [i|]; [|by destruct err].
  destruct (nodes l1 !! i) as [node|] eqn:Hnode; [|by destruct err].
  pose proof (allocateDevices_keys (aostypes.Devices (imagemanager.Config serviceInfo))
                (availableDevices node)) as Hk.
  destruct (allocateDevices (availableDevices node) _) as [devices' [err'|]]; simpl in *;
    (eapply passFrame_trans; [exact Hf|]); repeat split; simpl;
    apply (map_insert_same nodeFrame _ _ node); try done;
    unfold nodeFrame; simpl; by rewrite Hk.
Qed.

Lemma balanceService_frame env l errStatus instance :
  passFrame l (balanceService env (l, errStatus) instance).1.
Proof.
  unfold balanceService.
  destruct (GetServiceInfo env _) as [serviceInfo|err]; [|done].
  destruct (imagemanager.Cached serviceInfo); [done|].
  destruct (getLayersForService env _) as [serviceLayers|err]; [|done].
  destruct (getNodesByStaticResources _ _ _ _) as [staticNodes [err|]]; [done|].
  apply (foldl_preserves (fun st => passFrame l st.1)); [done|].
  intros [l' errs'] x Hl' _. eapply passFrame_trans; [exact Hl'|].
  apply balanceInstance_frame.
Qed.

Lemma prepareNetworkForNode_frame env onlyExposedPorts net errStatus node :
  nodeFrame (prepareNetworkForNode env onlyExposedPorts net errStatus node).2
  = nodeFrame node.
Proof. unfold prepareNetworkForNode. by destruct (foldl _ _ _) as [[? ?] ?]. Qed.

Lemma prepareNetworkForInstances_frame env onlyExposedPorts l :
  passFrame l (prepareNetworkForInstances env onlyExposedPorts l).1.
Proof.
  unfold prepareNetworkForInstances.
  assert (H : forall ns net errs done,
            map nodeFrame
              (foldl (fun acc node =>
                        let '(net, errStatus, ns) := acc in
                        let '(net, errStatus, node) :=
                          prepareNetworkForNode env onlyExposedPorts net errStatus node in
                        (net, errStatus, ns ++ [node]))
                     (net, errs, done) ns).2
            = map nodeFrame done ++ map nodeFrame ns).
  { induction ns as [|node ns IH]; intros net errs done; simpl.
    - by rewrite app_nil_r.
    - pose proof (prepareNetworkForNode_frame env onlyExposedPorts net errs node) as Hn.
      destruct (prepareNetworkForNode env onlyExposedPorts net errs node)
        as [[net' errs'] node'].
      rewrite IH, map_app. simpl in *. by rewrite Hn, <- app_assoc. }
  specialize (H (nodes l) (network l) [] []).
  destruct (foldl _ _ _) as [[? ?] ?]. simpl in *. done.
Qed.

Lemma performNodeBalancing_frame env desired l :
  callState (performNodeBalancing env desired l).1 = callState l
  /\ currentDesiredInstances (performNodeBalancing env desired l).1
     = sortSlice instanceLess desired
  /\ map nodeFrame (nodes (performNodeBalancing env desired l).1) = map nodeFrame (nodes l).
Proof.
  unfold performNodeBalancing.
  set (l0 := setDesired _ (setNodes _ l)).
  assert (H0 : callState l0 = callState l
               /\ currentDesiredInstances l0 = sortSlice instanceLess desired
               /\ map nodeFrame (nodes l0) = map nodeFrame (nodes l)).
  { repeat split. simpl. rewrite map_map. by apply map_ext. }
  assert (H1 : passFrame l0
                 (foldl (balanceService env)
                    (removeInstanceNetworkParameters env (sortSlice instanceLess desired)
                       (removeInstances (sortSlice instanceLess desired) l0), [])
                    (sortSlice instanceLess desired)).1).
  { apply (foldl_preserves (fun st => passFrame l0 st.1)).
    - eapply passFrame_trans; [apply removeInstances_frame|].
      apply removeInstanceNetworkParameters_frame.
    - intros [l' errs'] x Hl' _. eapply passFrame_trans; [exact Hl'|].
      apply balanceService_frame. }
  destruct (foldl (balanceService env) _ _) as [l1 errs1]. simpl in H1.
  pose proof (prepareNetworkForInstances_frame env true l1) as H2.
  destruct (prepareNetworkForInstances env true l1) as [l2 errs2]. simpl in H2.
  pose proof (prepareNetworkForInstances_frame env false l2) as H3.
  destruct (prepareNetworkForInstances env false l2) as [l3 errs3]. simpl in *.
  destruct (passFrame_trans _ _ _ (passFrame_trans _ _ _ H1 H2) H3) as (Ha & Hb & Hc).
  destruct H0 as (Ha0 & Hb0 & Hc0). rewrite Ha, Hb, Hc. done.
Qed.

(** A placement pass leaves the desired instances by descending priority,
    and by ascending service id among those of equal priority; they are the
    instances it was given.  It sends nothing and leaves the node list, the
    unit configuration of the nodes and the statuses as they are. *)
Theorem placement_orders_desired_instances env
    (desired : list cloudprotocol.InstanceInfo) l :
  let l' := (performNodeBalancing env desired l).1 in
  currentDesiredInstances l' ≡ₚ desired
  /\ chain instanceOrder (currentDesiredInstances l')
  /\ effects l' = effects l
  /\ map nodeFrame (nodes l') = map nodeFrame (nodes l).
Proof.
  destruct (performNodeBalancing_frame env desired l) as (Hc & Hd & Hn).
  intros l'. fold l' in Hc, Hd, Hn. rewrite Hd. split; [apply sortSlice_Permutation|].
  split; [|split; [|done]].
  - eapply chain_impl; [|apply sortSlice_ordered, instanceLess_asymmetric].
    intros a b. apply instanceLess_order.
  - by injection Hc.
Qed.

(** ** Run requests *)

Lemma nodeFrame_NodeID (ns ns' : list nodeStatus) :
  map nodeFrame ns' = map nodeFrame ns -> map NodeID ns' = map NodeID ns.
Proof.
  intros H.
  assert (Hg : forall l : list nodeStatus,
            map NodeID l
            = map (fun fr : _ * list string * list string * list (string * Z) * N
                            * list cloudprotocol.InstanceStatus * bool =>
                     cloudprotocol.NodeInfo_NodeID (NodeInfo_ fr.1.1.1.1.1.1))
                  (map nodeFrame l)).
  { intros l0. rewrite map_map. by apply map_ext. }
  by rewrite !Hg, H.
Qed.

Lemma sendRunInstances_fold env forceRestart (ns : list nodeStatus) :
  forall l0 (err : option string) (done : list nodeStatus),
  let r := foldl (fun acc node =>
                    let '(l, err, ns) := acc in
                    let node := withWaitStatus true node in
                    let l := emit (CallRunInstances (NodeID node) (currentRunRequest node)
                                     forceRestart) l in
                    let err := match RunInstancesError env (NodeID node), err with
                               | Some runErr, None => Some runErr
                               | _, _ => err
                               end in
                    (l, err, ns ++ [node]))
                 (l0, err, done) ns in
  effects r.1.1 = effects l0 ++ map (runRequestOf forceRestart) ns
  /\ storedState r.1.1 = storedState l0
  /\ r.1.2 = match err with Some e => Some e | None => firstRunError env ns end
  /\ r.2 = done ++ map (withWaitStatus true) ns.
Proof.
  induction ns as [|node ns IH]; intros l0 err done.
  - simpl. rewrite !app_nil_r. by destruct err.
  - destruct (IH (emit (CallRunInstances (NodeID node) (currentRunRequest node) forceRestart) l0)
                (match RunInstancesError env (NodeID node), err with
                 | Some runErr, None => Some runErr
                 | _, _ => err
                 end) (done ++ [withWaitStatus true node])) as (He & Hs & Hr & Hn).
    split; [|split; [|split]].
    + etransitivity; [exact He|]. simpl. by rewrite <- app_assoc.
    + etransitivity; [exact Hs|]. done.
    + etransitivity; [exact Hr|]. unfold firstRunError. simpl.
      destruct (RunInstancesError env (NodeID node)), err; done.
    + etransitivity; [exact Hn|]. simpl. by rewrite <- app_assoc.
Qed.

Lemma sendRunInstances_spec env forceRestart l :
  let r := sendRunInstances env forceRestart l in
  effects r.1 = effects l ++ map (runRequestOf forceRestart) (nodes l)
  /\ storedState r.1 = storedState l
  /\ r.2 = firstRunError env (nodes l)
  /\ nodes r.1 = map (withWaitStatus true) (nodes l).
Proof.
  unfold sendRunInstances.
  destruct (sendRunInstances_fold env forceRestart (nodes l) l None []) as (He & Hs & Hr & Hn).
  destruct (foldl _ _ _) as [[l1 err] ns]. simpl in *. done.
Qed.

Lemma firstRunError_NodeID env (ns ns' : list nodeStatus) :
  map NodeID ns' = map NodeID ns -> firstRunError env ns' = firstRunError env ns.
Proof.
  intros H. unfold firstRunError. f_equal.
  assert (Hg : forall l : list nodeStatus,
            omap (fun node => RunInstancesError env (NodeID node)) l
            = omap (RunInstancesError env) (map NodeID l)).
  { intros l0. induction l0 as [|n l0 IH]; [done|].
    change (omap (fun node => RunInstancesError env (NodeID node)) (n :: l0))
      with (match RunInstancesError env (NodeID n) with
            | Some e => e :: omap (fun node => RunInstancesError env (NodeID node)) l0
            | None => omap (fun node => RunInstancesError env (NodeID node)) l0
            end).
    rewrite IH. done. }
  by rewrite !Hg, H.
Qed.

Lemma resetDeviceAllocation_frame (ns : list nodeStatus) :
  map nodeFrame (resetDeviceAllocation ns) = map nodeFrame ns.
Proof.
  unfold resetDeviceAllocation. rewrite map_map. apply map_ext. intros node.
  unfold nodeFrame. simpl. rewrite map_map. done.
Qed.

Lemma runRequestOf_waiting forceRestart (ns : list nodeStatus) :
  map (runRequestOf forceRestart) (map (withWaitStatus true) ns)
  = map (runRequestOf forceRestart) ns.
Proof. rewrite map_map. by apply map_ext. Qed.

(** [RunInstances] and [RestartInstances] send one run request to each
    node, in the order of [launcher.nodes], also after a node has answered
    with an error; every node is then waited for, and the call returns the
    first error among the answers.  [RunInstances] registers no node and
    drops none. *)
Theorem run_request_to_every_node env (desired : list cloudprotocol.InstanceInfo)
    (newServices : list string) l :
  (let r := RunInstances env desired newServices l in
   effects r.1 = effects l ++ map (runRequestOf false) (nodes r.1)
   /\ Forall (fun node => waitStatus node = true) (nodes r.1)
   /\ map NodeID (nodes r.1) = map NodeID (nodes l)
   /\ pendingNewServices r.1 = newServices
   /\ r.2 = firstRunError env (nodes l))
  /\ (let r := RestartInstances env l in
      effects r.1 = effects l ++ map (runRequestOf true) (nodes r.1)
      /\ Forall (fun node => waitStatus node = true) (nodes r.1)
      /\ map NodeID (nodes r.1) = map NodeID (nodes l)
      /\ r.2 = firstRunError env (nodes l)).
Proof.
  split.
  - unfold RunInstances.
    set (l0 := setPendingNewServices _ _).
    destruct (performNodeBalancing_frame env desired l0) as (Hc & _ & Hn).
    destruct (performNodeBalancing env desired l0) as [l1 errStatus]. simpl in Hc, Hn.
    destruct (sendRunInstances_spec env false (setErrorStatus errStatus l1))
      as (He & Hs & Hr & Hns).
    simpl in *. rewrite He, Hr, Hns, runRequestOf_waiting.
    assert (Hid : map NodeID (nodes l1) = map NodeID (nodes l)).
    { apply nodeFrame_NodeID. rewrite Hn. apply resetDeviceAllocation_frame. }
    pose proof (f_equal snd Hc) as Heff. pose proof (f_equal (fun x => x.1.1.1) Hc) as Hp.
    pose proof (f_equal snd Hs) as Hp'. simpl in Heff, Hp, Hp'.
    repeat split.
    + by rewrite Heff.
    + apply Forall_map. by apply Forall_true.
    + rewrite map_map. simpl. rewrite <- Hid. by apply map_ext.
    + by rewrite Hp', Hp.
    + by apply firstRunError_NodeID.
  - unfold RestartInstances.
    set (l0 := setNodes _ l).
    destruct (performNodeBalancing_frame env (currentDesiredInstances l0) l0) as (Hc & _ & Hn).
    destruct (performNodeBalancing env _ l0) as [l1 errStatus]. simpl in Hc, Hn.
    destruct (sendRunInstances_spec env true (setErrorStatus errStatus l1))
      as (He & Hs & Hr & Hns).
    simpl in *. rewrite He, Hr, Hns, runRequestOf_waiting.
    assert (Hid : map NodeID (nodes l1) = map NodeID (nodes l)).
    { rewrite (nodeFrame_NodeID _ _ Hn). rewrite map_map. by apply map_ext. }
    pose proof (f_equal snd Hc) as Heff. simpl in Heff.
    repeat split.
    + by rewrite Heff.
    + apply Forall_map. by apply Forall_true.
    + rewrite map_map. simpl. rewrite <- Hid. by apply map_ext.
    + by apply firstRunError_NodeID.
Qed.

(** ** The stored instances *)

Lemma isDesiredInstance_spec (desired : list cloudprotocol.InstanceInfo)
    (ident : aostypes.InstanceIdent) :
  isDesiredInstance desired ident = true <-> ident ∈ desiredIdents desired.
Proof.
  unfold isDesiredInstance, desiredIdents. rewrite existsb_exists, list_elem_of_In, in_flat_map.
  split.
  - intros (instance & Hin & Hex). exists instance. split; [done|].
    apply existsb_exists in Hex as (index & Hidx & Heq). apply bool_decide_eq_true in Heq.
    apply in_map_iff. by exists index.
  - intros (instance & Hin & Hmap). exists instance. split; [done|].
    apply in_map_iff in Hmap as (index & Heq & Hidx). apply existsb_exists.
    exists index. split; [done|]. by apply bool_decide_eq_true.
Qed.

Lemma RemoveInstance_middle (kept rest : Storage) (x : InstanceInfo) :
  Forall (fun k => InstanceIdent_ k ≠ InstanceIdent_ x) kept ->
  RemoveInstance (InstanceIdent_ x) (kept ++ x :: rest) = kept ++ rest.
Proof.
  induction kept as [|k kept IH]; intros Hkept; simpl.
  - by rewrite bool_decide_eq_true_2.
  - apply Forall_cons in Hkept as [Hk Hkept].
    rewrite bool_decide_eq_false_2 by done. by rewrite IH.
Qed.

Lemma RemoveID_pool (uid : Z) (pool : uidgidpool.IdentifierPool) :
  (uidgidpool.RemoveID uid pool).1 = pool ∖ {[uid]}.
Proof.
  unfold uidgidpool.RemoveID. destruct (decide (uid ∈ pool)) as [Hin|Hout].
  - by rewrite bool_decide_eq_true_2.
  - rewrite bool_decide_eq_false_2 by done. simpl. set_solver.
Qed.

Lemma removeInstances_fold (desired : list cloudprotocol.InstanceInfo) (rest : Storage) :
  forall l kept,
  storage l = kept ++ rest ->
  Forall (fun k => isDesiredInstance desired (InstanceIdent_ k) = true) kept ->
  let l' := foldl (fun l storeInstance =>
                     if isDesiredInstance desired (InstanceIdent_ storeInstance) then l
                     else
                       let l := setUidPool (uidgidpool.RemoveID (UID storeInstance)
                                              (uidPool l)).1 l in
                       setStorage (RemoveInstance (InstanceIdent_ storeInstance)
                                     (storage l)) l)
                  l rest in
  storage l'
  = kept ++ List.filter (fun i => isDesiredInstance desired (InstanceIdent_ i)) rest
  /\ uidPool l' = uidPool l ∖ list_to_set (map UID (staleInstances desired rest)).
Proof.
  induction rest as [|x rest IH]; intros l kept Hs Hkept.
  - simpl. rewrite Hs. split; [done|]. set_solver.
  - cbn [foldl]. unfold staleInstances. cbn [List.filter].
    destruct (isDesiredInstance desired (InstanceIdent_ x)) eqn:Hx; simpl.
    + destruct (IH l (kept ++ [x])) as [H1 H2].
      * by rewrite <- app_assoc.
      * apply Forall_app. split; [done|]. by apply Forall_singleton.
      * split; [|exact H2]. etransitivity; [exact H1|]. by rewrite <- app_assoc.
    + set (l1 := setStorage _ _).
      destruct (IH l1 kept) as [H1 H2].
      * unfold l1. simpl. rewrite Hs. apply RemoveInstance_middle.
        eapply Forall_impl; [exact Hkept|]. intros k Hk Heq. simpl in Hk. congruence.
      * done.
      * split; [exact H1|]. etransitivity; [exact H2|]. unfold l1. simpl.
        rewrite RemoveID_pool. unfold staleInstances. set_solver.
Qed.

Lemma removeInstances_storage (desired : list cloudprotocol.InstanceInfo) l :
  storage (removeInstances desired l)
  = List.filter (fun i => isDesiredInstance desired (InstanceIdent_ i)) (storage l).
Proof.
  by destruct (removeInstances_fold desired (storage l) l [] eq_refl (Forall_nil_2 _)).
Qed.

(** [removeInstances] keeps, in order, the stored instances whose ident is
    one of the desired ones (some desired entry has its service and subject
    and more instances than its index), removes the others and gives their
    UIDs back to the pool; it leaves the nodes alone and sends nothing. *)
Theorem stale_instances_are_removed (desired : list cloudprotocol.InstanceInfo) l :
  storage (removeInstances desired l)
  = List.filter (fun i => isDesiredInstance desired (InstanceIdent_ i)) (storage l)
  /\ uidPool (removeInstances desired l)
     = uidPool l ∖ list_to_set (map UID (staleInstances desired (storage l)))
  /\ nodes (removeInstances desired l) = nodes l
  /\ effects (removeInstances desired l) = effects l
  /\ (forall ident, isDesiredInstance desired ident = true <-> ident ∈ desiredIdents desired).
Proof.
  destruct (removeInstances_fold desired (storage l) l [] eq_refl)
    as [H1 H2]; [constructor|].
  split; [exact H1|]. split; [exact H2|]. split; [apply removeInstances_nodes|].
  split; [|apply isDesiredInstance_spec].
  destruct (removeInstances_frame desired l) as (Hc & _). exact (f_equal snd Hc).
Qed.

(** ** What a placement pass places *)

Lemma foldl_prefix {A B : Type} (P : list B -> A -> Prop) (f : A -> B -> A)
    (xs : list B) (a : A) :
  P [] a ->
  (forall done x acc, x ∈ xs -> P done acc -> P (done ++ [x]) (f acc x)) ->
  P xs (foldl f a xs).
Proof.
  intros H0 Hstep.
  assert (H : forall ys done acc,
            (forall y, y ∈ ys -> y ∈ xs) -> P done acc -> P (done ++ ys) (foldl f acc ys)).
  { induction ys as [|y ys IH]; intros done acc Hsub Hd; simpl.
    - by rewrite app_nil_r.
    - replace (done ++ y :: ys) with ((done ++ [y]) ++ ys) by (by rewrite <- app_assoc).
      apply IH.
      + intros z Hz. apply Hsub. by apply list_elem_of_further.
      + apply Hstep; [|done]. apply Hsub. apply list_elem_of_here. }
  apply (H xs [] a); done.
Qed.

Lemma elem_of_instanceIndexes (numInstances index : N) :
  index ∈ instanceIndexes numInstances <-> (index < numInstances)%N.
Proof.
  unfold instanceIndexes. rewrite list_elem_of_fmap. split.
  - intros (i & -> & Hi). apply list_elem_of_In, in_seq in Hi. lia.
  - intros H. exists (N.to_nat index). split; [by rewrite N2Nat.id|].
    apply list_elem_of_In, in_seq. lia.
Qed.

Lemma NoDup_instanceIndexes (numInstances : N) : NoDup (instanceIndexes numInstances).
Proof.
  unfold instanceIndexes. apply NoDup_fmap_2; [|apply NoDup_ListNoDup, seq_NoDup].
  intros a b H. by apply Nat2N.inj.
Qed.

Lemma placed_requests (ns ns' : list nodeStatus) :
  map currentRunRequest ns' = map currentRunRequest ns -> placed ns' = placed ns.
Proof.
  intros H. unfold placed, placedOn.
  assert (Hg : forall l : list nodeStatus,
            flat_map (fun node => map aostypes.InstanceIdent_ (instances (currentRunRequest node))) l
            = flat_map (fun request => map aostypes.InstanceIdent_ (instances request))
                       (map currentRunRequest l)).
  { intros l0. induction l0 as [|n l0 IH]; simpl; [done|]. by rewrite IH. }
  by rewrite !Hg, H.
Qed.

Lemma placed_insert (ns : list nodeStatus) (i : nat) (node node' : nodeStatus)
    (extra : list aostypes.InstanceIdent) :
  ns !! i = Some node -> placedOn node' = placedOn node ++ extra ->
  placed (<[i := node']> ns) ≡ₚ placed ns ++ extra.
Proof.
  intros Hnode Hon. unfold placed.
  rewrite <- (take_drop_middle ns i node Hnode) at 2.
  rewrite (insert_take_drop ns i node') by (by eapply lookup_lt_Some).
  rewrite !flat_map_app. simpl. rewrite Hon, <- !app_assoc.
  apply Permutation_app_head. apply Permutation_app_head. apply Permutation_app_comm.
Qed.

Lemma placedOn_addRunRequest service serviceLayers info node :
  placedOn (addRunRequest service serviceLayers info node)
  = placedOn node ++ [aostypes.InstanceIdent_ info].
Proof. unfold placedOn, addRunRequest. simpl. by rewrite map_app. Qed.

Lemma GetInstanceUID_snoc ident (table : Storage) (x : InstanceInfo) uid :
  GetInstanceUID ident table = Ok uid -> GetInstanceUID ident (table ++ [x]) = Ok uid.
Proof.
  unfold GetInstanceUID. induction table as [|y table IH]; simpl; [done|].
  destruct (bool_decide (InstanceIdent_ y = ident)); [done|]. exact IH.
Qed.

Lemma AddInstance_lookup ident (table : Storage) (x : InstanceInfo) uid :
  GetInstanceUID ident table = Ok uid -> GetInstanceUID ident (AddInstance x table) = Ok uid.
Proof.
  intros H. unfold AddInstance. destruct (GetInstanceUID (InstanceIdent_ x) table); [done|].
  by apply GetInstanceUID_snoc.
Qed.

Lemma GetInstanceUID_filter (desired : list cloudprotocol.InstanceInfo) ident
    (table : Storage) :
  isDesiredInstance desired ident = true ->
  GetInstanceUID ident
    (List.filter (fun i => isDesiredInstance desired (InstanceIdent_ i)) table)
  = GetInstanceUID ident table.
Proof.
  intros Hd. unfold GetInstanceUID. induction table as [|x table IH]; simpl; [done|].
  destruct (decide (InstanceIdent_ x = ident)) as [Heq|Hne].
  - rewrite Heq, Hd. simpl. rewrite !bool_decide_eq_true_2 by done. done.
  - rewrite (bool_decide_eq_false_2 _ Hne).
    destruct (isDesiredInstance desired (InstanceIdent_ x)); simpl; [|exact IH].
    by rewrite (bool_decide_eq_false_2 _ Hne).
Qed.

Lemma setupInstance_spec env service info uid l :
  let r := setupInstance env service info uid l in
  aostypes.UID r.1.2 = uint32Wrap uid /\ storage r.1.1 = storage l.
Proof. unfold setupInstance. by destruct (Setup env _) as [[? ?] [?|]]. Qed.

Lemma prepareInstanceStartInfo_spec env service instance index l :
  let r := prepareInstanceStartInfo env service instance index l in
  (forall other uid, GetInstanceUID other (storage l) = Ok uid ->
                     GetInstanceUID other (storage r.1.1) = Ok uid)
  /\ (forall uid, GetInstanceUID (identOf instance index) (storage l) = Ok uid ->
                  aostypes.UID r.1.2 = uint32Wrap uid).
Proof.
  unfold prepareInstanceStartInfo. fold (identOf instance index).
  destruct (GetInstanceUID (identOf instance index) (storage l)) as [uid|err] eqn:Hget.
  - destruct (setupInstance_spec env service
                {| aostypes.InstanceIdent_ := identOf instance index;
                   aostypes.NetworkParameters_ := aostypes.emptyNetworkParameters;
                   aostypes.UID := 0; aostypes.Priority := cloudprotocol.Priority instance;
                   aostypes.StoragePath := ""; aostypes.StatePath := "" |} uid l)
      as [Hu Hs].
    split.
    + intros other uid' H. simpl in Hs. by rewrite Hs.
    + intros uid' [= <-]. exact Hu.
  - split; [|done].
    destruct (negb (String.eqb err ErrNotExist)); [done|].
    destruct (uidgidpool.GetFreeID (uidPool l)) as [pool [uid|err']]; [|done].
    intros other uid' H.
    match goal with
    | |- context [setupInstance env service ?i uid ?l1] =>
        destruct (setupInstance_spec env service i uid l1) as [_ Hs]
    end.
    rewrite Hs. simpl. by apply AddInstance_lookup.
Qed.

Lemma failedFor_status (instance : cloudprotocol.InstanceInfo) index version err :
  failedFor instance
    (createInstanceStatusFromInfo (cloudprotocol.ServiceID instance)
       (cloudprotocol.SubjectID instance) index version
       cloudprotocol.InstanceStateFailed err).
Proof. done. Qed.

(** What one iteration of the innermost loop does to the run requests, the
    storage and the error statuses. *)
Lemma balanceInstance_outcome env serviceInfo serviceLayers staticNodes instance l errStatus
    index :
  (exists extra,
     (balanceInstance env serviceInfo serviceLayers staticNodes instance
        (l, errStatus) index).2 = errStatus ++ extra
     /\ Forall (failedFor instance) extra
     /\ (map currentRunRequest
           (nodes (balanceInstance env serviceInfo serviceLayers staticNodes instance
                     (l, errStatus) index).1)
         = map currentRunRequest (nodes l)
         /\ (staticNodes ≠ [] -> (forall i, i ∈ staticNodes -> is_Some (nodes l !! i)) ->
             extra ≠ [])
         \/ exists i node devices',
              nodes l !! i = Some node
              /\ nodes (balanceInstance env serviceInfo serviceLayers staticNodes instance
                          (l, errStatus) index).1
                 = <[i := addRunRequest serviceInfo serviceLayers
                            (prepareInstanceStartInfo env serviceInfo instance index l).1.2
                            (withDevices devices' node)]> (nodes l)))
  /\ (storage (balanceInstance env serviceInfo serviceLayers staticNodes instance
                 (l, errStatus) index).1 = storage l
      \/ storage (balanceInstance env serviceInfo serviceLayers staticNodes instance
                    (l, errStatus) index).1
         = storage (prepareInstanceStartInfo env serviceInfo instance index l).1.1).
Proof.
  unfold balanceInstance.
  pose proof (getNodesByDevices_kept (nodes l) staticNodes
                (aostypes.Devices (imagemanager.Config serviceInfo))) as Hfilter.
  destruct (getNodesByDevices (nodes l) staticNodes _) as [nodeForInstance [err|]].
  { simpl. split; [|by left]. eexists. split; [done|].
    split; [by apply Forall_singleton|]. left. split; [done|]. by intros _ _. }
  simpl in Hfilter.
  pose proof (prepareInstanceStartInfo_nodes env serviceInfo instance index l) as Hn.
  destruct (prepareInstanceStartInfo env serviceInfo instance index l) as [[l1 info] err].
  simpl in Hn. simpl.
  set (errs1 := match err with
                | Some err0 => errStatus ++ [_]
                | None => errStatus
                end).
  assert (Herrs1 : exists extra1, errs1 = errStatus ++ extra1
                                  /\ Forall (failedFor instance) extra1).
  { unfold errs1. destruct err.
    - eexists. split; [done|]. by apply Forall_singleton.
    - exists []. by rewrite app_nil_r. }
  destruct Herrs1 as (extra1 & Herrs1 & Hall1).
  assert (Hsome : staticNodes ≠ [] -> (forall i, i ∈ staticNodes -> is_Some (nodes l !! i)) ->
            nodeForInstance ≠ [] /\ forall i, i ∈ nodeForInstance -> is_Some (nodes l !! i)).
  { intros Hne Hvalid. destruct (Hfilter eq_refl) as [Hsub Hkept].
    split; [by apply Hkept|].
    intros i Hi. apply Hvalid. by eapply elem_of_sublist. }
  destruct (getMostPriorityNode (nodes l1) nodeForInstance) as [i|] eqn:Hmost.
  2:{ split; [|by right]. exists extra1. split; [done|]. split; [done|]. left.
      split; [simpl; by rewrite Hn|]. intros Hne Hvalid.
      destruct (Hsome Hne Hvalid) as [Hne' _].
      exfalso. by destruct nodeForInstance. }
  destruct (nodes l1 !! i) as [node|] eqn:Hnode.
  2:{ split; [|by right]. exists extra1. split; [done|]. split; [done|]. left.
      split; [simpl; by rewrite Hn|]. intros Hne Hvalid.
      destruct (Hsome Hne Hvalid) as [_ Hvalid'].
      exfalso. apply getMostPriorityNode_elem in Hmost. specialize (Hvalid' i Hmost).
      rewrite <- Hn, Hnode in Hvalid'. by destruct Hvalid'. }
  destruct (allocateDevices (availableDevices node) _) as [devices' [err'|]]; simpl.
  - split; [|by right]. exists (extra1 ++ [createInstanceStatusFromInfo
        (cloudprotocol.ServiceID instance) (cloudprotocol.SubjectID instance) index
        (aostypes.AosVersion (imagemanager.ServiceInfo_ serviceInfo))
        cloudprotocol.InstanceStateFailed err']).
    split; [by rewrite Herrs1, <- app_assoc|]. split.
    + apply Forall_app. split; [done|]. by apply Forall_singleton.
    + left. split.
      * rewrite <- Hn. by apply (map_insert_same currentRunRequest _ _ node).
      * intros _ _. by destruct extra1.
  - split; [|by right]. exists extra1. split; [done|]. split; [done|]. right.
    exists i, node, devices'. rewrite <- Hn. done.
Qed.

Lemma placed_instanceKeys (ns : list nodeStatus) :
  placed ns = flat_map (map fst) (instanceKeys ns).
Proof.
  unfold placed, placedOn, instanceKeys. induction ns as [|node ns IH]; simpl; [done|].
  rewrite IH, map_map. done.
Qed.

Lemma instanceKeys_requests (ns ns' : list nodeStatus) :
  map currentRunRequest ns' = map currentRunRequest ns -> instanceKeys ns' = instanceKeys ns.
Proof.
  intros H. unfold instanceKeys.
  assert (Hg : forall l : list nodeStatus,
            map (fun node => map instanceKey (instances (currentRunRequest node))) l
            = map (fun request => map instanceKey (instances request))
                  (map currentRunRequest l)).
  { intros l0. by rewrite map_map. }
  by rewrite !Hg, H.
Qed.

Lemma prepareNetworkForInstance_key env onlyExposedPorts net errStatus instance :
  instanceKey (prepareNetworkForInstance env onlyExposedPorts net errStatus instance).2
  = instanceKey instance
  /\ exists extra,
       (prepareNetworkForInstance env onlyExposedPorts net errStatus instance).1.2
       = errStatus ++ extra.
Proof.
  unfold prepareNetworkForInstance.
  destruct (GetServiceInfo env _) as [serviceInfo|err].
  - destruct (onlyExposedPorts && _).
    + split; [done|]. exists []. by rewrite app_nil_r.
    + destruct (PrepareInstanceNetworkParameters env net _ _ _) as [[net' params] [err|]].
      * split; [done|]. by eexists.
      * split; [done|]. exists []. by rewrite app_nil_r.
  - split; [done|]. by eexists.
Qed.

Lemma prepareNetworkForNode_keys env onlyExposedPorts net errStatus node :
  map instanceKey
      (instances (currentRunRequest
                    (prepareNetworkForNode env onlyExposedPorts net errStatus node).2))
  = map instanceKey (instances (currentRunRequest node))
  /\ exists extra,
       (prepareNetworkForNode env onlyExposedPorts net errStatus node).1.2
       = errStatus ++ extra.
Proof.
  unfold prepareNetworkForNode.
  assert (H : forall instances0 net0 errs0 done0,
            let r := foldl (fun acc instance =>
                              let '(net, errStatus, done) := acc in
                              let '(net, errStatus, instance) :=
                                prepareNetworkForInstance env onlyExposedPorts net errStatus
                                  instance in
                              (net, errStatus, done ++ [instance]))
                           (net0, errs0, done0) instances0 in
            map instanceKey r.2 = map instanceKey done0 ++ map instanceKey instances0
            /\ exists extra, r.1.2 = errs0 ++ extra).
  { induction instances0 as [|instance instances0 IH]; intros net0 errs0 done0.
    - simpl. rewrite app_nil_r. split; [done|]. exists []. by rewrite app_nil_r.
    - cbn [foldl].
      destruct (prepareNetworkForInstance_key env onlyExposedPorts net0 errs0 instance)
        as (Hk & extra & He).
      destruct (prepareNetworkForInstance env onlyExposedPorts net0 errs0 instance)
        as [[net1 errs1] instance1].
      simpl in Hk, He.
      destruct (IH net1 errs1 (done0 ++ [instance1])) as (Hk' & extra' & He').
      split.
      + etransitivity; [exact Hk'|]. rewrite map_app. simpl. by rewrite Hk, <- app_assoc.
      + exists (extra ++ extra'). etransitivity; [exact He'|]. by rewrite He, <- app_assoc. }
  destruct (H (instances (currentRunRequest node)) net errStatus []) as (Hk & extra & He).
  destruct (foldl _ _ _) as [[net1 errs1] done1]. simpl in *. split; [done|]. by exists extra.
Qed.

Lemma prepareNetworkForInstances_keys env onlyExposedPorts l :
  instanceKeys (nodes (prepareNetworkForInstances env onlyExposedPorts l).1)
  = instanceKeys (nodes l)
  /\ storage (prepareNetworkForInstances env onlyExposedPorts l).1 = storage l.
Proof.
  unfold prepareNetworkForInstances.
  assert (H : forall ns net errs done,
            instanceKeys
              (foldl (fun acc node =>
                        let '(net, errStatus, ns) := acc in
                        let '(net, errStatus, node) :=
                          prepareNetworkForNode env onlyExposedPorts net errStatus node in
                        (net, errStatus, ns ++ [node]))
                     (net, errs, done) ns).2
            = instanceKeys done ++ instanceKeys ns).
  { induction ns as [|node ns IH]; intros net errs done.
    - simpl. by rewrite app_nil_r.
    - cbn [foldl].
      destruct (prepareNetworkForNode_keys env onlyExposedPorts net errs node) as (Hk & _).
      destruct (prepareNetworkForNode env onlyExposedPorts net errs node)
        as [[net' errs'] node']. simpl in Hk.
      etransitivity; [apply IH|]. unfold instanceKeys. rewrite map_app. simpl.
      by rewrite Hk, <- app_assoc. }
  specialize (H (nodes l) (network l) [] []).
  destruct (foldl _ _ _) as [[? ?] ?]. simpl in *. done.
Qed.

Lemma placed_reset (ns : list nodeStatus) :
  placed (map (withRunRequest emptyRunRequest) ns) = [].
Proof. unfold placed. induction ns as [|n ns IH]; simpl; done. Qed.

Lemma desiredIdents_snoc desired instance :
  desiredIdents (desired ++ [instance])
  = desiredIdents desired
    ++ map (identOf instance) (instanceIndexes (cloudprotocol.NumInstances instance)).
Proof. unfold desiredIdents. rewrite flat_map_app. simpl. by rewrite app_nil_r. Qed.

Lemma desiredIdents_Permutation desired desired' :
  desired ≡ₚ desired' -> desiredIdents desired ≡ₚ desiredIdents desired'.
Proof.
  unfold desiredIdents. induction 1 as [|x l1 l2 _ IH|x y l0|l1 l2 l3 _ IH1 _ IH2]; simpl.
  - done.
  - by rewrite IH.
  - rewrite !app_assoc. f_equiv. apply Permutation_app_comm.
  - by etransitivity.
Qed.

Lemma balanceInstance_placed env serviceInfo serviceLayers staticNodes instance l errStatus
    index :
  placed (nodes (balanceInstance env serviceInfo serviceLayers staticNodes instance
                   (l, errStatus) index).1)
  ⊆+ placed (nodes l) ++ [identOf instance index]
  /\ placed (nodes l)
     ⊆+ placed (nodes (balanceInstance env serviceInfo serviceLayers staticNodes instance
                         (l, errStatus) index).1).
Proof.
  destruct (balanceInstance_outcome env serviceInfo serviceLayers staticNodes instance l
              errStatus index) as [(extra & _ & _ & [[Hsame _]|(i & node & d & Hnode & Hn)]) _].
  - rewrite (placed_requests _ _ Hsame). split; [by apply submseteq_inserts_r|done].
  - rewrite Hn.
    assert (Hp : placed (<[i := addRunRequest serviceInfo serviceLayers
                                  (prepareInstanceStartInfo env serviceInfo instance index l).1.2
                                  (withDevices d node)]> (nodes l))
                 ≡ₚ placed (nodes l) ++ [identOf instance index]).
    { apply (placed_insert _ _ node); [done|].
      rewrite placedOn_addRunRequest, prepareInstanceStartInfo_ident. done. }
    rewrite Hp. split; [done|]. by apply submseteq_inserts_r.
Qed.

Lemma balanceService_placed env l errStatus instance :
  placed (nodes (balanceService env (l, errStatus) instance).1)
  ⊆+ placed (nodes l)
     ++ map (identOf instance) (instanceIndexes (cloudprotocol.NumInstances instance))
  /\ placed (nodes l) ⊆+ placed (nodes (balanceService env (l, errStatus) instance).1).
Proof.
  unfold balanceService.
  assert (Hsame : placed (nodes l)
                  ⊆+ placed (nodes l)
                     ++ map (identOf instance)
                          (instanceIndexes (cloudprotocol.NumInstances instance))
                  /\ placed (nodes l) ⊆+ placed (nodes l))
    by (split; [by apply submseteq_inserts_r|done]).
  destruct (GetServiceInfo env _) as [serviceInfo|err]; [|done].
  destruct (imagemanager.Cached serviceInfo); [done|].
  destruct (getLayersForService env _) as [serviceLayers|err]; [|done].
  destruct (getNodesByStaticResources _ _ _ _) as [staticNodes [err|]]; [done|].
  apply (foldl_prefix
           (fun done st => placed (nodes st.1)
                           ⊆+ placed (nodes l) ++ map (identOf instance) done
                           /\ placed (nodes l) ⊆+ placed (nodes st.1))).
  - simpl. by rewrite app_nil_r.
  - intros done x [l' errs'] _ [H1 H2]. simpl in H1, H2.
    destruct (balanceInstance_placed env serviceInfo serviceLayers staticNodes instance l'
                errs' x) as [H3 H4].
    split.
    + etransitivity; [exact H3|]. rewrite map_app, app_assoc. simpl.
      by apply submseteq_skips_r.
    + by etransitivity.
Qed.

Lemma submseteq_NoDup' {A : Type} (l k : list A) : l ⊆+ k -> NoDup k -> NoDup l.
Proof.
  intros Hsub Hnd. apply submseteq_sublist_r in Hsub as (l2 & Hperm & Hsl).
  rewrite Hperm. by eapply sublist_NoDup.
Qed.

Lemma desiredIdents_NoDup (desired : list cloudprotocol.InstanceInfo) :
  NoDup (map (fun instance => (cloudprotocol.ServiceID instance,
                               cloudprotocol.SubjectID instance)) desired) ->
  NoDup (desiredIdents desired).
Proof.
  unfold desiredIdents. induction desired as [|x desired IH]; simpl; [constructor|].
  intros Hnd. apply NoDup_cons in Hnd as [Hx Hnd]. apply NoDup_app. split; [|split].
  - apply NoDup_fmap_2; [|apply NoDup_instanceIndexes]. by intros a b [= ?].
  - intros ident Hin Hin'. apply list_elem_of_fmap in Hin as (idx & -> & _).
    apply list_elem_of_In, in_flat_map in Hin' as (y & Hy & Hin').
    apply in_map_iff in Hin' as (idx' & Heq & _). injection Heq as H1 H2 _.
    apply Hx. apply list_elem_of_fmap. exists y. split; [by rewrite H1, H2|].
    by apply list_elem_of_In.
  - by apply IH.
Qed.

Lemma performNodeBalancing_placed env (desired : list cloudprotocol.InstanceInfo) l :
  placed (nodes (performNodeBalancing env desired l).1) ⊆+ desiredIdents desired.
Proof.
  unfold performNodeBalancing.
  set (sorted := sortSlice instanceLess desired).
  set (l0 := removeInstanceNetworkParameters env sorted _).
  assert (H0 : placed (nodes l0) = []).
  { unfold l0. rewrite removeInstanceNetworkParameters_nodes, removeInstances_nodes.
    simpl. apply placed_reset. }
  assert (H1 : placed (nodes (foldl (balanceService env) (l0, []) sorted).1)
               ⊆+ desiredIdents sorted).
  { apply (foldl_prefix (fun done st => placed (nodes st.1) ⊆+ desiredIdents done)).
    - simpl. by rewrite H0.
    - intros done x [l1 errs1] _ H. simpl in H.
      destruct (balanceService_placed env l1 errs1 x) as [H2 _].
      etransitivity; [exact H2|]. rewrite desiredIdents_snoc.
      by apply submseteq_skips_r. }
  destruct (foldl (balanceService env) _ _) as [l1 errs1]. simpl in H1.
  destruct (prepareNetworkForInstances_keys env true l1) as [H2 _].
  destruct (prepareNetworkForInstances env true l1) as [l2 errs2]. simpl in H2.
  destruct (prepareNetworkForInstances_keys env false l2) as [H3 _].
  destruct (prepareNetworkForInstances env false l2) as [l3 errs3]. simpl in H3. simpl.
  rewrite placed_instanceKeys, H3, H2, <- placed_instanceKeys.
  etransitivity; [exact H1|].
  rewrite (desiredIdents_Permutation sorted desired); [done|].
  apply sortSlice_Permutation.
Qed.

(** A placement pass puts into the run requests only instances that are
    desired (the service and subject of a desired entry, an index below its
    number of instances), and each of them at most as often as it is desired:
    when no two desired entries have the same service and subject, no ident
    is in two run requests, or twice in one. *)
Theorem placement_runs_desired_instances_once env
    (desired : list cloudprotocol.InstanceInfo) l :
  let l' := (performNodeBalancing env desired l).1 in
  placed (nodes l') ⊆+ desiredIdents desired
  /\ (forall ident, ident ∈ placed (nodes l') ->
        exists instance index,
          instance ∈ desired /\ (index < cloudprotocol.NumInstances instance)%N
          /\ ident = identOf instance index)
  /\ (NoDup (map (fun instance => (cloudprotocol.ServiceID instance,
                                   cloudprotocol.SubjectID instance)) desired) ->
      NoDup (placed (nodes l'))).
Proof.
  intros l'.
  pose proof (performNodeBalancing_placed env desired l) as Hsub. fold l' in Hsub.
  split; [exact Hsub|]. split.
  - intros ident Hin.
    assert (Hd : ident ∈ desiredIdents desired) by (by eapply elem_of_submseteq).
    unfold desiredIdents in Hd.
    apply list_elem_of_In, in_flat_map in Hd as (instance & Hi & Hmap).
    apply in_map_iff in Hmap as (index & <- & Hidx).
    exists instance, index. split; [by apply list_elem_of_In|]. split; [|done].
    by apply elem_of_instanceIndexes, list_elem_of_In.
  - intros Hnd. eapply submseteq_NoDup'; [exact Hsub|]. by apply desiredIdents_NoDup.
Qed.

(** ** UIDs of recurring instances *)

Lemma removeInstanceNetworkParameters_storage env desired l :
  storage (removeInstanceNetworkParameters env desired l) = storage l.
Proof.
  unfold removeInstanceNetworkParameters.
  apply (foldl_preserves (fun l' => storage l' = storage l)); [done|].
  intros l' x Hl' _. destruct (isDesiredInstance desired x); [done|].
  by destruct (GetServiceInfo env (aostypes.ServiceID x)).
Qed.

Lemma balanceInstance_uids env serviceInfo serviceLayers staticNodes instance l errStatus
    index (table : Storage) (wanted : list aostypes.InstanceIdent) :
  identOf instance index ∈ wanted ->
  (forall ident uid, ident ∈ wanted -> GetInstanceUID ident table = Ok uid ->
                     GetInstanceUID ident (storage l) = Ok uid) ->
  uidsFrom table (nodes l) ->
  let l' := (balanceInstance env serviceInfo serviceLayers staticNodes instance
               (l, errStatus) index).1 in
  (forall ident uid, ident ∈ wanted -> GetInstanceUID ident table = Ok uid ->
                     GetInstanceUID ident (storage l') = Ok uid)
  /\ uidsFrom table (nodes l').
Proof.
  intros Hwanted Hlookup Huids l'. unfold l'.
  destruct (prepareInstanceStartInfo_spec env serviceInfo instance index l) as [Hp1 Hp2].
  destruct (balanceInstance_outcome env serviceInfo serviceLayers staticNodes instance l
              errStatus index) as [(extra & _ & _ & Hnodes) Hstorage].
  split.
  - intros ident uid Hin Ht. destruct Hstorage as [-> | ->]; [by apply Hlookup|].
    apply Hp1. by apply Hlookup.
  - destruct Hnodes as [[Hsame _]|(i & node & d & Hnode & ->)].
    + unfold uidsFrom. by rewrite (instanceKeys_requests _ _ Hsame).
    + assert (Hold : Forall (keepsUID table)
                       (map instanceKey (instances (currentRunRequest node)))).
      { unfold uidsFrom, instanceKeys in Huids. rewrite Forall_forall in Huids.
        apply Huids. apply list_elem_of_fmap. exists node. split; [done|].
        by eapply list_elem_of_lookup_2. }
      unfold uidsFrom, instanceKeys.
      rewrite <- (take_drop_middle (nodes l) i node Hnode) in Huids |- *.
      rewrite insert_app_r_alt by (rewrite length_take; lia).
      rewrite length_take, Nat.min_l by (apply Nat.lt_le_incl; by eapply lookup_lt_Some).
      rewrite Nat.sub_diag. simpl.
      unfold uidsFrom, instanceKeys in Huids. rewrite map_app in Huids |- *.
      apply Forall_app in Huids as [H1 H2]. simpl in H2.
      apply Forall_cons in H2 as [_ H2].
      apply Forall_app. split; [exact H1|]. simpl. constructor; [|exact H2].
      rewrite map_app. apply Forall_app. split; [exact Hold|].
      apply Forall_singleton. intros uid Huid. simpl in *.
      rewrite prepareInstanceStartInfo_ident in Huid. apply Hp2. by apply Hlookup.
Qed.

Lemma balanceService_uids env l errStatus instance (table : Storage)
    (wanted : list aostypes.InstanceIdent) :
  (forall index, index ∈ instanceIndexes (cloudprotocol.NumInstances instance) ->
                 identOf instance index ∈ wanted) ->
  (forall ident uid, ident ∈ wanted -> GetInstanceUID ident table = Ok uid ->
                     GetInstanceUID ident (storage l) = Ok uid) ->
  uidsFrom table (nodes l) ->
  let l' := (balanceService env (l, errStatus) instance).1 in
  (forall ident uid, ident ∈ wanted -> GetInstanceUID ident table = Ok uid ->
                     GetInstanceUID ident (storage l') = Ok uid)
  /\ uidsFrom table (nodes l').
Proof.
  intros Hwanted Hlookup Huids l'. unfold l', balanceService.
  destruct (GetServiceInfo env _) as [serviceInfo|err]; [|done].
  destruct (imagemanager.Cached serviceInfo); [done|].
  destruct (getLayersForService env _) as [serviceLayers|err]; [|done].
  destruct (getNodesByStaticResources _ _ _ _) as [staticNodes [err|]]; [done|].
  apply (foldl_preserves
           (fun st => (forall ident uid, ident ∈ wanted -> GetInstanceUID ident table = Ok uid ->
                                         GetInstanceUID ident (storage st.1) = Ok uid)
                      /\ uidsFrom table (nodes st.1))); [done|].
  intros [l1 errs1] index [H1 H2] Hin.
  by apply balanceInstance_uids; [apply Hwanted| |].
Qed.

(** An instance that a placement pass puts into a run request and whose
    ident had a stored record before the pass gets the UID of that record
    (converted to [uint32]), and the record is still stored with that UID
    after the pass. *)
Theorem recurring_instance_keeps_uid env (desired : list cloudprotocol.InstanceInfo) l
    (node : nodeStatus) (info : aostypes.InstanceInfo) (uid : Z) :
  let l' := (performNodeBalancing env desired l).1 in
  node ∈ nodes l' ->
  info ∈ instances (currentRunRequest node) ->
  GetInstanceUID (aostypes.InstanceIdent_ info) (storage l) = Ok uid ->
  aostypes.UID info = uint32Wrap uid
  /\ GetInstanceUID (aostypes.InstanceIdent_ info) (storage l') = Ok uid.
Proof.
  intros l' Hnode Hinfo Huid.
  pose proof (performNodeBalancing_placed env desired l) as Hsub. fold l' in Hsub.
  set (sorted := sortSlice instanceLess desired).
  assert (Hinv : (forall ident uid, ident ∈ desiredIdents sorted ->
                    GetInstanceUID ident (storage l) = Ok uid ->
                    GetInstanceUID ident (storage l') = Ok uid)
                 /\ uidsFrom (storage l) (nodes l')).
  { unfold l', performNodeBalancing. fold sorted.
    set (l0 := removeInstanceNetworkParameters env sorted _).
    assert (H0 : (forall ident uid, ident ∈ desiredIdents sorted ->
                    GetInstanceUID ident (storage l) = Ok uid ->
                    GetInstanceUID ident (storage l0) = Ok uid)
                 /\ uidsFrom (storage l) (nodes l0)).
    { split.
      - intros ident uid0 Hin Hu. unfold l0.
        rewrite removeInstanceNetworkParameters_storage.
        rewrite removeInstances_storage.
        rewrite GetInstanceUID_filter; [done|]. by apply isDesiredInstance_spec.
      - unfold l0, uidsFrom, instanceKeys.
        rewrite removeInstanceNetworkParameters_nodes, removeInstances_nodes. simpl.
        rewrite map_map. simpl. apply Forall_map, Forall_true. intros x. constructor. }
    assert (H1 : (forall ident uid, ident ∈ desiredIdents sorted ->
                    GetInstanceUID ident (storage l) = Ok uid ->
                    GetInstanceUID ident
                      (storage (foldl (balanceService env) (l0, []) sorted).1) = Ok uid)
                 /\ uidsFrom (storage l)
                      (nodes (foldl (balanceService env) (l0, []) sorted).1)).
    { apply (foldl_preserves
               (fun st => (forall ident uid, ident ∈ desiredIdents sorted ->
                             GetInstanceUID ident (storage l) = Ok uid ->
                             GetInstanceUID ident (storage st.1) = Ok uid)
                          /\ uidsFrom (storage l) (nodes st.1))); [done|].
      intros [l1 errs1] x [Ha Hb] Hx. apply balanceService_uids; [|done|done].
      intros index Hidx. unfold desiredIdents.
      apply list_elem_of_In, in_flat_map. exists x. split; [by apply list_elem_of_In|].
      apply in_map, list_elem_of_In, Hidx. }
    destruct (foldl (balanceService env) _ _) as [l1 errs1]. simpl in H1.
    destruct (prepareNetworkForInstances_keys env true l1) as [H2 H2'].
    destruct (prepareNetworkForInstances env true l1) as [l2 errs2]. simpl in H2, H2'.
    destruct (prepareNetworkForInstances_keys env false l2) as [H3 H3'].
    destruct (prepareNetworkForInstances env false l2) as [l3 errs3]. simpl in H3, H3'.
    simpl. unfold uidsFrom. rewrite H3, H2, H3', H2'. exact H1. }
  destruct Hinv as [Hlookup Huids].
  assert (Hkey : keepsUID (storage l) (instanceKey info)).
  { unfold uidsFrom, instanceKeys in Huids.
    rewrite Forall_forall in Huids.
    specialize (Huids (map instanceKey (instances (currentRunRequest node)))).
    rewrite Forall_forall in Huids. apply Huids.
    - apply list_elem_of_fmap. by exists node.
    - apply list_elem_of_fmap. by exists info. }
  split; [by apply Hkey|]. apply Hlookup; [|done].
  rewrite (desiredIdents_Permutation sorted desired) by apply sortSlice_Permutation.
  eapply elem_of_submseteq; [|exact Hsub].
  unfold placed. apply list_elem_of_In, in_flat_map. exists node.
  split; [by apply list_elem_of_In|]. unfold placedOn. apply in_map. by apply list_elem_of_In.
Qed.

(** ** Every desired instance is accounted for *)

Lemma covered_mono (ns ns' : list nodeStatus)
    (errs extra : list cloudprotocol.InstanceStatus) instance index :
  placed ns ⊆+ placed ns' -> covered ns errs instance index ->
  covered ns' (errs ++ extra) instance index.
Proof.
  intros Hsub [Hin|(status & Hin & Hf)].
  - left. by eapply elem_of_submseteq.
  - right. exists status. split; [|done]. apply elem_of_app. by left.
Qed.

Lemma balanceInstance_covers env serviceInfo serviceLayers staticNodes instance l errStatus
    index :
  staticNodes ≠ [] -> (forall i, i ∈ staticNodes -> is_Some (nodes l !! i)) ->
  covered (nodes (balanceInstance env serviceInfo serviceLayers staticNodes instance
                    (l, errStatus) index).1)
          (balanceInstance env serviceInfo serviceLayers staticNodes instance
             (l, errStatus) index).2 instance index
  /\ exists extra,
       (balanceInstance env serviceInfo serviceLayers staticNodes instance
          (l, errStatus) index).2 = errStatus ++ extra.
Proof.
  intros Hne Hvalid.
  destruct (balanceInstance_outcome env serviceInfo serviceLayers staticNodes instance l
              errStatus index) as [(extra & He & Hall & Hnodes) _].
  split; [|by exists extra]. rewrite He.
  destruct Hnodes as [[_ Hextra]|(i & node & d & Hnode & ->)].
  - right. specialize (Hextra Hne Hvalid). destruct extra as [|status extra]; [done|].
    exists status. split; [set_solver|]. by apply Forall_cons in Hall as [? _].
  - left.
    assert (Hp : placed (<[i := addRunRequest serviceInfo serviceLayers
                                  (prepareInstanceStartInfo env serviceInfo instance index l).1.2
                                  (withDevices d node)]> (nodes l))
                 ≡ₚ placed (nodes l) ++ [identOf instance index]).
    { apply (placed_insert _ _ node); [done|].
      rewrite placedOn_addRunRequest, prepareInstanceStartInfo_ident. done. }
    rewrite Hp. set_solver.
Qed.

Lemma failedInstances_covers (ns : list nodeStatus) errs instance version err index :
  index ∈ instanceIndexes (cloudprotocol.NumInstances instance) ->
  covered ns (errs ++ failedInstances instance version err) instance index.
Proof.
  intros Hidx. right. eexists. split.
  - apply elem_of_app. right. unfold failedInstances. apply list_elem_of_fmap.
    exists index. split; [reflexivity|done].
  - done.
Qed.

Lemma balanceService_covers env l errStatus instance :
  (forall index, index ∈ instanceIndexes (cloudprotocol.NumInstances instance) ->
     covered (nodes (balanceService env (l, errStatus) instance).1)
             (balanceService env (l, errStatus) instance).2 instance index)
  /\ exists extra, (balanceService env (l, errStatus) instance).2 = errStatus ++ extra.
Proof.
  unfold balanceService.
  destruct (GetServiceInfo env _) as [serviceInfo|err].
  2:{ split; [|by eexists]. intros index _. right. eexists.
      split; [simpl; apply elem_of_app; right; apply list_elem_of_here|done]. }
  destruct (imagemanager.Cached serviceInfo).
  { split; [|by eexists]. intros index _. right. eexists.
      split; [simpl; apply elem_of_app; right; apply list_elem_of_here|done]. }
  destruct (getLayersForService env _) as [serviceLayers|err].
  2:{ split; [|by eexists]. intros index Hidx. by apply failedInstances_covers. }
  pose proof (getNodesByStaticResources_valid (nodes l) (seq 0 (length (nodes l)))
                serviceInfo instance) as Hstatic.
  destruct (getNodesByStaticResources _ _ _ _) as [staticNodes [err|]].
  { split; [|by eexists]. intros index Hidx. by apply failedInstances_covers. }
  destruct (Hstatic eq_refl) as [Hne Hvalid]. simpl in Hne, Hvalid.
  set (indexes := instanceIndexes (cloudprotocol.NumInstances instance)).
  assert (H : (fun done st =>
                 length (nodes st.1) = length (nodes l)
                 /\ placed (nodes l) ⊆+ placed (nodes st.1)
                 /\ (exists extra, st.2 = errStatus ++ extra)
                 /\ forall index, index ∈ done -> covered (nodes st.1) st.2 instance index)
              indexes
              (foldl (balanceInstance env serviceInfo serviceLayers staticNodes instance)
                     (l, errStatus) indexes)).
  { apply foldl_prefix.
    - simpl. split; [done|]. split; [done|]. split; [exists []; by rewrite app_nil_r|].
      intros index Hin. by apply elem_of_nil in Hin.
    - intros done x [l1 errs1] _ (Hlen & Hsub & (extra & He) & Hcov).
      simpl in Hlen, Hsub, He, Hcov. cbv beta.
      assert (Hvalid1 : forall i, i ∈ staticNodes -> is_Some (nodes l1 !! i)).
      { intros i Hi. apply lookup_lt_is_Some. rewrite Hlen. apply lookup_lt_is_Some.
        by apply Hvalid. }
      destruct (balanceInstance_covers env serviceInfo serviceLayers staticNodes instance l1
                  errs1 x Hne Hvalid1) as (Hx & extra' & He').
      destruct (balanceInstance_placed env serviceInfo serviceLayers staticNodes instance l1
                  errs1 x) as [_ Hsub'].
      destruct (balanceInstance_frame env serviceInfo serviceLayers staticNodes instance l1
                  errs1 x) as (_ & _ & Hframe).
      split; [|split; [|split]].
      + rewrite <- Hlen. rewrite <- (length_map nodeFrame (nodes l1)), <- Hframe.
        by rewrite length_map.
      + by etransitivity.
      + exists (extra ++ extra'). by rewrite He', He, <- app_assoc.
      + intros index Hin. apply elem_of_app in Hin as [Hin|Hin].
        * rewrite He'. apply (covered_mono (nodes l1)); [done|]. by apply Hcov.
        * apply list_elem_of_singleton in Hin as ->. exact Hx. }
  simpl in H. destruct H as (_ & _ & Hextra & Hcov). split; [exact Hcov|exact Hextra].
Qed.

Lemma balanceService_mono env l errStatus instance other index :
  covered (nodes l) errStatus other index ->
  covered (nodes (balanceService env (l, errStatus) instance).1)
          (balanceService env (l, errStatus) instance).2 other index.
Proof.
  intros Hcov. destruct (balanceService_covers env l errStatus instance) as (_ & extra & ->).
  apply (covered_mono (nodes l)); [|done]. apply balanceService_placed.
Qed.

(** After [RunInstances] every desired instance is accounted for: for
    each desired entry and each index below its number of instances, the
    instance is in the run request of a node, or the error status that goes
    out with the next run status has a failed entry for the service and
    subject of the entry. *)
Theorem every_desired_instance_is_accounted_for env
    (desired : list cloudprotocol.InstanceInfo) (newServices : list string) l
    (instance : cloudprotocol.InstanceInfo) (index : N) :
  let l' := (RunInstances env desired newServices l).1 in
  instance ∈ desired -> (index < cloudprotocol.NumInstances instance)%N ->
  covered (nodes l') (currentErrorStatus l') instance index.
Proof.
  intros l' Hin Hidx.
  assert (Hpass : forall l0,
            covered (nodes (performNodeBalancing env desired l0).1)
                    (performNodeBalancing env desired l0).2 instance index).
  { intros l0. unfold performNodeBalancing.
    set (sorted := sortSlice instanceLess desired).
    set (l1 := removeInstanceNetworkParameters env sorted _).
    assert (H1 : (fun done st =>
                    forall inst idx, inst ∈ done ->
                      idx ∈ instanceIndexes (cloudprotocol.NumInstances inst) ->
                      covered (nodes st.1) st.2 inst idx)
                 sorted (foldl (balanceService env) (l1, []) sorted)).
    { apply foldl_prefix.
      - intros inst idx H. by apply elem_of_nil in H.
      - intros done x [l2 errs2] _ Hcov inst idx Hinst Hi. simpl in Hcov. cbv beta.
        apply elem_of_app in Hinst as [Hinst|Hinst].
        + apply balanceService_mono. by apply Hcov.
        + apply list_elem_of_singleton in Hinst as ->.
          by apply (proj1 (balanceService_covers env l2 errs2 x)). }
    simpl in H1.
    assert (Hs : instance ∈ sorted).
    { unfold sorted. by rewrite sortSlice_Permutation. }
    specialize (H1 instance index Hs (proj2 (elem_of_instanceIndexes _ _) Hidx)).
    destruct (foldl (balanceService env) _ _) as [l2 errs2]. simpl in H1.
    destruct (prepareNetworkForInstances_keys env true l2) as [H2 _].
    destruct (prepareNetworkForInstances env true l2) as [l3 errs3]. simpl in H2.
    destruct (prepareNetworkForInstances_keys env false l3) as [H3 _].
    destruct (prepareNetworkForInstances env false l3) as [l4 errs4]. simpl in H3. simpl.
    rewrite <- app_assoc. apply (covered_mono (nodes l2)); [|done].
    by rewrite !placed_instanceKeys, H3, H2. }
  unfold l', RunInstances.
  set (l0 := setPendingNewServices _ _). specialize (Hpass l0).
  destruct (performNodeBalancing env desired l0) as [l1 errStatus]. simpl in Hpass.
  destruct (sendRunInstances_spec env false (setErrorStatus errStatus l1))
    as (_ & Hs & _ & Hn).
  pose proof (f_equal (fun x => x.1.2) Hs) as Herr. simpl in Herr.
  rewrite Herr, Hn. simpl.
  assert (Hp : placed (map (withWaitStatus true) (nodes l1)) = placed (nodes l1)).
  { apply placed_requests. rewrite map_map. by apply map_ext. }
  destruct Hpass as [H|H]; [left; by rewrite Hp|by right].
Qed.

(** ** Sending the run status *)

Lemma fillChecksum_errors env (statuses : list cloudprotocol.InstanceStatus) :
  forall errorInstances done,
  (foldl (fillChecksum env) (errorInstances, done) statuses).1
  = errorInstances ++ errorIdents statuses.
Proof.
  induction statuses as [|status statuses IH]; intros errorInstances done;
    cbn [foldl].
  - unfold errorIdents. simpl. by rewrite app_nil_r.
  - unfold fillChecksum at 2. unfold errorIdents. simpl.
    destruct (cloudprotocol.ErrorInfo_ status) eqn:He; rewrite IH; simpl.
    + by rewrite <- app_assoc.
    + done.
Qed.

Lemma reported_fields env (status : cloudprotocol.InstanceStatus) :
  cloudprotocol.ErrorInfo_ (reported env status) = cloudprotocol.ErrorInfo_ status
  /\ cloudprotocol.InstanceIdent_ (reported env status)
     = cloudprotocol.InstanceIdent_ status.
Proof. unfold reported. by destruct (cloudprotocol.ErrorInfo_ status) eqn:He. Qed.

Lemma errorIdents_reported env (statuses : list cloudprotocol.InstanceStatus) :
  errorIdents (map (reported env) statuses) = errorIdents statuses.
Proof.
  unfold errorIdents. induction statuses as [|status statuses IH]; simpl; [done|].
  destruct (reported_fields env status) as [He Hi].
  rewrite (bool_decide_ext (cloudprotocol.ErrorInfo_ (reported env status) ≠ None)
             (cloudprotocol.ErrorInfo_ status ≠ None)) by (by rewrite He).
  destruct (bool_decide (cloudprotocol.ErrorInfo_ status ≠ None)); simpl.
  - by rewrite Hi, IH.
  - exact IH.
Qed.

Lemma checkNewService_step env statuses l0 (es : list cloudprotocol.ServiceStatus)
    newService :
  checkNewService env statuses (l0, es) newService
  = if runsService statuses newService then (l0, es)
    else (emit (CallRevertService newService) l0, es ++ [errorServiceOf env newService]).
Proof.
  unfold checkNewService, runsService, errorServiceOf.
  destruct (existsb _ statuses); [done|]. by destruct (GetServiceInfo env newService).
Qed.

Lemma checkNewService_fold env statuses (pending : list string) :
  forall l0 (es : list cloudprotocol.ServiceStatus),
  effects (foldl (checkNewService env statuses) (l0, es) pending).1
  = effects l0 ++ map CallRevertService (failedServices statuses pending)
  /\ silentState (foldl (checkNewService env statuses) (l0, es) pending).1 = silentState l0
  /\ (foldl (checkNewService env statuses) (l0, es) pending).2
     = es ++ map (errorServiceOf env) (failedServices statuses pending).
Proof.
  induction pending as [|newService pending IH]; intros l0 es.
  - simpl. by rewrite !app_nil_r.
  - cbn [foldl]. rewrite checkNewService_step. unfold failedServices.
    cbn [List.filter]. destruct (runsService statuses newService); simpl.
    + apply IH.
    + destruct (IH (emit (CallRevertService newService) l0)
                  (es ++ [errorServiceOf env newService])) as (He & Hs & Hr).
      rewrite He, Hs, Hr. simpl. by rewrite <- !app_assoc.
Qed.

Lemma processStoppedInstances_spec newStatus errorInstances l :
  effects (processStoppedInstances newStatus errorInstances l)
  = effects l
    ++ map CallCleanup (errorInstances
                        ++ flat_map (stoppedInstance newStatus) (currentRunStatus l))
  /\ silentState (processStoppedInstances newStatus errorInstances l) = silentState l.
Proof.
  unfold processStoppedInstances.
  assert (Hstopped : forall (current : list cloudprotocol.InstanceStatus) stopped,
            foldl (fun stopped currentStatus =>
                     stopped ++ stoppedInstance newStatus currentStatus) stopped current
            = stopped ++ flat_map (stoppedInstance newStatus) current).
  { induction current as [|c current IH]; intros stopped; simpl.
    - by rewrite app_nil_r.
    - by rewrite IH, <- app_assoc. }
  rewrite Hstopped.
  generalize (errorInstances ++ flat_map (stoppedInstance newStatus) (currentRunStatus l)).
  intros idents. revert l. induction idents as [|ident idents IH]; intros l; simpl.
  - by rewrite app_nil_r.
  - destruct (IH (emit (CallCleanup ident) l)) as [He Hs]. rewrite He, Hs. simpl.
    by rewrite <- app_assoc.
Qed.

Lemma stoppedInstance_spec (newStatus : list cloudprotocol.InstanceStatus)
    (currentStatus : cloudprotocol.InstanceStatus) (ident : aostypes.InstanceIdent) :
  ident ∈ stoppedInstance newStatus currentStatus
  <-> ident = cloudprotocol.InstanceIdent_ currentStatus
      /\ cloudprotocol.ErrorInfo_ currentStatus = None
      /\ forall new,
           List.find (fun new => bool_decide (cloudprotocol.InstanceIdent_ new
                                              = cloudprotocol.InstanceIdent_ currentStatus))
                     newStatus = Some new ->
           cloudprotocol.ErrorInfo_ new ≠ None.
Proof.
  unfold stoppedInstance. destruct (List.find _ newStatus) as [new|].
  - destruct (decide (cloudprotocol.ErrorInfo_ new ≠ None)) as [Hn|Hn];
      destruct (decide (cloudprotocol.ErrorInfo_ currentStatus = None)) as [Hc|Hc].
    + rewrite !bool_decide_eq_true_2 by done. simpl. rewrite list_elem_of_singleton.
      split; [|by intros [? _]]. intros ->. split; [done|]. split; [done|].
      by intros new' [= <-].
    + rewrite (bool_decide_eq_false_2 _ Hc), andb_false_r. split.
      * intros H. by apply elem_of_nil in H.
      * by intros (_ & ? & _).
    + rewrite (bool_decide_eq_false_2 _ Hn). simpl. split.
      * intros H. by apply elem_of_nil in H.
      * intros (_ & _ & H). destruct Hn. by apply H.
    + rewrite (bool_decide_eq_false_2 _ Hn). simpl. split.
      * intros H. by apply elem_of_nil in H.
      * by intros (_ & ? & _).
  - destruct (decide (cloudprotocol.ErrorInfo_ currentStatus = None)) as [Hc|Hc].
    + rewrite bool_decide_eq_true_2 by done. rewrite list_elem_of_singleton.
      split; [|by intros [? _]]. intros ->. done.
    + rewrite bool_decide_eq_false_2 by done. split.
      * intros H. by apply elem_of_nil in H.
      * by intros (_ & ? & _).
Qed.

Lemma sendCurrentStatus_effects env l :
  effects (sendCurrentStatus env l)
  = effects l
    ++ map CallRevertService
         (failedServices (flat_map (nodeEntries env) (nodes l)) (pendingNewServices l))
    ++ map CallCleanup
         (errorIdents (flat_map (nodeEntries env) (nodes l))
          ++ flat_map (stoppedInstance (flat_map (nodeEntries env) (nodes l)))
               (currentRunStatus l))
    ++ [SendRunStatus
          {| UnitSubjects := [];
             Instances := flat_map (nodeEntries env) (nodes l) ++ currentErrorStatus l;
             ErrorServices :=
               map (errorServiceOf env)
                   (failedServices (flat_map (nodeEntries env) (nodes l))
                      (pendingNewServices l)) |}].
Proof.
  set (entries := flat_map (nodeEntries env) (nodes l)).
  unfold sendCurrentStatus. rewrite collectNodeStatus_spec. simpl.
  pose proof (fillChecksum_spec env (flat_map collected (nodes l)) [] []) as Hfill.
  pose proof (fillChecksum_errors env (flat_map collected (nodes l)) [] []) as Herrs.
  destruct (foldl (fillChecksum env) _ _) as [errorInstances statuses].
  simpl in Hfill, Herrs.
  assert (Hstatuses : statuses = entries).
  { rewrite Hfill. unfold entries. clear.
    induction (nodes l) as [|node ns IH]; simpl; [done|].
    by rewrite map_app, reported_collected, IH. }
  assert (Herrors : errorInstances = errorIdents entries).
  { rewrite Herrs, <- Hstatuses, Hfill. symmetry. apply errorIdents_reported. }
  set (ns := map _ (nodes l)). set (l0 := setNodes ns l).
  destruct (checkNewService_fold env statuses (pendingNewServices l0) l0 [])
    as (He & Hs & Hr).
  destruct (foldl (checkNewService env statuses) _ _) as [l1 errorServices].
  simpl in He, Hs, Hr.
  destruct (processStoppedInstances_spec statuses errorInstances
              (setPendingNewServices [] l1)) as [He2 Hs2].
  simpl in He2. simpl. rewrite He2, He.
  pose proof (f_equal (fun x => x.1.1.2) Hs) as Hrun.
  pose proof (f_equal (fun x => x.1.2) Hs) as Herr.
  pose proof (f_equal (fun x => x.1.2) Hs2) as Herr2.
  simpl in Hrun, Herr, Herr2. rewrite Herr2, Herr, Hrun, Hr, Hstatuses, Herrors.
  rewrite <- !app_assoc. done.
Qed.

(** What [sendCurrentStatus] does besides sending the run status.  It
    reverts, and reports as an error service, exactly the pending new
    services that have no instance without error in the statuses; it cleans
    up the state storage of the instances reported with an error, and then of
    the instances of the previous run status that had no error and are now
    missing or reported with an error, an instance that already had an error
    not being cleaned up for that; then no new service is pending and the
    error statuses of the placement are consumed. *)
Theorem run_status_reverts_and_cleans env l :
  let entries := flat_map (nodeEntries env) (nodes l) in
  let failedNew := failedServices entries (pendingNewServices l) in
  effects (sendCurrentStatus env l)
  = effects l ++ map CallRevertService failedNew
    ++ map CallCleanup (errorIdents entries
                        ++ flat_map (stoppedInstance entries) (currentRunStatus l))
    ++ [SendRunStatus
          {| UnitSubjects := [];
             Instances := entries ++ currentErrorStatus l;
             ErrorServices := map (errorServiceOf env) failedNew |}]
  /\ pendingNewServices (sendCurrentStatus env l) = []
  /\ currentErrorStatus (sendCurrentStatus env l) = []
  /\ (forall ident currentStatus,
        ident ∈ stoppedInstance entries currentStatus
        <-> ident = cloudprotocol.InstanceIdent_ currentStatus
            /\ cloudprotocol.ErrorInfo_ currentStatus = None
            /\ forall new,
                 List.find (fun new =>
                              bool_decide (cloudprotocol.InstanceIdent_ new
                                           = cloudprotocol.InstanceIdent_ currentStatus))
                           entries = Some new ->
                 cloudprotocol.ErrorInfo_ new ≠ None).
Proof.
  intros entries failedNew. split; [|split; [|split]].
  - apply sendCurrentStatus_effects.
  - unfold sendCurrentStatus. destruct (foldl collectNodeStatus _ _) as [statuses ns].
    destruct (foldl (fillChecksum env) _ _) as [errorInstances statuses'].
    destruct (foldl (checkNewService env statuses') _ _) as [l1 errorServices]. simpl.
    destruct (processStoppedInstances_spec statuses' errorInstances
                (setPendingNewServices [] l1)) as [_ Hs].
    exact (f_equal snd Hs).
  - unfold sendCurrentStatus. destruct (foldl collectNodeStatus _ _) as [statuses ns].
    destruct (foldl (fillChecksum env) _ _) as [errorInstances statuses'].
    by destruct (foldl (checkNewService env statuses') _ _) as [l1 errorServices].
  - intros ident currentStatus. apply stoppedInstance_spec.
Qed.

End Frame.

(** * Launcher: the nodes over a history *)

Section Nodes.

Context {NetState : Type}.
Implicit Types (env : Env NetState) (l : Launcher NetState).

(** ** The configuration of the nodes *)

Lemma configured_frame env (a b : nodeStatus) :
  nodeFrame a = nodeFrame b -> configured env b -> configured env a.
Proof.
  unfold nodeFrame, configured. intros [= H1 H2 H3 H4 H5 _ _].
  by rewrite H1, H2, H3, H4, H5.
Qed.

Lemma Forall_nodeFrame (P : nodeStatus -> Prop) (ns' : list nodeStatus) :
  (forall a b, nodeFrame a = nodeFrame b -> P b -> P a) ->
  forall ns, map nodeFrame ns' = map nodeFrame ns -> Forall P ns -> Forall P ns'.
Proof.
  intros HP. induction ns' as [|a ns' IH]; intros [|b ns] Hmap Hall; try done.
  assert (Hab : nodeFrame a = nodeFrame b)
    by exact (f_equal (fun frames => default (nodeFrame a) (head frames)) Hmap).
  assert (Hrest : map nodeFrame ns' = map nodeFrame ns) by exact (f_equal tail Hmap).
  apply Forall_cons in Hall as [Hb Hall].
  constructor; [by eapply HP|by eapply IH].
Qed.

(** [RestartInstances] leaves every node with the priority, the labels, the
    resources and the devices that the unit configuration gives at the time
    of the call for the node type of the node: what
    [initNodeUnitConfiguration] loads is kept by the placement pass and by
    the sending of the run requests. *)
Theorem restart_reloads_unit_configuration env l :
  Forall (configured env) (nodes (RestartInstances env l).1).
Proof.
  unfold RestartInstances.
  set (l0 := setNodes _ l).
  destruct (performNodeBalancing_frame env (currentDesiredInstances l0) l0) as (_ & _ & Hn).
  destruct (performNodeBalancing env (currentDesiredInstances l0) l0) as [l1 errStatus].
  simpl in Hn.
  destruct (sendRunInstances_spec env true (setErrorStatus errStatus l1)) as (_ & _ & _ & Hns).
  rewrite Hns. simpl. apply Forall_map.
  eapply Forall_impl; [|intros node H; exact H].
  eapply Forall_nodeFrame; [apply configured_frame|exact Hn|].
  unfold l0. simpl. apply Forall_map, Forall_true. intros node.
  unfold configured. simpl. rewrite map_map. done.
Qed.

(** ** The ids of the nodes *)

Lemma NodeID_insert (ns : list nodeStatus) i node node' :
  ns !! i = Some node -> NodeID node' = NodeID node ->
  map NodeID (<[i := node']> ns) = map NodeID ns.
Proof.
  intros Hnode Hid. change (NodeID <$> <[i := node']> ns = NodeID <$> ns).
  rewrite list_fmap_insert, Hid. apply list_insert_id. by rewrite list_lookup_fmap, Hnode.
Qed.

Lemma NodeID_alter (f : nodeStatus -> nodeStatus) (ns : list nodeStatus) :
  (forall node, NodeID (f node) = NodeID node) ->
  forall i, map NodeID (alter f i ns) = map NodeID ns.
Proof.
  intros Hf i. change (NodeID <$> alter f i ns = NodeID <$> ns).
  rewrite (list_fmap_alter NodeID f id) by (apply Forall_true; intros node; apply Hf).
  revert i. generalize (NodeID <$> ns). intros ids.
  induction ids as [|x ids IH]; intros [|i]; try done.
  cbn. f_equal. apply IH.
Qed.

Lemma sendCurrentStatus_NodeIDs env l :
  map NodeID (nodes (sendCurrentStatus env l)) = map NodeID (nodes l).
Proof.
  rewrite sendCurrentStatus_nodes, collectNodeStatus_spec. simpl.
  rewrite map_map. apply map_ext. intros node. by destruct (waitStatus node).
Qed.

Lemma sendRunInstances_NodeIDs env forceRestart l :
  map NodeID (nodes (sendRunInstances env forceRestart l).1) = map NodeID (nodes l).
Proof.
  destruct (sendRunInstances_spec env forceRestart l) as (_ & _ & _ & ->).
  rewrite map_map. by apply map_ext.
Qed.

Lemma performNodeBalancing_NodeIDs env desired l :
  map NodeID (nodes (performNodeBalancing env desired l).1) = map NodeID (nodes l).
Proof.
  apply nodeFrame_NodeID. by destruct (performNodeBalancing_frame env desired l) as (_ & _ & ?).
Qed.

Lemma RunInstances_NodeIDs env desired newServices l :
  map NodeID (nodes (RunInstances env desired newServices l).1) = map NodeID (nodes l).
Proof.
  unfold RunInstances. set (l0 := setPendingNewServices _ _).
  pose proof (performNodeBalancing_NodeIDs env desired l0) as Hn.
  destruct (performNodeBalancing env desired l0) as [l1 errStatus]. simpl in Hn.
  rewrite sendRunInstances_NodeIDs. simpl. rewrite Hn. unfold l0. simpl.
  apply nodeFrame_NodeID, resetDeviceAllocation_frame.
Qed.

Lemma RestartInstances_NodeIDs env l :
  map NodeID (nodes (RestartInstances env l).1) = map NodeID (nodes l).
Proof.
  unfold RestartInstances. set (l0 := setNodes _ l).
  pose proof (performNodeBalancing_NodeIDs env (currentDesiredInstances l0) l0) as Hn.
  destruct (performNodeBalancing env _ l0) as [l1 errStatus]. simpl in Hn.
  rewrite sendRunInstances_NodeIDs. simpl. rewrite Hn. unfold l0. simpl.
  rewrite map_map. by apply map_ext.
Qed.

Lemma rebalanceInstance_NodeIDs env alert source i l :
  match rebalanceInstance env alert source i l with
  | inl l' | inr l' => map NodeID (nodes l') = map NodeID (nodes l)
  end.
Proof.
  unfold rebalanceInstance.
  destruct (nodes l !! source) as [nodeWithIssue|]; [|done].
  destruct (instances _ !! i) as [instance|]; [|done].
  destruct (GetServiceInfo env _) as [serviceInfo|]; [|done].
  destruct (Nat.eqb _ 0); [done|]. destruct (Nat.eqb _ 0); [done|].
  destruct (getLayersForService env _) as [layersForService|]; [|done].
  destruct (getNodeByMonitoringData _ _ _ _) as [|target rest]; [done|].
  set (ns := alter _ target (nodes l)).
  assert (Hns : map NodeID ns = map NodeID (nodes l)) by (by apply NodeID_alter).
  destruct (ns !! source) as [node|] eqn:Hnode; [|done].
  destruct (releaseDevices (availableDevices node) _) as [devices' [err|]].
  - simpl. rewrite <- Hns. by eapply NodeID_insert.
  - rewrite sendRunInstances_NodeIDs. simpl. rewrite <- Hns. by eapply NodeID_insert.
Qed.

Lemma rebalanceInstances_NodeIDs env alert source n : forall l,
  map NodeID (nodes (rebalanceInstances env alert source n l)) = map NodeID (nodes l).
Proof.
  induction n as [|i IH]; intros l; simpl; [done|].
  pose proof (rebalanceInstance_NodeIDs env alert source i l) as H.
  destruct (rebalanceInstance env alert source i l) as [l'|l']; [done|].
  by rewrite IH.
Qed.

Lemma performRebalancing_NodeIDs env alert l :
  map NodeID (nodes (performRebalancing env alert l)) ≡ₚ map NodeID (nodes l).
Proof.
  unfold performRebalancing.
  pose proof (rebalancing_sorted_Permutation (nodes l)
                (cloudprotocol.SystemQuotaAlert_NodeID alert)) as Hperm.
  destruct (getNodesForRebalancingByNodePriority _ _) as [candidates sorted].
  simpl in Hperm. apply (Permutation_map NodeID) in Hperm.
  destruct (Nat.eqb _ 0); [exact Hperm|].
  set (l0 := setNodes _ l).
  pose proof (performNodeBalancing_NodeIDs env (currentDesiredInstances l0) l0) as Hn.
  destruct (performNodeBalancing env _ l0) as [l1 errs]. simpl in Hn.
  assert (H1 : map NodeID (nodes l1) ≡ₚ map NodeID (nodes l)).
  { rewrite Hn. unfold l0. simpl.
    rewrite (nodeFrame_NodeID _ _ (resetDeviceAllocation_frame sorted)). exact Hperm. }
  destruct (getNode _ _) as [source|]; [|exact H1]. simpl.
  destruct (nodes l1 !! source); [|exact H1].
  rewrite rebalanceInstances_NodeIDs. exact H1.
Qed.

Lemma processRunInstanceStatus_NodeIDs env runStatus l :
  answersForNode env ->
  map NodeID (nodes (processRunInstanceStatus env runStatus l)) = map NodeID (nodes l)
  \/ ((NodeRunInstanceStatus_NodeID runStatus ∉ map NodeID (nodes l))
      /\ (NodeRunInstanceStatus_NodeID runStatus ∈ NodeIDs env)
      /\ map NodeID (nodes (processRunInstanceStatus env runStatus l))
         ≡ₚ (map NodeID (nodes l) ++ [NodeRunInstanceStatus_NodeID runStatus])).
Proof.
  intros Hanswers. unfold processRunInstanceStatus.
  set (nodeID := NodeRunInstanceStatus_NodeID runStatus).
  set (registered := match getNode _ _ with Some _ => _ | None => _ end).
  assert (Hreg : forall l', registered = Some l' ->
            map NodeID (nodes l') = map NodeID (nodes l)
            \/ ((nodeID ∉ map NodeID (nodes l)) /\ (nodeID ∈ NodeIDs env)
                /\ map NodeID (nodes l') ≡ₚ (map NodeID (nodes l) ++ [nodeID]))).
  { unfold registered. intros l' Hl'.
    destruct (getNode (nodes l) nodeID) as [i|] eqn:Hget.
    - destruct (nodes l !! i) as [node|] eqn:Hnode; [|done]. injection Hl' as <-.
      left. simpl. by eapply NodeID_insert.
    - destruct (bool_decide (nodeID ∈ NodeIDs env)) eqn:Hknown; [|done]. simpl in Hl'.
      apply bool_decide_eq_true in Hknown.
      unfold initNodeStatus in Hl'.
      destruct (GetNodeConfiguration env nodeID) as [config|] eqn:Hconfig; [|done].
      injection Hl' as <-. right. split; [|split; [done|]].
      + intros Hin. apply list_elem_of_fmap in Hin as (node & Hid & Hin).
        by apply (proj1 (getNode_None _ _) Hget node Hin).
      + simpl. rewrite sortSlice_Permutation, map_app. simpl.
        replace (NodeID _) with nodeID; [done|].
        symmetry. exact (Hanswers nodeID config Hconfig). }
  destruct registered as [l'|]; [|by left]. specialize (Hreg l' eq_refl).
  destruct (negb _); [done|]. destruct (existsb _ _); [done|].
  by rewrite sendCurrentStatus_NodeIDs.
Qed.

Lemma handle_NodeIDs env r l :
  answersForNode env -> NoDup (map NodeID (nodes l)) ->
  NoDup (map NodeID (nodes (handle env r l)))
  /\ forall nodeID, nodeID ∈ map NodeID (nodes (handle env r l)) ->
       nodeID ∈ map NodeID (nodes l) \/ nodeID ∈ NodeIDs env.
Proof.
  intros Hanswers Hnd. destruct r; simpl.
  - rewrite RunInstances_NodeIDs. auto.
  - rewrite RestartInstances_NodeIDs. auto.
  - destruct (processRunInstanceStatus_NodeIDs env runStatus l Hanswers)
      as [->|(Hnew & Hknown & Hperm)]; [auto|]. split.
    + rewrite Hperm. apply NoDup_app. split; [done|]. split; [|apply NoDup_singleton].
      intros x Hx ->%list_elem_of_singleton. done.
    + intros x Hx. rewrite Hperm in Hx.
      apply elem_of_app in Hx as [?|Hx]; [by left|].
      apply list_elem_of_singleton in Hx as ->. by right.
  - pose proof (performRebalancing_NodeIDs env alert l) as Hperm. split.
    + by rewrite Hperm.
    + intros x Hx. rewrite Hperm in Hx. by left.
  - rewrite sendCurrentStatus_NodeIDs. auto.
Qed.

(** The launcher keeps one status per node: when the node manager answers
    for an id with the information of the node of that id, no two entries of
    [launcher.nodes] get the same node id, whatever the calls, messages and
    alerts, and every node that is registered has an id of the configuration
    at the time of its first message. *)
Theorem one_status_per_node (history : list (Env NetState * request)) : forall l,
  (forall er, er ∈ history -> answersForNode er.1) ->
  NoDup (map NodeID (nodes l)) ->
  NoDup (map NodeID (nodes (serve l history)))
  /\ forall nodeID, nodeID ∈ map NodeID (nodes (serve l history)) ->
       nodeID ∈ map NodeID (nodes l) \/ exists er, er ∈ history /\ nodeID ∈ NodeIDs er.1.
Proof.
  induction history as [|[env r] history IH]; intros l Hanswers Hnd; simpl.
  - split; [done|]. by left.
  - destruct (handle_NodeIDs env r l) as [Hnd1 Hin1]; [|done|].
    { apply (Hanswers (env, r)). apply list_elem_of_here. }
    destruct (IH (handle env r l)) as [Hnd2 Hin2]; [|done|].
    { intros er Her. apply Hanswers. by apply list_elem_of_further. }
    split; [exact Hnd2|]. intros nodeID Hin.
    destruct (Hin2 nodeID Hin) as [Hold|(er & Her & Hid)].
    + destruct (Hin1 nodeID Hold) as [?|Hid]; [by left|].
      right. exists (env, r). split; [apply list_elem_of_here|done].
    + right. exists er. split; [by apply list_elem_of_further|done].
Qed.

End Nodes.

Section Rebalancing.

Context {NetState : Type}.
Implicit Types (env : Env NetState) (l : Launcher NetState).

(** ** What the loop of [performRebalancing] moves *)

Lemma alter_as_insert {A : Type} (f : A -> A) (xs : list A) : forall i x,
  xs !! i = Some x -> alter f i xs = <[i := f x]> xs.
Proof.
  induction xs as [|y xs IH]; intros [|i] x H; try done.
  - by injection H as ->.
  - cbn. f_equal. by apply IH.
Qed.

Lemma placed_insert_perm (ns : list nodeStatus) (i : nat) (node node' : nodeStatus)
    (extra : list aostypes.InstanceIdent) :
  ns !! i = Some node -> placedOn node' ≡ₚ placedOn node ++ extra ->
  placed (<[i := node']> ns) ≡ₚ placed ns ++ extra.
Proof.
  intros Hnode Hon. unfold placed.
  rewrite <- (take_drop_middle ns i node Hnode) at 2.
  rewrite (insert_take_drop ns i node') by (by eapply lookup_lt_Some).
  rewrite !flat_map_app. simpl. rewrite Hon, <- !app_assoc.
  apply Permutation_app_head. apply Permutation_app_head. apply Permutation_app_comm.
Qed.

Lemma placed_lookup (ns : list nodeStatus) i node j instance :
  ns !! i = Some node -> instances (currentRunRequest node) !! j = Some instance ->
  aostypes.InstanceIdent_ instance ∈ placed ns.
Proof.
  intros Hnode Hinst. unfold placed. apply list_elem_of_In, in_flat_map.
  exists node. split; [by eapply list_elem_of_In, list_elem_of_lookup_2|].
  apply list_elem_of_In. unfold placedOn. apply list_elem_of_fmap.
  exists instance. split; [done|]. by eapply list_elem_of_lookup_2.
Qed.

Lemma getNodesByStaticResources_elem (ns : list nodeStatus) (allNodes : list nat)
    (serviceInfo : imagemanager.ServiceInfo) (instanceInfo : cloudprotocol.InstanceInfo) i :
  i ∈ (getNodesByStaticResources ns allNodes serviceInfo instanceInfo).1 -> is_Some (ns !! i).
Proof.
  unfold getNodesByStaticResources. intros Hi.
  assert (Hrunner : i ∈ getNodeByRunner ns allNodes
                          (aostypes.Runner (imagemanager.Config serviceInfo))).
  { destruct (Nat.eqb (length (getNodeByRunner _ _ _)) 0); [done|].
    destruct (Nat.eqb (length (getNodesByLabels _ _ _)) 0).
    { simpl in Hi. eapply elem_of_sublist; [exact Hi|apply getNodesByLabels_sublist]. }
    assert (Hres : i ∈ getNodesByResources ns
                     (getNodesByLabels ns
                        (getNodeByRunner ns allNodes
                           (aostypes.Runner (imagemanager.Config serviceInfo)))
                        (cloudprotocol.Labels instanceInfo))
                     (aostypes.Resources (imagemanager.Config serviceInfo)))
      by (by destruct (Nat.eqb (length (getNodesByResources _ _ _)) 0)).
    eapply elem_of_sublist in Hres; [|apply getNodesByResources_sublist].
    eapply elem_of_sublist; [exact Hres|apply getNodesByLabels_sublist]. }
  apply getNodeByRunner_spec in Hrunner as (_ & node & Hnode & _). eauto.
Qed.

Lemma getNodesByDevices_sublist (ns : list nodeStatus) (availableNodes : list nat)
    (desiredDevices : list aostypes.ServiceDevice) :
  sublist (getNodesByDevices ns availableNodes desiredDevices).1 availableNodes.
Proof.
  unfold getNodesByDevices. destruct (Nat.eqb (length desiredDevices) 0); [done|].
  destruct (Nat.eqb (length (List.filter _ availableNodes)) 0); apply sublist_List_filter.
Qed.

Lemma getNodeByMonitoringData_Permutation env (ns : list nodeStatus) (nodes : list nat)
    (alertType : string) :
  getNodeByMonitoringData env ns nodes alertType ≡ₚ nodes.
Proof.
  unfold getNodeByMonitoringData. destruct (Nat.eqb (length nodes) 1); [done|].
  destruct (String.eqb alertType "cpu"); apply sortSlice_Permutation.
Qed.

Lemma rebalanceInstance_placed env alert source i l :
  match rebalanceInstance env alert source i l with
  | inl l' =>
      placed (nodes l') ≡ₚ placed (nodes l)
      /\ effects l' = effects l ++ map (runRequestOf false) (nodes l')
  | inr l' =>
      (exists extra, placed (nodes l') ≡ₚ placed (nodes l) ++ extra
                     /\ forall ident, ident ∈ extra -> ident ∈ placed (nodes l))
      /\ effects l' = effects l
  end.
Proof.
  assert (Hquiet : (exists extra, placed (nodes l) ≡ₚ placed (nodes l) ++ extra
                      /\ forall ident, ident ∈ extra -> ident ∈ placed (nodes l))
                   /\ effects l = effects l).
  { split; [|done]. exists []. split; [by rewrite app_nil_r|]. by intros ident ?%elem_of_nil. }
  unfold rebalanceInstance.
  destruct (nodes l !! source) as [nodeWithIssue|] eqn:Hsource; [|done].
  destruct (instances _ !! i) as [instance|] eqn:Hinst; [|done].
  destruct (GetServiceInfo env _) as [serviceInfo|]; [|done].
  set (static := (getNodesByStaticResources _ _ _ _).1).
  assert (Hstatic : forall j, j ∈ static -> is_Some (nodes l !! j))
    by (intros j; apply getNodesByStaticResources_elem).
  destruct (Nat.eqb (length static) 0); [done|].
  set (byDevices := (getNodesByDevices _ static _).1).
  assert (Hdevices : sublist byDevices static) by apply getNodesByDevices_sublist.
  destruct (Nat.eqb (length byDevices) 0); [done|].
  pose proof (getNodeByMonitoringData_Permutation env (nodes l) byDevices
                (cloudprotocol.Parameter_ alert)) as Hmon.
  destruct (getLayersForService env _) as [layersForService|]; [|done].
  destruct (getNodeByMonitoringData _ _ _ _) as [|target rest]; [done|].
  destruct (Hstatic target) as [targetNode Htarget].
  { eapply elem_of_sublist; [|exact Hdevices]. rewrite <- Hmon. apply list_elem_of_here. }
  set (ident := aostypes.InstanceIdent_ instance).
  assert (Hident : ident ∈ placed (nodes l))
    by exact (placed_lookup _ _ _ _ _ Hsource Hinst).
  rewrite (alter_as_insert _ _ _ _ Htarget).
  set (ns := <[target := _]> (nodes l)).
  assert (Hns : placed ns ≡ₚ placed (nodes l) ++ [ident]).
  { unfold ns. eapply placed_insert_perm; [exact Htarget|].
    by rewrite placedOn_addRunRequest. }
  destruct (ns !! source) as [node|] eqn:Hnode; [|done].
  assert (Hinst' : instances (currentRunRequest node) !! i = Some instance).
  { unfold ns in Hnode. destruct (decide (target = source)) as [->|Hne].
    - rewrite list_lookup_insert_eq in Hnode by (by eapply lookup_lt_Some).
      injection Hnode as <-. rewrite Hsource in Htarget. injection Htarget as <-.
      simpl. by apply lookup_app_l_Some.
    - rewrite list_lookup_insert_ne in Hnode by done. by rewrite Hsource in Hnode; injection Hnode as <-. }
  destruct (releaseDevices (availableDevices node) _) as [devices' [err|]].
  - split; [|done]. exists [ident]. split.
    + simpl. rewrite <- Hns. etransitivity.
      * eapply (placed_insert_perm ns source node _ []); [exact Hnode|].
        by rewrite app_nil_r.
      * by rewrite app_nil_r.
    + intros x ->%list_elem_of_singleton. done.
  - set (kept := take i _ ++ drop (S i) _).
    set (moved := withInstances kept (withDevices devices' node)).
    destruct (sendRunInstances_spec env false (setNodes (<[source := moved]> ns) l))
      as (He & _ & _ & Hsent).
    cbn [nodes effects setNodes] in He, Hsent.
    rewrite He, Hsent, runRequestOf_waiting. split; [|done].
    rewrite (placed_requests (<[source := moved]> ns) (map (withWaitStatus true) _))
      by (rewrite map_map; by apply map_ext).
    simpl. apply (Permutation_app_inv_r [ident]). rewrite <- Hns.
    assert (Hlen : (source < length ns)%nat) by (by eapply lookup_lt_Some).
    rewrite <- (list_insert_id ns source node Hnode) at 2.
    rewrite <- (list_insert_insert_eq ns source node moved).
    symmetry. eapply placed_insert_perm.
    + by apply list_lookup_insert_eq.
    + unfold placedOn, moved, kept. simpl.
      rewrite <- (take_drop_middle _ i instance Hinst') at 1.
      rewrite !map_app. simpl. rewrite <- app_assoc.
      apply Permutation_app_head. apply Permutation_cons_append.
Qed.

(** The loop of [performRebalancing] over the instances of the node with
    the issue drops no instance from the run requests and adds no instance
    that was in none: the instance that is moved is in the run requests once
    as before, and after a failed release an instance that stays on its node
    is also left in the run request of the node chosen for it.  The loop
    sends run requests at most once, one to every node. *)
Theorem rebalancing_loop_keeps_instances env (alert : cloudprotocol.SystemQuotaAlert)
    (source n : nat) : forall l,
  let l' := rebalanceInstances env alert source n l in
  placed (nodes l) ⊆+ placed (nodes l')
  /\ (forall ident, ident ∈ placed (nodes l') -> ident ∈ placed (nodes l))
  /\ (effects l' = effects l
      \/ effects l' = effects l ++ map (runRequestOf false) (nodes l')).
Proof.
  induction n as [|i IH]; intros l; simpl.
  - split; [done|]. split; [done|by left].
  - pose proof (rebalanceInstance_placed env alert source i l) as H.
    destruct (rebalanceInstance env alert source i l) as [l1|l1].
    + destruct H as [Hp He]. split; [by rewrite Hp|]. split; [|by right].
      intros ident. by rewrite Hp.
    + destruct H as [(extra & Hp & Hextra) He].
      destruct (IH l1) as (Hsub & Hin & Heff). split; [|split].
      * etransitivity; [|exact Hsub]. rewrite Hp. by apply submseteq_inserts_r.
      * intros ident Hident. apply Hin in Hident. rewrite Hp in Hident.
        apply elem_of_app in Hident as [?|?]; [done|by apply Hextra].
      * by rewrite <- He.
Qed.

End Rebalancing.

Section Requests.

Context {NetState : Type}.
Implicit Types (env : Env NetState) (l : Launcher NetState).

(** ** Services and layers in the run requests *)

Lemma listsOnce_request (a b : nodeStatus) :
  services (currentRunRequest a) = services (currentRunRequest b) ->
  layers (currentRunRequest a) = layers (currentRunRequest b) ->
  listsOnce b -> listsOnce a.
Proof. unfold listsOnce. by intros -> ->. Qed.

Lemma NoDup_snoc_new {A : Type} (xs : list A) (x : A) :
  NoDup xs -> x ∉ xs -> NoDup (xs ++ [x]).
Proof.
  intros Hnd Hx. apply NoDup_app. split; [done|]. split; [|apply NoDup_singleton].
  intros y Hy ->%list_elem_of_singleton. done.
Qed.

Lemma addRunRequest_listsOnce service serviceLayers instance node :
  listsOnce node -> listsOnce (addRunRequest service serviceLayers instance node).
Proof.
  intros [Hs Hl]. unfold listsOnce, addRunRequest. simpl. split.
  - destruct (bool_decide _) eqn:Hin; [done|].
    apply bool_decide_eq_false in Hin. by apply NoDup_snoc_new.
  - apply (foldl_preserves (fun acc => NoDup acc)); [done|].
    intros acc layer Hacc _. simpl.
    destruct (bool_decide _) eqn:Hin; [done|].
    apply bool_decide_eq_false in Hin. by apply NoDup_snoc_new.
Qed.

Lemma balanceInstance_listsOnce env serviceInfo serviceLayers staticNodes instance l errStatus
    index :
  Forall listsOnce (nodes l) ->
  Forall listsOnce
    (nodes (balanceInstance env serviceInfo serviceLayers staticNodes instance
              (l, errStatus) index).1).
Proof.
  intros Hinv. unfold balanceInstance.
  destruct (getNodesByDevices (nodes l) staticNodes _) as [nodeForInstance [err|]]; [done|].
  pose proof (prepareInstanceStartInfo_nodes env serviceInfo instance index l) as Hn.
  destruct (prepareInstanceStartInfo env serviceInfo instance index l) as [[l1 info] err].
  simpl in Hn. rewrite <- Hn in Hinv.
  destruct (getMostPriorityNode (nodes l1) nodeForInstance) as [i|]; [|by destruct err].
  destruct (nodes l1 !! i) as [node|] eqn:Hnode; [|by destruct err].
  assert (Hnodeinv : listsOnce node) by (eapply Forall_lookup_1; eauto).
  destruct (allocateDevices (availableDevices node) _) as [devices' [err'|]]; simpl;
    apply Forall_insert; try done.
  by apply addRunRequest_listsOnce.
Qed.

Lemma balanceService_listsOnce env l errStatus instance :
  Forall listsOnce (nodes l) ->
  Forall listsOnce (nodes (balanceService env (l, errStatus) instance).1).
Proof.
  intros Hinv. unfold balanceService.
  destruct (GetServiceInfo env _) as [serviceInfo|err]; [|done].
  destruct (imagemanager.Cached serviceInfo); [done|].
  destruct (getLayersForService env _) as [serviceLayers|err]; [|done].
  destruct (getNodesByStaticResources _ _ _ _) as [staticNodes [err|]]; [done|].
  apply (foldl_preserves (fun st => Forall listsOnce (nodes st.1))); [done|].
  intros [l' errs'] x Hl' _. by apply balanceInstance_listsOnce.
Qed.

Lemma prepareNetworkForNode_listsOnce env onlyExposedPorts net errStatus node :
  listsOnce node ->
  listsOnce (prepareNetworkForNode env onlyExposedPorts net errStatus node).2.
Proof.
  unfold prepareNetworkForNode. by destruct (foldl _ _ _) as [[? ?] ?].
Qed.

Lemma prepareNetworkForInstances_listsOnce env onlyExposedPorts l :
  Forall listsOnce (nodes l) ->
  Forall listsOnce (nodes (prepareNetworkForInstances env onlyExposedPorts l).1).
Proof.
  intros Hinv. unfold prepareNetworkForInstances.
  assert (H : Forall listsOnce
                (foldl (fun acc node =>
                          let '(net, errStatus, ns) := acc in
                          let '(net, errStatus, node) :=
                            prepareNetworkForNode env onlyExposedPorts net errStatus node in
                          (net, errStatus, ns ++ [node]))
                       (network l, [], []) (nodes l)).2).
  { apply (foldl_preserves (fun acc => Forall listsOnce acc.2)); [by simpl|].
    intros [[net errs] ns] node Hns Hin.
    assert (Hnode : listsOnce node) by (eapply Forall_forall in Hinv; eauto).
    pose proof (prepareNetworkForNode_listsOnce env onlyExposedPorts net errs node Hnode) as Hd.
    destruct (prepareNetworkForNode env onlyExposedPorts net errs node) as [[net' errs'] node'].
    simpl in *. apply Forall_app. split; [done|]. by apply Forall_singleton. }
  by destruct (foldl _ _ _) as [[? ?] ?].
Qed.

Lemma performNodeBalancing_listsOnce env desired l :
  Forall listsOnce (nodes (performNodeBalancing env desired l).1).
Proof.
  unfold performNodeBalancing.
  set (l0 := removeInstanceNetworkParameters env _ _).
  assert (Hinv0 : Forall listsOnce (nodes l0)).
  { unfold l0. rewrite removeInstanceNetworkParameters_nodes, removeInstances_nodes. simpl.
    apply Forall_map, Forall_true. intros node. split; constructor. }
  assert (H1 : Forall listsOnce
                 (nodes (foldl (balanceService env) (l0, []) (sortSlice instanceLess desired)).1)).
  { apply (foldl_preserves (fun st => Forall listsOnce (nodes st.1))); [done|].
    intros [l' errs'] x Hl' _. by apply balanceService_listsOnce. }
  destruct (foldl (balanceService env) _ _) as [l1 errs1]. simpl in H1.
  pose proof (prepareNetworkForInstances_listsOnce env true l1 H1) as H2.
  destruct (prepareNetworkForInstances env true l1) as [l2 errs2]. simpl in H2.
  pose proof (prepareNetworkForInstances_listsOnce env false l2 H2) as H3.
  by destruct (prepareNetworkForInstances env false l2) as [l3 errs3].
Qed.

Lemma performNodeBalancing_effects env desired l :
  effects (performNodeBalancing env desired l).1 = effects l.
Proof.
  destruct (performNodeBalancing_frame env desired l) as (Hc & _). exact (f_equal snd Hc).
Qed.

Lemma sendRunInstances_listsOnce env forceRestart l :
  listsOnceInv l -> listsOnceInv (sendRunInstances env forceRestart l).1.
Proof.
  intros [Hnodes Hsent].
  destruct (sendRunInstances_spec env forceRestart l) as (He & _ & _ & Hn).
  split.
  - rewrite Hn. apply Forall_map. eapply Forall_impl; [exact Hnodes|]. done.
  - intros nodeID request force. rewrite He, elem_of_app. intros [Hin|Hin].
    + by eapply Hsent.
    + apply list_elem_of_fmap in Hin as (node & Heq & Hin). injection Heq as _ -> _.
      eapply Forall_forall in Hnodes; eauto.
Qed.

Lemma sendCurrentStatus_listsOnce env l :
  listsOnceInv l -> listsOnceInv (sendCurrentStatus env l).
Proof.
  intros [Hnodes Hsent]. split.
  - rewrite sendCurrentStatus_nodes, collectNodeStatus_spec. simpl.
    apply Forall_map. eapply Forall_impl; [exact Hnodes|].
    intros node Hnode. by destruct (waitStatus node).
  - intros nodeID request force. rewrite sendCurrentStatus_effects, !elem_of_app.
    intros [Hin|[Hin|[Hin|Hin]]].
    + by eapply Hsent.
    + by apply list_elem_of_fmap in Hin as (? & ? & _).
    + by apply list_elem_of_fmap in Hin as (? & ? & _).
    + by apply list_elem_of_singleton in Hin.
Qed.

Lemma processRunInstanceStatus_listsOnce env runStatus l :
  listsOnceInv l -> listsOnceInv (processRunInstanceStatus env runStatus l).
Proof.
  intros Hinv. unfold processRunInstanceStatus.
  set (registered := match getNode _ _ with Some _ => _ | None => _ end).
  assert (Hreg : forall l', registered = Some l' -> listsOnceInv l').
  { unfold registered. intros l' Hl'. destruct Hinv as [Hnodes Hsent].
    destruct (getNode (nodes l) _) as [i|].
    - destruct (nodes l !! i) as [node|] eqn:Hnode; [|done]. injection Hl' as <-.
      split; [|done]. simpl. apply Forall_insert; [done|].
      assert (Hn : listsOnce node) by (eapply Forall_lookup_1 in Hnodes; eauto). done.
    - destruct (negb _); [done|]. unfold initNodeStatus in Hl'.
      destruct (GetNodeConfiguration env _) as [config|]; [|done]. injection Hl' as <-.
      split; [|done]. simpl. rewrite sortSlice_Permutation.
      apply Forall_app. split; [done|]. apply Forall_singleton. split; constructor. }
  destruct registered as [l'|]; [|done]. specialize (Hreg l' eq_refl).
  destruct (negb _); [done|]. destruct (existsb _ _); [done|].
  by apply sendCurrentStatus_listsOnce.
Qed.

Lemma RunInstances_listsOnce env desired newServices l :
  listsOnceInv l -> listsOnceInv (RunInstances env desired newServices l).1.
Proof.
  intros [_ Hsent]. unfold RunInstances.
  set (l0 := setPendingNewServices _ _).
  pose proof (performNodeBalancing_listsOnce env desired l0) as Hn.
  pose proof (performNodeBalancing_effects env desired l0) as He.
  destruct (performNodeBalancing env desired l0) as [l1 errs]. simpl in Hn, He.
  apply sendRunInstances_listsOnce. split; [done|]. simpl. by rewrite He.
Qed.

Lemma RestartInstances_listsOnce env l :
  listsOnceInv l -> listsOnceInv (RestartInstances env l).1.
Proof.
  intros [_ Hsent]. unfold RestartInstances.
  set (l0 := setNodes _ l).
  pose proof (performNodeBalancing_listsOnce env (currentDesiredInstances l0) l0) as Hn.
  pose proof (performNodeBalancing_effects env (currentDesiredInstances l0) l0) as He.
  destruct (performNodeBalancing env _ l0) as [l1 errs]. simpl in Hn, He.
  apply sendRunInstances_listsOnce. split; [done|]. simpl. by rewrite He.
Qed.

Lemma rebalanceInstance_listsOnce env alert source i l :
  listsOnceInv l ->
  match rebalanceInstance env alert source i l with
  | inl l' | inr l' => listsOnceInv l'
  end.
Proof.
  intros Hinv. unfold rebalanceInstance.
  destruct (nodes l !! source) as [nodeWithIssue|]; [|done].
  destruct (instances _ !! i) as [instance|]; [|done].
  destruct (GetServiceInfo env _) as [serviceInfo|]; [|done].
  destruct (Nat.eqb _ 0); [done|]. destruct (Nat.eqb _ 0); [done|].
  destruct (getLayersForService env _) as [layersForService|]; [|done].
  destruct (getNodeByMonitoringData _ _ _ _) as [|target rest]; [done|].
  set (ns := alter _ target (nodes l)).
  destruct Hinv as [Hnodes Hsent].
  assert (Hns : Forall listsOnce ns).
  { unfold ns. apply Forall_alter; [done|]. intros node _ Hn.
    by apply addRunRequest_listsOnce. }
  destruct (ns !! source) as [node|] eqn:Hnode; [|done].
  assert (Hnodeinv : listsOnce node) by (eapply Forall_lookup_1; eauto).
  destruct (releaseDevices (availableDevices node) _) as [devices' [err|]].
  - split; [|done]. simpl. by apply Forall_insert.
  - apply sendRunInstances_listsOnce. split; [|done]. simpl. by apply Forall_insert.
Qed.

Lemma rebalanceInstances_listsOnce env alert source n : forall l,
  listsOnceInv l -> listsOnceInv (rebalanceInstances env alert source n l).
Proof.
  induction n as [|i IH]; intros l Hinv; simpl; [done|].
  pose proof (rebalanceInstance_listsOnce env alert source i l Hinv) as H.
  destruct (rebalanceInstance env alert source i l) as [l'|l']; [done|by apply IH].
Qed.

Lemma performRebalancing_listsOnce env alert l :
  listsOnceInv l -> listsOnceInv (performRebalancing env alert l).
Proof.
  intros [Hnodes Hsent]. unfold performRebalancing.
  pose proof (rebalancing_sorted_Permutation (nodes l)
                (cloudprotocol.SystemQuotaAlert_NodeID alert)) as Hperm.
  destruct (getNodesForRebalancingByNodePriority _ _) as [candidates sorted].
  simpl in Hperm. destruct (Nat.eqb _ 0).
  { split; [|done]. simpl. by rewrite Hperm. }
  set (l0 := setNodes _ l).
  pose proof (performNodeBalancing_listsOnce env (currentDesiredInstances l0) l0) as Hn.
  pose proof (performNodeBalancing_effects env (currentDesiredInstances l0) l0) as He.
  destruct (performNodeBalancing env _ l0) as [l1 errs]. simpl in Hn, He.
  assert (H1 : listsOnceInv (setErrorStatus errs l1)).
  { split; [done|]. simpl. by rewrite He. }
  destruct (getNode _ _) as [source|]; [|done]. simpl.
  destruct (nodes l1 !! source); [|done].
  by apply rebalanceInstances_listsOnce.
Qed.

Lemma handle_listsOnce env r l : listsOnceInv l -> listsOnceInv (handle env r l).
Proof.
  intros Hinv. destruct r; simpl.
  - by apply RunInstances_listsOnce.
  - by apply RestartInstances_listsOnce.
  - by apply processRunInstanceStatus_listsOnce.
  - by apply performRebalancing_listsOnce.
  - by apply sendCurrentStatus_listsOnce.
Qed.

(** No run request lists a service or a layer twice: [addRunRequest] appends
    a service or a layer only when the request has no equal one, so when the
    run requests of the nodes and those already sent list none twice, the
    same holds after any calls, messages and alerts, for the run requests
    that the nodes are left with and for every run request that is sent. *)
Theorem run_requests_list_services_once (history : list (Env NetState * request)) :
  forall l, listsOnceInv l -> listsOnceInv (serve l history).
Proof.
  induction history as [|[env r] history IH]; intros l Hinv; simpl; [done|].
  apply IH. by apply handle_listsOnce.
Qed.

End Requests.

(** ** The theorems at concrete inputs *)

Import LauncherScenarios.


Lemma recurring_instance_keeps_uid_witness :
  let l := serve (New [{| InstanceIdent_ := ident "serv" 0; UID := 5005 |}] 0%N [])
                 [(singleEnv, connected "nodeA" "typeA")] in
  let l' := (performNodeBalancing singleEnv [desired "serv" 50 1] l).1 in
  match nodes l' with
  | node :: _ =>
      match instances (currentRunRequest node) with
      | info :: _ =>
          aostypes.UID info = uint32Wrap 5005
          /\ GetInstanceUID (aostypes.InstanceIdent_ info) (storage l') = Ok 5005%Z
      | [] => False
      end
  | [] => False
  end.
Proof.
  intros l l'.
  destruct (nodes l') as [|node rest] eqn:Hn; [vm_compute in Hn; discriminate Hn|].
  destruct (instances (currentRunRequest node)) as [|info rest'] eqn:Hi.
  { vm_compute in Hn. injection Hn as <- _. vm_compute in Hi. discriminate Hi. }
  apply (recurring_instance_keeps_uid singleEnv [desired "serv" 50 1] l node info 5005).
  - fold l'. rewrite Hn. apply list_elem_of_here.
  - rewrite Hi. apply list_elem_of_here.
  - vm_compute in Hn. injection Hn as <- _. vm_compute in Hi. injection Hi as <- _.
    vm_compute. reflexivity.
Defined.

Lemma every_desired_instance_is_accounted_for_witness :
  let l := serve (New [] 0%N []) deviceConnected in
  let l' := (RunInstances deviceEnv [desired "serv" 50 2] [] l).1 in
  covered (nodes l') (currentErrorStatus l') (desired "serv" 50 2) 1.
Proof.
  intros l l'.
  apply (every_desired_instance_is_accounted_for deviceEnv [desired "serv" 50 2] [] l
           (desired "serv" 50 2) 1).
  - apply list_elem_of_here.
  - vm_compute. reflexivity.
Defined.

Lemma release_undoes_allocate_witness :
  let devices := [{| name := "camera"; sharedCount := 2; allocatedCount := 1 |};
                  {| name := "mic"; sharedCount := 0; allocatedCount := 0 |};
                  {| name := "mic"; sharedCount := 1; allocatedCount := 0 |}] in
  let serviceDevices := [{| aostypes.Name := "mic"; aostypes.Permissions := "rw" |};
                         {| aostypes.Name := "camera"; aostypes.Permissions := "r" |}] in
  releaseDevices (allocateDevices devices serviceDevices).1 serviceDevices = (devices, None).
Proof.
  intros devices serviceDevices.
  apply (release_undoes_allocate serviceDevices devices).
  - repeat constructor; simpl; lia.
  - reflexivity.
Defined.

Lemma testEnv_answersForNode nodeInfos unitConfigs imageServices monitoring setupError
    rangeOrder :
  answersForNode (testEnv nodeInfos unitConfigs imageServices monitoring setupError rangeOrder).
Proof.
  intros nodeID config. simpl. unfold lookupBy.
  destruct (List.find _ nodeInfos) as [found|] eqn:Hfind; [|done].
  intros [= <-]. apply find_some in Hfind as [_ Heq]. by apply String.eqb_eq in Heq.
Qed.

Lemma one_status_per_node_witness :
  NoDup (map NodeID (nodes (serve (New [] 0%N []) alertHistory)))
  /\ forall nodeID, nodeID ∈ map NodeID (nodes (serve (New [] 0%N []) alertHistory)) ->
       nodeID ∈ map NodeID (nodes (New [] 0%N []))
       \/ exists er, er ∈ alertHistory /\ nodeID ∈ NodeIDs er.1.
Proof.
  apply (one_status_per_node alertHistory (New [] 0%N [])).
  - intros er Her. unfold alertHistory, deviceHistory in Her. simpl in Her.
    repeat (apply elem_of_cons in Her as [->|Her]; [apply testEnv_answersForNode|]).
    by apply elem_of_nil in Her.
  - simpl. constructor.
Defined.

Lemma run_requests_list_services_once_witness :
  listsOnceInv (serve (New [] 0%N []) alertHistory).
Proof.
  apply (run_requests_list_services_once alertHistory (New [] 0%N [])).
  split; [constructor|]. simpl. by intros nodeID request forceRestart ?%elem_of_nil.
Defined.

End LauncherFacts.

(** * Launcher: the run status at the expiry of the connection timer *)

Module RunStatusSpec.
Import launcher LauncherProps PlacementProps LauncherSpec LauncherFacts.

Section Timeout.

Context {NetState : Type}.
Implicit Types (env : Env NetState) (l : Launcher NetState).

(** ** A run status message of a registered node *)







(** ** What the replies leave on a node *)









(** ** The run status at the expiry of the timer, and after it *)


End Timeout.

Import LauncherScenarios.



End RunStatusSpec.
